(** * goasm-vscode: the HTTP disassembly server, its client and the reload loop

    A shallow embedding of [server.go] (the open-file registry behind the
    request handlers and the wire conversion of a decoded function), of the
    HTTP client that mirrors it, and of the load/watch goroutine of
    [fileui.go], together with the properties the specification states
    about them. *)

From Stdlib Require Import ZArith Ascii String.
From stdpp Require Import gmap strings list fin_maps sorting.

Local Open Scope Z_scope.
Set Warnings "-register-all".


(** ** Go values *)

(** A Go [error] is carried by its message; [T, error] results are sums. *)
Inductive Result (A : Type) : Type :=
| Ok (a : A)
| Err (e : string).
Arguments Ok {A} a.
Arguments Err {A} e.

(** [make([]T, n)]: a slice of [n] zero values. *)
Definition make {B : Type} (zero : B) (n : nat) : list B := replicate n zero.

(** [for i, x := range l { acc = body i x acc }], started at index [i]. *)
Fixpoint range_loop {A B : Type} (body : nat → A → B → B)
    (i : nat) (l : list A) (acc : B) : B :=
  match l with
  | [] => acc
  | x :: l' => range_loop body (S i) l' (body i x acc)
  end.

(** ** Package disasm: the decoded function *)

(** Modelled from the spec: the types of package [internal/disasm], whose
    declarations are not among the sources.  [Options], [Code], [Inst],
    [Source], [SourceBlock] and [LineRange] have the fields the server
    reads and the client writes (sections 3 and 6 of the specification);
    [File] and [Func] are the interfaces of section 6. *)
Module disasm.

Record Options := mkOptions { Options_Context : Z }.

Record LineRange := mkLineRange { LineRange_From : Z; LineRange_To : Z }.

Record Inst := mkInst {
  Inst_PC : Z;
  Inst_Text : string;
  Inst_File : string;
  Inst_Line : Z;
  Inst_RefPC : Z;
  Inst_RefOffset : Z;
  Inst_RefStack : Z;
  Inst_Call : string
}.

Record SourceBlock := mkSourceBlock {
  SourceBlock_LineRange : LineRange;   (* the embedded LineRange *)
  SourceBlock_Lines : list string;
  SourceBlock_Related : list (list LineRange)
}.

Record Source := mkSource {
  Source_File : string;
  Source_Blocks : list SourceBlock
}.

Record Code := mkCode {
  Code_Name : string;
  Code_File : string;
  Code_Insts : list Inst;
  Code_Source : list Source;
  Code_MaxJump : Z
}.

(** The interfaces [Func] and [File], as records of their methods.
    [Load] returns a [*Code], [None] being nil; [Close] returns an
    [error], [None] being nil. *)
Record Func := mkFunc {
  Func_Name : string;
  Func_Load : Options → option Code
}.

Record File := mkFile {
  File_Close : option string;
  File_Funcs : list Func
}.

Definition zeroLineRange : LineRange := mkLineRange 0 0.
Definition zeroInst : Inst := mkInst 0 "" "" 0 0 0 0 "".
Definition zeroSourceBlock : SourceBlock := mkSourceBlock zeroLineRange [] [].
Definition zeroSource : Source := mkSource "" [].

End disasm.

(** ** Response types of the API (server.go) *)

Record FunctionInfo := mkFunctionInfo { FunctionInfo_Name : string }.

Record LineRangeInfo := mkLineRangeInfo { LineRangeInfo_From : Z; LineRangeInfo_To : Z }.

Record InstructionInfo := mkInstructionInfo {
  InstructionInfo_PC : Z;
  InstructionInfo_Text : string;
  InstructionInfo_File : string;
  InstructionInfo_Line : Z;
  InstructionInfo_RefPC : Z;
  InstructionInfo_RefOffset : Z;
  InstructionInfo_RefStack : Z;
  InstructionInfo_Call : string
}.

Record SourceBlockInfo := mkSourceBlockInfo {
  SourceBlockInfo_From : Z;
  SourceBlockInfo_To : Z;
  SourceBlockInfo_Lines : list string;
  SourceBlockInfo_Related : list (list LineRangeInfo)
}.

Record SourceInfo := mkSourceInfo {
  SourceInfo_File : string;
  SourceInfo_Blocks : list SourceBlockInfo
}.

Record CodeResponse := mkCodeResponse {
  CodeResponse_Name : string;
  CodeResponse_File : string;
  CodeResponse_Instructions : list InstructionInfo;
  CodeResponse_Sources : list SourceInfo;
  CodeResponse_MaxJump : Z
}.

Definition zeroFunctionInfo : FunctionInfo := mkFunctionInfo "".
Definition zeroLineRangeInfo : LineRangeInfo := mkLineRangeInfo 0 0.
Definition zeroInstructionInfo : InstructionInfo :=
  mkInstructionInfo 0 "" "" 0 0 0 0 "".
Definition zeroSourceBlockInfo : SourceBlockInfo :=
  mkSourceBlockInfo 0 0 [] [].
Definition zeroSourceInfo : SourceInfo := mkSourceInfo "" [].

(** ** Server side: disasm.Code to CodeResponse (handleFunctionOperations) *)
Module ToWire.

Definition instructionInfo (inst : disasm.Inst) : InstructionInfo :=
  {| InstructionInfo_PC := disasm.Inst_PC inst;
     InstructionInfo_Text := disasm.Inst_Text inst;
     InstructionInfo_File := disasm.Inst_File inst;
     InstructionInfo_Line := disasm.Inst_Line inst;
     InstructionInfo_RefPC := disasm.Inst_RefPC inst;
     InstructionInfo_RefOffset := disasm.Inst_RefOffset inst;
     InstructionInfo_RefStack := disasm.Inst_RefStack inst;
     InstructionInfo_Call := disasm.Inst_Call inst |}.

Definition lineRangeInfo (rng : disasm.LineRange) : LineRangeInfo :=
  {| LineRangeInfo_From := disasm.LineRange_From rng;
     LineRangeInfo_To := disasm.LineRange_To rng |}.

(** The loop over [block.Related]: slot [k] is first made, then filled
    element by element through [blockInfo.Related[k][l] = ...]. *)
Definition relatedLoop (related : list (list disasm.LineRange))
    (dst : list (list LineRangeInfo)) : list (list LineRangeInfo) :=
  range_loop
    (fun k relatedRanges dst =>
       let dst := <[k := make zeroLineRangeInfo (length relatedRanges)]> dst in
       range_loop
         (fun l rng dst => alter (fun row => <[l := lineRangeInfo rng]> row) k dst)
         0%nat relatedRanges dst)
    0%nat related dst.

Definition sourceBlockInfo (block : disasm.SourceBlock) : SourceBlockInfo :=
  let blockInfo :=
    {| SourceBlockInfo_From := disasm.LineRange_From (disasm.SourceBlock_LineRange block);
       SourceBlockInfo_To := disasm.LineRange_To (disasm.SourceBlock_LineRange block);
       SourceBlockInfo_Lines := disasm.SourceBlock_Lines block;
       SourceBlockInfo_Related := make [] (length (disasm.SourceBlock_Related block)) |} in
  {| SourceBlockInfo_From := SourceBlockInfo_From blockInfo;
     SourceBlockInfo_To := SourceBlockInfo_To blockInfo;
     SourceBlockInfo_Lines := SourceBlockInfo_Lines blockInfo;
     SourceBlockInfo_Related :=
       relatedLoop (disasm.SourceBlock_Related block)
         (SourceBlockInfo_Related blockInfo) |}.

Definition sourceInfo (src : disasm.Source) : SourceInfo :=
  let sourceInfo :=
    {| SourceInfo_File := disasm.Source_File src;
       SourceInfo_Blocks := make zeroSourceBlockInfo (length (disasm.Source_Blocks src)) |} in
  {| SourceInfo_File := SourceInfo_File sourceInfo;
     SourceInfo_Blocks :=
       range_loop (fun j block dst => <[j := sourceBlockInfo block]> dst)
         0%nat (disasm.Source_Blocks src) (SourceInfo_Blocks sourceInfo) |}.

Definition codeResponse (code : disasm.Code) : CodeResponse :=
  let response :=
    {| CodeResponse_Name := disasm.Code_Name code;
       CodeResponse_File := disasm.Code_File code;
       CodeResponse_Instructions := make zeroInstructionInfo (length (disasm.Code_Insts code));
       CodeResponse_Sources := make zeroSourceInfo (length (disasm.Code_Source code));
       CodeResponse_MaxJump := disasm.Code_MaxJump code |} in
  let instructions :=
    range_loop (fun i inst dst => <[i := instructionInfo inst]> dst)
      0%nat (disasm.Code_Insts code) (CodeResponse_Instructions response) in
  let sources :=
    range_loop (fun i src dst => <[i := sourceInfo src]> dst)
      0%nat (disasm.Code_Source code) (CodeResponse_Sources response) in
  {| CodeResponse_Name := CodeResponse_Name response;
     CodeResponse_File := CodeResponse_File response;
     CodeResponse_Instructions := instructions;
     CodeResponse_Sources := sources;
     CodeResponse_MaxJump := CodeResponse_MaxJump response |}.

End ToWire.

(** ** Client side: CodeResponse to disasm.Code (Client.GetFunctionCode) *)
Module FromWire.

Definition inst (inst : InstructionInfo) : disasm.Inst :=
  {| disasm.Inst_PC := InstructionInfo_PC inst;
     disasm.Inst_Text := InstructionInfo_Text inst;
     disasm.Inst_File := InstructionInfo_File inst;
     disasm.Inst_Line := InstructionInfo_Line inst;
     disasm.Inst_RefPC := InstructionInfo_RefPC inst;
     disasm.Inst_RefOffset := InstructionInfo_RefOffset inst;
     disasm.Inst_RefStack := InstructionInfo_RefStack inst;
     disasm.Inst_Call := InstructionInfo_Call inst |}.

Definition lineRange (rng : LineRangeInfo) : disasm.LineRange :=
  {| disasm.LineRange_From := LineRangeInfo_From rng;
     disasm.LineRange_To := LineRangeInfo_To rng |}.

Definition relatedLoop (related : list (list LineRangeInfo))
    (dst : list (list disasm.LineRange)) : list (list disasm.LineRange) :=
  range_loop
    (fun k relatedRanges dst =>
       let dst := <[k := make disasm.zeroLineRange (length relatedRanges)]> dst in
       range_loop
         (fun l rng dst => alter (fun row => <[l := lineRange rng]> row) k dst)
         0%nat relatedRanges dst)
    0%nat related dst.

Definition sourceBlock (block : SourceBlockInfo) : disasm.SourceBlock :=
  let sourceBlock :=
    {| disasm.SourceBlock_LineRange :=
         {| disasm.LineRange_From := SourceBlockInfo_From block;
            disasm.LineRange_To := SourceBlockInfo_To block |};
       disasm.SourceBlock_Lines := SourceBlockInfo_Lines block;
       disasm.SourceBlock_Related := make [] (length (SourceBlockInfo_Related block)) |} in
  {| disasm.SourceBlock_LineRange := disasm.SourceBlock_LineRange sourceBlock;
     disasm.SourceBlock_Lines := disasm.SourceBlock_Lines sourceBlock;
     disasm.SourceBlock_Related :=
       relatedLoop (SourceBlockInfo_Related block)
         (disasm.SourceBlock_Related sourceBlock) |}.

Definition source (src : SourceInfo) : disasm.Source :=
  let source :=
    {| disasm.Source_File := SourceInfo_File src;
       disasm.Source_Blocks := make disasm.zeroSourceBlock (length (SourceInfo_Blocks src)) |} in
  {| disasm.Source_File := disasm.Source_File source;
     disasm.Source_Blocks :=
       range_loop (fun j block dst => <[j := sourceBlock block]> dst)
         0%nat (SourceInfo_Blocks src) (disasm.Source_Blocks source) |}.

Definition code (result : CodeResponse) : disasm.Code :=
  let code :=
    {| disasm.Code_Name := CodeResponse_Name result;
       disasm.Code_File := CodeResponse_File result;
       disasm.Code_MaxJump := CodeResponse_MaxJump result;
       disasm.Code_Insts := make disasm.zeroInst (length (CodeResponse_Instructions result));
       disasm.Code_Source := make disasm.zeroSource (length (CodeResponse_Sources result)) |} in
  let insts :=
    range_loop (fun i ii dst => <[i := inst ii]> dst)
      0%nat (CodeResponse_Instructions result) (disasm.Code_Insts code) in
  let sources :=
    range_loop (fun i src dst => <[i := source src]> dst)
      0%nat (CodeResponse_Sources result) (disasm.Code_Source code) in
  {| disasm.Code_Name := disasm.Code_Name code;
     disasm.Code_File := disasm.Code_File code;
     disasm.Code_MaxJump := disasm.Code_MaxJump code;
     disasm.Code_Insts := insts;
     disasm.Code_Source := sources |}.

End FromWire.

(** ** unicode/utf8

    A Go string is a sequence of bytes.  [first] is the table of the
    same name: what the first byte of an encoding announces, the number
    of bytes of the encoding and the range its second byte must lie in.
    Every later byte lies in 0x80..0xBF. *)
Module utf8.

Inductive First : Type :=
| ASCII
| Invalid
| Lead (size : nat) (lo hi : N).

Definition first (c : ascii) : First :=
  let b := N_of_ascii c in
  if (b <? 128)%N then ASCII
  else if (b <? 194)%N then Invalid
  else if (b <? 224)%N then Lead 2 128 191
  else if (b =? 224)%N then Lead 3 160 191
  else if (b <? 237)%N then Lead 3 128 191
  else if (b =? 237)%N then Lead 3 128 159
  else if (b <? 240)%N then Lead 3 128 191
  else if (b =? 240)%N then Lead 4 144 191
  else if (b <? 244)%N then Lead 4 128 191
  else if (b =? 244)%N then Lead 4 128 143
  else Invalid.

Definition within (lo hi : N) (c : ascii) : bool :=
  (lo <=? N_of_ascii c)%N && (N_of_ascii c <=? hi)%N.

(** The encoding of U+FFFD, the replacement character. *)
Definition RuneError : string :=
  String (ascii_of_N 239) (String (ascii_of_N 191) (String (ascii_of_N 189) EmptyString)).

End utf8.

(** ** encoding/json, on parsed JSON values

    Struct values are encoded field by field under the names of their
    [json:"..."] tags, in declaration order; numbers are integers.  A
    JSON string is text: the encoder walks a Go string rune by rune
    with utf8.DecodeRuneInString and writes the replacement character
    for every byte at which that returns RuneError of width one, so
    that [JStr] always carries valid UTF-8, which the decoder hands
    back as it is. *)
Inductive json : Type :=
| JNull
| JNum (n : Z)
| JStr (s : string)
| JArr (elems : list json)
| JObj (fields : list (string * json)).

Module Encode.

(** The text of a Go string as the encoder writes it. *)
Fixpoint text (s : string) : string :=
  match s with
  | EmptyString => EmptyString
  | String b0 rest =>
      let replaced := utf8.RuneError +:+ text rest in
      match utf8.first b0 with
      | utf8.ASCII => String b0 (text rest)
      | utf8.Invalid => replaced
      | utf8.Lead size lo hi =>
          match rest with
          | String b1 rest1 =>
              if negb (utf8.within lo hi b1) then replaced
              else if (size <=? 2)%nat then String b0 (String b1 (text rest1))
              else
                match rest1 with
                | String b2 rest2 =>
                    if negb (utf8.within 128 191 b2) then replaced
                    else if (size <=? 3)%nat
                    then String b0 (String b1 (String b2 (text rest2)))
                    else
                      match rest2 with
                      | String b3 rest3 =>
                          if negb (utf8.within 128 191 b3) then replaced
                          else String b0 (String b1 (String b2 (String b3 (text rest3))))
                      | EmptyString => replaced
                      end
                | EmptyString => replaced
                end
          | EmptyString => replaced
          end
      end
  end.

Definition str (s : string) : json := JStr (text s).

(** A slice that may be nil ([None]): the nil slice is written as null. *)
Definition slice {A : Type} (enc : A → json) (s : option (list A)) : json :=
  match s with
  | None => JNull
  | Some l => JArr (enc <$> l)
  end.

Definition strings (l : list string) : json := JArr (str <$> l).

Definition functionInfo (v : FunctionInfo) : json :=
  JObj [("name", str (FunctionInfo_Name v))].

Definition lineRangeInfo (v : LineRangeInfo) : json :=
  JObj [("from", JNum (LineRangeInfo_From v));
        ("to", JNum (LineRangeInfo_To v))].

Definition instructionInfo (v : InstructionInfo) : json :=
  JObj [("pc", JNum (InstructionInfo_PC v));
        ("text", str (InstructionInfo_Text v));
        ("file", str (InstructionInfo_File v));
        ("line", JNum (InstructionInfo_Line v));
        ("refPc", JNum (InstructionInfo_RefPC v));
        ("refOffset", JNum (InstructionInfo_RefOffset v));
        ("refStack", JNum (InstructionInfo_RefStack v));
        ("call", str (InstructionInfo_Call v))].

Definition sourceBlockInfo (v : SourceBlockInfo) : json :=
  JObj [("from", JNum (SourceBlockInfo_From v));
        ("to", JNum (SourceBlockInfo_To v));
        ("lines", strings (SourceBlockInfo_Lines v));
        ("related",
         JArr ((fun row => JArr (lineRangeInfo <$> row))
                 <$> SourceBlockInfo_Related v))].

Definition sourceInfo (v : SourceInfo) : json :=
  JObj [("file", str (SourceInfo_File v));
        ("blocks", JArr (sourceBlockInfo <$> SourceInfo_Blocks v))].

Definition codeResponse (v : CodeResponse) : json :=
  JObj [("name", str (CodeResponse_Name v));
        ("file", str (CodeResponse_File v));
        ("instructions", JArr (instructionInfo <$> CodeResponse_Instructions v));
        ("sources", JArr (sourceInfo <$> CodeResponse_Sources v));
        ("maxJump", JNum (CodeResponse_MaxJump v))].

End Encode.

Module Decode.

(** Decoding into a struct looks its fields up by name; a field the
    object lacks keeps its zero value, as does one given as null. *)
Fixpoint field (name : string) (fields : list (string * json)) : json :=
  match fields with
  | [] => JNull
  | (k, v) :: rest => if bool_decide (k = name) then v else field name rest
  end.

Definition bind {A B : Type} (r : Result A) (k : A → Result B) : Result B :=
  match r with
  | Ok a => k a
  | Err e => Err e
  end.

Fixpoint each {A B : Type} (dec : A → Result B) (l : list A) : Result (list B) :=
  match l with
  | [] => Ok []
  | x :: l' => bind (dec x) (fun y => bind (each dec l') (fun ys => Ok (y :: ys)))
  end.

Definition typeError {A : Type} (what : string) : Result A :=
  Err ("json: cannot unmarshal value into Go value of type " +:+ what).

Definition int (j : json) : Result Z :=
  match j with
  | JNum n => Ok n
  | JNull => Ok 0
  | _ => typeError "int"
  end.

Definition str (j : json) : Result string :=
  match j with
  | JStr s => Ok s
  | JNull => Ok ""
  | _ => typeError "string"
  end.

Definition slice {A : Type} (dec : json → Result A) (j : json) : Result (list A) :=
  match j with
  | JArr elems => each dec elems
  | JNull => Ok []
  | _ => typeError "slice"
  end.

Definition struct {A : Type} (zero : A)
    (dec : list (string * json) → Result A) (j : json) : Result A :=
  match j with
  | JObj fields => dec fields
  | JNull => Ok zero
  | _ => typeError "struct"
  end.

Definition functionInfo : json → Result FunctionInfo :=
  struct zeroFunctionInfo (fun fs =>
    bind (str (field "name" fs)) (fun name =>
    Ok {| FunctionInfo_Name := name |})).

Definition lineRangeInfo : json → Result LineRangeInfo :=
  struct zeroLineRangeInfo (fun fs =>
    bind (int (field "from" fs)) (fun from =>
    bind (int (field "to" fs)) (fun to =>
    Ok {| LineRangeInfo_From := from; LineRangeInfo_To := to |}))).

Definition instructionInfo : json → Result InstructionInfo :=
  struct zeroInstructionInfo (fun fs =>
    bind (int (field "pc" fs)) (fun pc =>
    bind (str (field "text" fs)) (fun text =>
    bind (str (field "file" fs)) (fun file =>
    bind (int (field "line" fs)) (fun line =>
    bind (int (field "refPc" fs)) (fun refPc =>
    bind (int (field "refOffset" fs)) (fun refOffset =>
    bind (int (field "refStack" fs)) (fun refStack =>
    bind (str (field "call" fs)) (fun call =>
    Ok {| InstructionInfo_PC := pc;
          InstructionInfo_Text := text;
          InstructionInfo_File := file;
          InstructionInfo_Line := line;
          InstructionInfo_RefPC := refPc;
          InstructionInfo_RefOffset := refOffset;
          InstructionInfo_RefStack := refStack;
          InstructionInfo_Call := call |}))))))))).

Definition sourceBlockInfo : json → Result SourceBlockInfo :=
  struct zeroSourceBlockInfo (fun fs =>
    bind (int (field "from" fs)) (fun from =>
    bind (int (field "to" fs)) (fun to =>
    bind (slice str (field "lines" fs)) (fun lines =>
    bind (slice (slice lineRangeInfo) (field "related" fs)) (fun related =>
    Ok {| SourceBlockInfo_From := from;
          SourceBlockInfo_To := to;
          SourceBlockInfo_Lines := lines;
          SourceBlockInfo_Related := related |}))))).

Definition sourceInfo : json → Result SourceInfo :=
  struct zeroSourceInfo (fun fs =>
    bind (str (field "file" fs)) (fun file =>
    bind (slice sourceBlockInfo (field "blocks" fs)) (fun blocks =>
    Ok {| SourceInfo_File := file; SourceInfo_Blocks := blocks |}))).

Definition zeroCodeResponse : CodeResponse := mkCodeResponse "" "" [] [] 0.

Definition codeResponse : json → Result CodeResponse :=
  struct zeroCodeResponse (fun fs =>
    bind (str (field "name" fs)) (fun name =>
    bind (str (field "file" fs)) (fun file =>
    bind (slice instructionInfo (field "instructions" fs)) (fun instructions =>
    bind (slice sourceInfo (field "sources" fs)) (fun sources =>
    bind (int (field "maxJump" fs)) (fun maxJump =>
    Ok {| CodeResponse_Name := name;
          CodeResponse_File := file;
          CodeResponse_Instructions := instructions;
          CodeResponse_Sources := sources;
          CodeResponse_MaxJump := maxJump |})))))).

End Decode.

(** What a response value has become once the encoder has written it and
    the decoder has read it back: its strings are the text the encoder
    wrote for them. *)
Module Received.

Definition functionInfo (v : FunctionInfo) : FunctionInfo :=
  {| FunctionInfo_Name := Encode.text (FunctionInfo_Name v) |}.

Definition instructionInfo (v : InstructionInfo) : InstructionInfo :=
  {| InstructionInfo_PC := InstructionInfo_PC v;
     InstructionInfo_Text := Encode.text (InstructionInfo_Text v);
     InstructionInfo_File := Encode.text (InstructionInfo_File v);
     InstructionInfo_Line := InstructionInfo_Line v;
     InstructionInfo_RefPC := InstructionInfo_RefPC v;
     InstructionInfo_RefOffset := InstructionInfo_RefOffset v;
     InstructionInfo_RefStack := InstructionInfo_RefStack v;
     InstructionInfo_Call := Encode.text (InstructionInfo_Call v) |}.

Definition sourceBlockInfo (v : SourceBlockInfo) : SourceBlockInfo :=
  {| SourceBlockInfo_From := SourceBlockInfo_From v;
     SourceBlockInfo_To := SourceBlockInfo_To v;
     SourceBlockInfo_Lines := Encode.text <$> SourceBlockInfo_Lines v;
     SourceBlockInfo_Related := SourceBlockInfo_Related v |}.

Definition sourceInfo (v : SourceInfo) : SourceInfo :=
  {| SourceInfo_File := Encode.text (SourceInfo_File v);
     SourceInfo_Blocks := sourceBlockInfo <$> SourceInfo_Blocks v |}.

Definition codeResponse (v : CodeResponse) : CodeResponse :=
  {| CodeResponse_Name := Encode.text (CodeResponse_Name v);
     CodeResponse_File := Encode.text (CodeResponse_File v);
     CodeResponse_Instructions := instructionInfo <$> CodeResponse_Instructions v;
     CodeResponse_Sources := sourceInfo <$> CodeResponse_Sources v;
     CodeResponse_MaxJump := CodeResponse_MaxJump v |}.

(** A decoded function as the remote client has it. *)
Definition code (c : disasm.Code) : disasm.Code :=
  FromWire.code (codeResponse (ToWire.codeResponse c)).

End Received.

(** ** The standard-library routines the handlers call

    [regexp.Compile], [Regexp.MatchString], [strconv.Atoi], the [%d]
    verb of [fmt.Sprintf] and the text of a JSON value are taken as
    given. *)
Class GoLib := {
  Regexp : Type;
  regexp_Compile : string → Result Regexp;
  MatchString : Regexp → string → bool;
  strconv_Atoi : string → Result Z;
  fmt_d : Z → string;
  json_Text : json → string;
  (** the empty pattern is a valid regular expression *)
  regexp_Compile_empty : ∀ err, regexp_Compile "" ≠ Err err
}.

(** The one pattern the source compiles itself, [\.wasm$], written out:
    five literal bytes and the end-of-text anchor, searched for at every
    position of the subject. *)
Module Wasm.

Inductive Atom : Type :=
| Lit (c : ascii)
| EndText.

Definition pattern : list Atom :=
  [Lit "."; Lit "w"; Lit "a"; Lit "s"; Lit "m"; EndText]%char.

Fixpoint matchHere (p : list Atom) (s : string) : bool :=
  match p with
  | [] => true
  | Lit c :: p' =>
      match s with
      | String c' s' => if bool_decide (c = c') then matchHere p' s' else false
      | EmptyString => false
      end
  | EndText :: p' =>
      match s with
      | EmptyString => matchHere p' s
      | String _ _ => false
      end
  end.

Fixpoint matchString (p : list Atom) (s : string) : bool :=
  matchHere p s ||
  match s with
  | String _ s' => matchString p s'
  | EmptyString => false
  end.

End Wasm.

(** Helper function to check if a file is a WebAssembly file *)
Definition isWasmFile (path : string) : bool :=
  Wasm.matchString Wasm.pattern path.

(** ** net/http: requests as the router hands them over, and responses *)

Inductive Method : Type := GET | POST | DELETE | OPTIONS.

(** A request: the route it was matched to, with the path variables and
    query parameters the handler extracts (an absent parameter is the
    empty string).  The body of a request to [/api/files] is given by
    what [json.NewDecoder(r.Body).Decode(&req)] makes of it: the [Path]
    of the request struct, or the error of the decoder. *)
Inductive Request : Type :=
| ReqFiles (method : Method) (body : Result string)
| ReqFileOperations (path : string)
| ReqFunctions (file filter : string)
| ReqFunctionOperations (name file context : string).

Inductive Body : Type :=
| NoBody
| Text (msg : string)
| JSON (j : json).

Record Response := mkResponse { StatusCode : Z; ResponseBody : Body }.

Definition StatusOK : Z := 200.
Definition StatusCreated : Z := 201.
Definition StatusBadRequest : Z := 400.
Definition StatusNotFound : Z := 404.
Definition StatusMethodNotAllowed : Z := 405.
Definition StatusInternalServerError : Z := 500.

Definition newline : string := String (ascii_of_nat 10) EmptyString.

(** [http.Error(w, msg, code)] *)
Definition http_Error (msg : string) (code : Z) : Response :=
  {| StatusCode := code; ResponseBody := Text (msg +:+ newline) |}.

(** [w.WriteHeader(code)] with nothing written after it *)
Definition WriteHeader (code : Z) : Response :=
  {| StatusCode := code; ResponseBody := NoBody |}.

(** [json.NewEncoder(w).Encode(v)] on a fresh response writer *)
Definition Encode (j : json) : Response :=
  {| StatusCode := StatusOK; ResponseBody := JSON j |}.

(** ** The server (server.go) *)

(** Server handles HTTP requests for disassembly operations;
    [activeFiles] maps file paths to loaded disasm.File instances. *)
Record Server := mkServer {
  activeFiles : gmap string disasm.File;
  options : disasm.Options
}.

Definition NewServer (context : Z) : Server :=
  {| activeFiles := ∅;
     options := {| disasm.Options_Context := context |} |}.

(** What a handler does besides answering: loader calls, [Close] calls on
    a file, and lines written to the log. *)
Inductive Loader : Type := Goobj | Wasmobj.

Inductive Event : Type :=
| EvLoad (loader : Loader) (path : string)
| EvClose (path : string) (file : disasm.File)
| EvLog (line : string).

(** The surroundings of one request: the experiment flag and what the
    two loaders return for a path at that moment. *)
Record Env := mkEnv {
  workInProgressWASM : bool;
  goobj_Load : string → Result disasm.File;
  wasmobj_Load : string → Result disasm.File
}.

Definition Outcome : Type := Server * list Event * Response.

(** The loader the server picks for a path. *)
Definition loaderFor (env : Env) (path : string) : Loader :=
  if workInProgressWASM env && isWasmFile path then Wasmobj else Goobj.

Definition runLoader (env : Env) (loader : Loader) (path : string)
    : Result disasm.File :=
  match loader with
  | Wasmobj => wasmobj_Load env path
  | Goobj => goobj_Load env path
  end.

(** handleFiles handles operations on the collection of files *)
Definition handleFiles (env : Env) (s : Server) (method : Method)
    (body : Result string) : Outcome :=
  match method with
  | POST =>
      match body with
      | Err err =>
          (s, [], http_Error ("Invalid request: " +:+ err) StatusBadRequest)
      | Ok path =>
          if bool_decide (path = "") then
            (s, [], http_Error "Path is required" StatusBadRequest)
          else
            match activeFiles s !! path with
            | Some _ => (s, [], WriteHeader StatusOK)
            | None =>
                let loader := loaderFor env path in
                match runLoader env loader path with
                | Err err =>
                    (s, [EvLoad loader path],
                     http_Error ("Failed to load file: " +:+ err)
                       StatusInternalServerError)
                | Ok file =>
                    ({| activeFiles := <[path := file]> (activeFiles s);
                        options := options s |},
                     [EvLoad loader path],
                     WriteHeader StatusCreated)
                end
            end
      end
  | GET =>
      (* the keys of the map, in the order the iteration happens to take *)
      let files := elements (dom (activeFiles s)) in
      (s, [], Encode (JObj [("files", Encode.strings files)]))
  | _ => (s, [], http_Error "Method not allowed" StatusMethodNotAllowed)
  end.

(** handleFileOperations handles operations on a specific file *)
Definition handleFileOperations (s : Server) (path : string) : Outcome :=
  if bool_decide (path = "") then
    (s, [], http_Error "File path is required" StatusBadRequest)
  else
    match activeFiles s !! path with
    | None => (s, [], http_Error "File not found" StatusNotFound)
    | Some file =>
        let s' := {| activeFiles := delete path (activeFiles s);
                     options := options s |} in
        let logged :=
          match disasm.File_Close file with
          | Some err => [EvLog ("Error closing file " +:+ path +:+ ": " +:+ err)]
          | None => []
          end in
        (s', EvClose path file :: logged, WriteHeader StatusOK)
    end.

(** [append] to a slice that may be nil ([None]): the result is a slice. *)
Definition append {A : Type} (s : option (list A)) (x : A) : option (list A) :=
  Some (default [] s ++ [x]).

(** The body of the filtering loop: [append] on a match. *)
Definition appendMatching `{GoLib} (rx : Regexp)
    (filteredFuncs : option (list FunctionInfo)) (fn : disasm.Func)
    : option (list FunctionInfo) :=
  if MatchString rx (disasm.Func_Name fn)
  then append filteredFuncs {| FunctionInfo_Name := disasm.Func_Name fn |}
  else filteredFuncs.

(** handleFunctions handles operations on the collection of functions in
    a file.  [filteredFuncs] is declared nil; it stays nil under a
    filter that no name matches. *)
Definition handleFunctions `{GoLib} (s : Server) (path filter : string) : Outcome :=
  if bool_decide (path = "") then
    (s, [], http_Error "File path is required" StatusBadRequest)
  else
    match activeFiles s !! path with
    | None => (s, [], http_Error "File not found" StatusNotFound)
    | Some file =>
        let funcs := disasm.File_Funcs file in
        let encode (filteredFuncs : option (list FunctionInfo)) :=
          Encode (JObj [("functions", Encode.slice Encode.functionInfo filteredFuncs)]) in
        if bool_decide (filter ≠ "") then
          match regexp_Compile filter with
          | Err err =>
              (s, [], http_Error ("Invalid filter regex: " +:+ err) StatusBadRequest)
          | Ok rx => (s, [], encode (foldl (appendMatching rx) None funcs))
          end
        else
          let filteredFuncs :=
            range_loop
              (fun i fn dst => <[i := {| FunctionInfo_Name := disasm.Func_Name fn |}]> dst)
              0%nat funcs (make zeroFunctionInfo (length funcs)) in
          (s, [], encode (Some filteredFuncs))
    end.

(** The search loop of handleFunctionOperations: the first function of
    that name, nil when there is none. *)
Fixpoint findFunc (funcs : list disasm.Func) (functionName : string)
    : option disasm.Func :=
  match funcs with
  | [] => None
  | fn :: rest =>
      if bool_decide (disasm.Func_Name fn = functionName) then Some fn
      else findFunc rest functionName
  end.

(** handleFunctionOperations handles operations on a specific function *)
Definition handleFunctionOperations `{GoLib} (s : Server)
    (functionName path contextStr : string) : Outcome :=
  if bool_decide (functionName = "") then
    (s, [], http_Error "Function name is required" StatusBadRequest)
  else if bool_decide (path = "") then
    (s, [], http_Error "File path is required" StatusBadRequest)
  else
    match activeFiles s !! path with
    | None => (s, [], http_Error "File not found" StatusNotFound)
    | Some file =>
        match findFunc (disasm.File_Funcs file) functionName with
        | None => (s, [], http_Error "Function not found" StatusNotFound)
        | Some targetFunc =>
            let withOptions (options : disasm.Options) : Outcome :=
              match disasm.Func_Load targetFunc options with
              | None =>
                  (s, [], http_Error "Failed to load function code"
                            StatusInternalServerError)
              | Some code =>
                  (s, [], Encode (Encode.codeResponse (ToWire.codeResponse code)))
              end in
            if bool_decide (contextStr ≠ "") then
              match strconv_Atoi contextStr with
              | Err _ => (s, [], http_Error "Invalid context value" StatusBadRequest)
              | Ok context =>
                  withOptions {| disasm.Options_Context := context |}
              end
            else withOptions (options s)
        end
    end.

(** The router of StartServer: each route with the methods it admits. *)
Definition serve `{GoLib} (env : Env) (s : Server) (req : Request) : Outcome :=
  match req with
  | ReqFiles method body =>
      match method with
      | GET | POST => handleFiles env s method body
      | _ => (s, [], WriteHeader StatusMethodNotAllowed)
      end
  | ReqFileOperations path => handleFileOperations s path
  | ReqFunctions file filter => handleFunctions s file filter
  | ReqFunctionOperations name file context =>
      handleFunctionOperations s name file context
  end.

(** A history of requests, each in its surroundings, served in turn. *)
Fixpoint serveAll `{GoLib} (s : Server) (history : list (Env * Request))
    : Server * list Event :=
  match history with
  | [] => (s, [])
  | (env, req) :: rest =>
      let '(s', events, _) := serve env s req in
      let '(s'', events') := serveAll s' rest in
      (s'', events ++ events')
  end.

(** ** The client of the HTTP server *)

(** What the client hands to its [httpClient].  The requests whose
    parameters travel in the body or in the query, and the request for
    the code of a function, are given as the router hands them to their
    handler.  The DELETE request is given by the path of its URL, as the
    server reads it once the escapes of [url.PathEscape] are undone:
    what becomes of it is the router's to decide. *)
Inductive Sent : Type :=
| Routed (req : Request)
| DeleteURL (urlPath : string).

(** Client handles communication with the lensm HTTP server; the
    [httpClient] performs one exchange, redirects followed, failing with
    a transport error. *)
Record Client := mkClient {
  baseURL : string;
  httpClient : Sent → Result Response
}.

(** [io.ReadAll(resp.Body)] *)
Definition readAll `{GoLib} (b : Body) : string :=
  match b with
  | NoBody => ""
  | Text msg => msg
  | JSON j => json_Text j
  end.

(** [json.NewDecoder(resp.Body).Decode(&result)]: a body that carries no
    JSON value does not decode. *)
Definition decodeBody {A : Type} (dec : json → Result A) (b : Body) : Result A :=
  match b with
  | JSON j => dec j
  | NoBody => Err "EOF"
  | Text _ => Err "invalid character looking for beginning of value"
  end.

(** LoadFile loads a binary file for disassembly; nil is [None].  The
    path travels as a JSON string, and the server decodes the text the
    encoder wrote for it. *)
Definition Client_LoadFile `{GoLib} (c : Client) (path : string) : option string :=
  match httpClient c (Routed (ReqFiles POST (Ok (Encode.text path)))) with
  | Err err => Some ("error sending request: " +:+ err)
  | Ok resp =>
      if bool_decide (StatusCode resp ≠ StatusCreated)
         && bool_decide (StatusCode resp ≠ StatusOK)
      then Some ("server error (status " +:+ fmt_d (StatusCode resp) +:+ "): "
                 +:+ readAll (ResponseBody resp))
      else None
  end.

Definition decodeFunctions : json → Result (list FunctionInfo) :=
  Decode.struct [] (fun fs =>
    Decode.slice Decode.functionInfo (Decode.field "functions" fs)).

(** GetFunctions retrieves functions from a loaded file *)
Definition Client_GetFunctions `{GoLib} (c : Client) (path filter : string)
    : Result (list FunctionInfo) :=
  match httpClient c (Routed (ReqFunctions path filter)) with
  | Err err => Err ("error sending request: " +:+ err)
  | Ok resp =>
      if bool_decide (StatusCode resp ≠ StatusOK)
      then Err ("server error: " +:+ readAll (ResponseBody resp))
      else
        match decodeBody decodeFunctions (ResponseBody resp) with
        | Err err => Err ("error decoding response: " +:+ err)
        | Ok functions => Ok functions
        end
  end.

(** GetFunctionCode retrieves the disassembled code for a specific function *)
Definition Client_GetFunctionCode `{GoLib} (c : Client)
    (path functionName : string) (context : Z) : Result disasm.Code :=
  let contextParam := if bool_decide (context > 0) then fmt_d context else "" in
  match httpClient c (Routed (ReqFunctionOperations functionName path contextParam)) with
  | Err err => Err ("error sending request: " +:+ err)
  | Ok resp =>
      if bool_decide (StatusCode resp ≠ StatusOK)
      then Err ("server error: " +:+ readAll (ResponseBody resp))
      else
        match decodeBody Decode.codeResponse (ResponseBody resp) with
        | Err err => Err ("error decoding response: " +:+ err)
        | Ok result => Ok (FromWire.code result)
        end
  end.

(** NetworkFunc.Load: an error of the request is printed and nil is
    returned. *)
Definition NetworkFunc_Load `{GoLib} (c : Client) (path name : string)
    (opt : disasm.Options) : option disasm.Code :=
  match Client_GetFunctionCode c path name (disasm.Options_Context opt) with
  | Err _ => None
  | Ok code => Some code
  end.

(** NetworkFunc implements the disasm.Func interface for remote functions *)
Definition NetworkFunc `{GoLib} (c : Client) (path name : string) : disasm.Func :=
  {| disasm.Func_Name := name;
     disasm.Func_Load := NetworkFunc_Load c path name |}.

(** NetworkFile.Close: a DELETE request to clean up resources on the
    server, for the URL [baseURL/api/files/] followed by the escaped
    path. *)
Definition NetworkFile_Close `{GoLib} (c : Client) (path : string) : option string :=
  match httpClient c (DeleteURL ("/api/files/" +:+ path)) with
  | Err err => Some err
  | Ok resp =>
      if bool_decide (StatusCode resp ≠ StatusOK)
      then Some ("server error (" +:+ fmt_d (StatusCode resp) +:+ "): "
                 +:+ readAll (ResponseBody resp))
      else None
  end.

(** NewNetworkFile creates a new NetworkFile, as a disasm.File; the
    slice of functions is made of nil entries, here a function of no
    name, and every one of them is then assigned. *)
Definition NewNetworkFile `{GoLib} (c : Client) (path : string) : Result disasm.File :=
  match Client_LoadFile c path with
  | Some err => Err err
  | None =>
      match Client_GetFunctions c path "" with
      | Err err => Err err
      | Ok functions =>
          let funcs :=
            range_loop
              (fun i fn dst => <[i := NetworkFunc c path (FunctionInfo_Name fn)]> dst)
              0%nat functions
              (make (NetworkFunc c path "") (length functions)) in
          Ok {| disasm.File_Close := NetworkFile_Close c path;
                disasm.File_Funcs := funcs |}
      end
  end.

(** ** gorilla/mux in front of the handlers, for the path of a URL

    The router cleans the path of every request and answers with a
    redirect to the cleaned path when the two differ; otherwise it
    matches the path against its routes. *)
Module mux.

(** The elements of a path: what lies between its slashes. *)
Fixpoint elements (p : string) : list string :=
  match p with
  | EmptyString => [EmptyString]
  | String c rest =>
      if bool_decide (c = "/"%char) then EmptyString :: elements rest
      else
        match elements rest with
        | e :: es => String c e :: es
        | [] => [String c EmptyString]
        end
  end.

Fixpoint join (es : list string) : string :=
  match es with
  | [] => EmptyString
  | e :: es' => String "/"%char (e +:+ join es')
  end.

(** path.Clean on a rooted path, element by element: empty elements and
    [.] are dropped, [..] drops the element kept last, if any. *)
Definition keep (kept : list string) (e : string) : list string :=
  if bool_decide (e = "") || bool_decide (e = ".") then kept
  else if bool_decide (e = "..") then removelast kept
  else kept ++ [e].

Definition Clean (p : string) : string :=
  match foldl keep [] (elements p) with
  | [] => "/"
  | es => join es
  end.

Fixpoint endsWithSlash (p : string) : bool :=
  match p with
  | EmptyString => false
  | String c EmptyString => bool_decide (c = "/"%char)
  | String _ rest => endsWithSlash rest
  end.

Definition cleanPath (p : string) : string :=
  if bool_decide (p = "") then "/"
  else
    let p :=
      match p with
      | String "/" _ => p
      | _ => String "/"%char p
      end in
    let np := Clean p in
    if endsWithSlash p && bool_decide (np ≠ "/") then np +:+ "/" else np.

(** What the variable of a route such as [/api/files/{path:.+}] takes
    from a path: the rest after the prefix, when it is not empty and
    holds no line feed (which [.] does not match). *)
Fixpoint afterPrefix (prefix p : string) : option string :=
  match prefix with
  | EmptyString => Some p
  | String c prefix' =>
      match p with
      | String c' p' => if bool_decide (c = c') then afterPrefix prefix' p' else None
      | EmptyString => None
      end
  end.

Fixpoint holds (c : ascii) (s : string) : bool :=
  match s with
  | EmptyString => false
  | String c' s' => bool_decide (c = c') || holds c s'
  end.

Definition variable (prefix p : string) : option string :=
  match afterPrefix prefix p with
  | Some rest =>
      if bool_decide (rest = "") || holds (ascii_of_nat 10) rest then None else Some rest
  | None => None
  end.

Definition notFound : Response := http_Error "404 page not found" StatusNotFound.
Definition methodNotAllowed : Response := WriteHeader StatusMethodNotAllowed.

End mux.

(** The answer to a GET request for a clean path that carries no query. *)
Definition routeGET `{GoLib} (env : Env) (s : Server) (p : string) : Response :=
  if bool_decide (p = "/api/files") then (serve env s (ReqFiles GET (Err "EOF"))).2
  else if bool_decide (p = "/api/functions") then (serve env s (ReqFunctions "" "")).2
  else
    match mux.variable "/api/files/" p with
    | Some _ => mux.methodNotAllowed
    | None =>
        match mux.variable "/api/functions/" p with
        | Some name => (serve env s (ReqFunctionOperations name "" "")).2
        | None => mux.notFound
        end
    end.

(** The answer to a DELETE request for a clean path. *)
Definition routeDELETE `{GoLib} (env : Env) (s : Server) (p : string) : Response :=
  match mux.variable "/api/files/" p with
  | Some path => (serve env s (ReqFileOperations path)).2
  | None =>
      if bool_decide (p = "/api/files") || bool_decide (p = "/api/functions")
      then mux.methodNotAllowed
      else
        match mux.variable "/api/functions/" p with
        | Some _ => mux.methodNotAllowed
        | None => mux.notFound
        end
  end.

(** The exchange that a DELETE request starts.  For a path that is not
    clean the router answers 301 with the cleaned path as the location,
    and the client follows a 301 with a GET request; the cleaned path is
    clean, and is routed. *)
Definition exchangeDELETE `{GoLib} (env : Env) (s : Server) (urlPath : string) : Response :=
  if bool_decide (mux.cleanPath urlPath ≠ urlPath)
  then routeGET env s (mux.cleanPath urlPath)
  else routeDELETE env s urlPath.

(** A client whose exchanges reach a server in a given state; the state
    the exchange leaves the server in is not kept. *)
Definition connectedTo `{GoLib} (env : Env) (s : Server) (url : string) : Client :=
  {| baseURL := url;
     httpClient := fun sent =>
       match sent with
       | Routed req => Ok (serve env s req).2
       | DeleteURL urlPath => Ok (exchangeDELETE env s urlPath)
       end |}.

(** ** The load goroutine and the event loop of FileUI.Run (fileui.go) *)
Module FileUI.

Record FileUIConfig := mkConfig {
  Path : string;
  Watch : bool;
  Context : Z;
  ServerURL : string
}.

(** A channel made with capacity one: empty, or holding one value. *)
Definition chan (A : Type) : Type := option A.

(** [select { case <-ch: default: }] *)
Definition tryReceive {A : Type} (ch : chan A) : chan A := None.

(** [ch <- v]: possible when the buffer has room, [None] when the send
    would block. *)
Definition send {A : Type} (v : A) (ch : chan A) : option (chan A) :=
  match ch with
  | None => Some (Some v)
  | Some _ => None
  end.

(** [v := <-ch] as a ready case of a select. *)
Definition receive {A : Type} (ch : chan A) : option (A * chan A) :=
  match ch with
  | Some v => Some (v, None)
  | None => None
  end.

(** The two channels of Run; [F] stands for the disasm.File values
    (nil among them) and [E] for the errors. *)
Record Chans (F E : Type) := mkChans {
  fileLoaded : chan F;
  fileLoadError : chan E
}.
Arguments mkChans {F E} _ _.
Arguments fileLoaded {F E} _.
Arguments fileLoadError {F E} _.

Section loadFinished.
Context {F E : Type}.

(** The first half of loadFinished: the non-blocking receive on the
    channel chosen by [err == nil]. *)
Definition loadFinished_drain (err : option E) (ch : Chans F E) : Chans F E :=
  match err with
  | None => mkChans (tryReceive (fileLoaded ch)) (fileLoadError ch)
  | Some _ => mkChans (fileLoaded ch) (tryReceive (fileLoadError ch))
  end.

(** The second half: the send on that channel. *)
Definition loadFinished_send (exe : F) (err : option E) (ch : Chans F E)
    : option (Chans F E) :=
  match err with
  | None =>
      ch' ← send exe (fileLoaded ch); Some (mkChans ch' (fileLoadError ch))
  | Some err =>
      ch' ← send err (fileLoadError ch); Some (mkChans (fileLoaded ch) ch')
  end.

(** loadFinished run without interruption. *)
Definition loadFinished (exe : F) (err : option E) (ch : Chans F E)
    : option (Chans F E) :=
  loadFinished_send exe err (loadFinished_drain err ch).

End loadFinished.

(** *** The goroutine and the event loop, interleaved

    Every call of loadFinished is numbered in the order the goroutine
    makes them, and the value it sends travels with that number. *)
Inductive Kind : Type := Loaded | Failed.

#[global] Instance Kind_eq_dec : EqDecision Kind.
Proof. solve_decision. Defined.

(** The kind of a result, by [err == nil]. *)
Definition kindOf {E : Type} (err : option E) : Kind :=
  match err with
  | None => Loaded
  | Some _ => Failed
  end.

Section interleaving.
Context {F E : Type}.

Record Sys := mkSys {
  chans : Chans (nat * F) (nat * E);
  (** the call of loadFinished that has drained and not yet sent *)
  inFlight : option ((nat * F) * option (nat * E));
  (** the results handed to loadFinished so far, oldest first *)
  calls : list (F * option E);
  (** what the event loop has received, oldest first *)
  received : list (nat * Kind);
  (** the fields the event loop assigns *)
  ui_File : option F;
  ui_LoadError : option E
}.

Definition start : Sys :=
  {| chans := mkChans None None;
     inFlight := None;
     calls := [];
     received := [];
     ui_File := None;
     ui_LoadError := None |}.

Inductive Action : Type :=
| CallLoadFinished (exe : F) (err : option E)   (* goroutine: enter, drain *)
| SendResult                                    (* goroutine: send, leave *)
| ReceiveError                                  (* loop: case err := <-fileLoadError *)
| ReceiveLoaded.                                (* loop: case file := <-fileLoaded *)

Definition step (a : Action) (st : Sys) : option Sys :=
  match a with
  | CallLoadFinished exe err =>
      match inFlight st with
      | Some _ => None
      | None =>
          let n := length (calls st) in
          let exe' := (n, exe) in
          let err' := (fun e => (n, e)) <$> err in
          Some {| chans := loadFinished_drain err' (chans st);
                  inFlight := Some (exe', err');
                  calls := calls st ++ [(exe, err)];
                  received := received st;
                  ui_File := ui_File st;
                  ui_LoadError := ui_LoadError st |}
      end
  | SendResult =>
      match inFlight st with
      | None => None
      | Some (exe', err') =>
          ch ← loadFinished_send exe' err' (chans st);
          Some {| chans := ch;
                  inFlight := None;
                  calls := calls st;
                  received := received st;
                  ui_File := ui_File st;
                  ui_LoadError := ui_LoadError st |}
      end
  | ReceiveError =>
      '(n, err, ch) ← receive (fileLoadError (chans st));
      Some {| chans := mkChans (fileLoaded (chans st)) ch;
              inFlight := inFlight st;
              calls := calls st;
              received := received st ++ [(n, Failed)];
              ui_File := ui_File st;
              ui_LoadError := Some err |}
  | ReceiveLoaded =>
      '(n, file, ch) ← receive (fileLoaded (chans st));
      Some {| chans := mkChans ch (fileLoadError (chans st));
              inFlight := inFlight st;
              calls := calls st;
              received := received st ++ [(n, Loaded)];
              ui_File := Some file;
              ui_LoadError := ui_LoadError st |}
  end.

Fixpoint exec (acts : list Action) (st : Sys) : option Sys :=
  match acts with
  | [] => Some st
  | a :: rest => st' ← step a st; exec rest st'
  end.

(** The number of the latest call of a kind among the calls made. *)
Fixpoint latestFrom (k : Kind) (n : nat) (cs : list (F * option E))
    (found : option nat) : option nat :=
  match cs with
  | [] => found
  | (_, err) :: rest =>
      latestFrom k (S n) rest
        (if bool_decide (kindOf err = k) then Some n else found)
  end.

Definition latest (k : Kind) (st : Sys) : option nat :=
  latestFrom k 0%nat (calls st) None.

(** The number of the result waiting in the channel of a kind, and of
    the call of that kind that is between its drain and its send. *)
Definition chanNumber (k : Kind) (st : Sys) : option nat :=
  match k with
  | Loaded => fst <$> fileLoaded (chans st)
  | Failed => fst <$> fileLoadError (chans st)
  end.

Definition inFlightNumber (k : Kind) (st : Sys) : option nat :=
  match inFlight st with
  | Some ((n, _), err') => if bool_decide (kindOf err' = k) then Some n else None
  | None => None
  end.

End interleaving.
Arguments Sys : clear implicits.
Arguments Action : clear implicits.

Definition otherKind (k : Kind) : Kind :=
  match k with
  | Loaded => Failed
  | Failed => Loaded
  end.

(** *** The goroutine *)

(** The ticker of the goroutine: 100 * time.Millisecond. *)
Definition tickInterval : Z := 100.

Inductive Wake : Type := Tick | Exited.

Inductive StatResult (E : Type) : Type :=
| StatOk (modTime : Z)
| StatErr (err : E).
Arguments StatOk {E} _.
Arguments StatErr {E} _.

(** What the surroundings answer during one pass of the loop:
    [os.Stat] (the modification time or an error), the loader (the
    file and the error it returns), and which case of the closing
    select becomes ready. *)
Record Pass (F E : Type) := mkPass {
  stat : StatResult E;
  load : F * option E;
  wake : Wake
}.
Arguments mkPass {F E} _ _ _.
Arguments stat {F E} _.
Arguments load {F E} _.
Arguments wake {F E} _.

(** What the goroutine does, in order. *)
Inductive Did (F E : Type) : Type :=
| DidStat
| DidLoad (loader : Loader)
| DidLoadFinished (exe : F) (err : option E)
| DidWait (interval : Z).
Arguments DidStat {F E}.
Arguments DidLoad {F E} _.
Arguments DidLoadFinished {F E} _ _.
Arguments DidWait {F E} _.

Inductive Status : Type :=
| Polling (lastModTime : Z)     (* inside the loop, at the select *)
| Returned.

(** The zero time.Time, the initial [lastModTime]. *)
Definition zeroTime : Z := 0.

Section goroutine.
Context {F E : Type}.
Variable nil : F.
Variable wasm : bool.               (* workInProgressWASM *)

(** The loader the goroutine picks. *)
Definition localLoader : Loader := if wasm then Wasmobj else Goobj.

(** The function literal run in every pass. *)
Definition pass (lastModTime : Z) (p : Pass F E) : Z * list (Did F E) :=
  match stat p with
  | StatErr err => (lastModTime, [DidStat; DidLoadFinished nil (Some err)])
  | StatOk modTime =>
      if bool_decide (modTime = lastModTime) then (lastModTime, [DidStat])
      else
        (modTime,
         [DidStat; DidLoad localLoader;
          DidLoadFinished (load p).1 (load p).2])
  end.

(** The for loop, one entry of what it did per pass; it is left
    inside the loop when the surroundings have no further answer. *)
Fixpoint loop (watch : bool) (lastModTime : Z) (passes : list (Pass F E))
    : list (list (Did F E)) * Status :=
  match passes with
  | [] => ([], Polling lastModTime)
  | p :: rest =>
      let '(lastModTime', did) := pass lastModTime p in
      if negb watch then ([did], Returned)
      else
        match wake p with
        | Exited => ([did ++ [DidWait tickInterval]], Returned)
        | Tick =>
            let '(dids, status) := loop watch lastModTime' rest in
            ((did ++ [DidWait tickInterval]) :: dids, status)
        end
  end.

(** The goroutine started by Run; [network] is what LoadNetworkFile
    returns in client mode. *)
Definition goroutine (cfg : FileUIConfig) (network : F * option E)
    (passes : list (Pass F E)) : list (list (Did F E)) * Status :=
  if bool_decide (ServerURL cfg ≠ "") then
    ([[DidLoadFinished network.1 network.2]], Returned)
  else loop (Watch cfg) zeroTime passes.

(** [lastModTime] after a pass, and when pass [k] begins. *)
Definition nextModTime (lastModTime : Z) (p : Pass F E) : Z :=
  (pass lastModTime p).1.

Definition lastModTimeAt (k : nat) (passes : list (Pass F E)) : Z :=
  foldl nextModTime zeroTime (take k passes).

(** The calls of loadFinished among what was done, applied in order
    to the channels by a goroutine that is not interrupted. *)
Fixpoint deliver (did : list (Did F E)) (ch : Chans F E) : option (Chans F E) :=
  match did with
  | [] => Some ch
  | DidLoadFinished exe err :: rest =>
      ch' ← loadFinished exe err ch; deliver rest ch'
  | _ :: rest => deliver rest ch
  end.

End goroutine.

End FileUI.

(** ** Notions the properties are stated with *)

(** A request that loads path [p]: a POST to [/api/files] naming it. *)
Definition loads (p : string) (req : Request) : Prop :=
  req = ReqFiles POST (Ok p).

(** The names a filter parameter selects: every name when it is empty,
    else the names its pattern matches; an error when the pattern does
    not compile. *)
Definition nameFilter `{GoLib} (filter : string) : Result (string → bool) :=
  if bool_decide (filter ≠ "") then
    match regexp_Compile filter with
    | Ok rx => Ok (MatchString rx)
    | Err err => Err err
    end
  else Ok (fun _ => true).

(** The body of a list-functions answer carrying these names. *)
Definition functionsBody (names : list string) : json :=
  JObj [("functions",
         JArr ((fun n => Encode.functionInfo {| FunctionInfo_Name := n |}) <$> names))].

(** The body of a list-functions answer under a filter: the functions
    are null when the filter selected none. *)
Definition filteredBody (names : list string) : json :=
  match names with
  | [] => JObj [("functions", JNull)]
  | _ :: _ => functionsBody names
  end.

(** The names a list-functions body gives to the client that decodes it. *)
Definition namesOf (j : json) : Result (list string) :=
  match decodeFunctions j with
  | Ok functions => Ok (FunctionInfo_Name <$> functions)
  | Err err => Err err
  end.

(** Text: a string that the JSON encoder writes as it is, which is to
    say valid UTF-8.  A string of ASCII characters is text. *)
Definition validText (s : string) : Prop := Encode.text s = s.

Definition asciiText (s : string) : Prop :=
  Forall (fun c => (N_of_ascii c < 128)%N) (list_ascii_of_string s).

(** The strings of a decoded function. *)
Definition stringsOfInst (inst : disasm.Inst) : list string :=
  [disasm.Inst_Text inst; disasm.Inst_File inst; disasm.Inst_Call inst].

Definition validSource (src : disasm.Source) : Prop :=
  validText (disasm.Source_File src)
  ∧ Forall (fun block => Forall validText (disasm.SourceBlock_Lines block))
      (disasm.Source_Blocks src).

Definition validCode (code : disasm.Code) : Prop :=
  validText (disasm.Code_Name code)
  ∧ validText (disasm.Code_File code)
  ∧ Forall (fun inst => Forall validText (stringsOfInst inst)) (disasm.Code_Insts code)
  ∧ Forall validSource (disasm.Code_Source code).

(** The state, the events and the answer of an outcome. *)
Definition stateOf (o : Outcome) : Server := o.1.1.
Definition eventsOf (o : Outcome) : list Event := o.1.2.
Definition answerOf (o : Outcome) : Response := o.2.

(** The names of the fields of a JSON object, the member under a name,
    and the shape of a value: an array whose elements all have a shape. *)
Definition keys (j : json) : list string :=
  match j with
  | JObj fields => fields.*1
  | _ => []
  end.

Definition member (name : string) (j : json) : json :=
  match j with
  | JObj fields => Decode.field name fields
  | _ => JNull
  end.

Definition arrayOf (shape : json → Prop) (j : json) : Prop :=
  ∃ elems, j = JArr elems ∧ Forall shape elems.

Definition isString (j : json) : Prop := ∃ s, j = JStr s.
Definition isNumber (j : json) : Prop := ∃ n, j = JNum n.

(** The serialized form of a decoded function, as the specification
    fixes it: [name, file, instructions[{pc, text, file, line, refPc,
    refOffset, refStack, call}], sources[{file, blocks[{from, to,
    lines[], related[][{from,to}]}]}], maxJump]. *)
Definition lineRangeShape (j : json) : Prop :=
  keys j = ["from"; "to"]
  ∧ isNumber (member "from" j) ∧ isNumber (member "to" j).

Definition instructionShape (j : json) : Prop :=
  keys j = ["pc"; "text"; "file"; "line"; "refPc"; "refOffset"; "refStack"; "call"]
  ∧ isNumber (member "pc" j) ∧ isString (member "text" j)
  ∧ isString (member "file" j) ∧ isNumber (member "line" j)
  ∧ isNumber (member "refPc" j) ∧ isNumber (member "refOffset" j)
  ∧ isNumber (member "refStack" j) ∧ isString (member "call" j).

Definition blockShape (j : json) : Prop :=
  keys j = ["from"; "to"; "lines"; "related"]
  ∧ isNumber (member "from" j) ∧ isNumber (member "to" j)
  ∧ arrayOf isString (member "lines" j)
  ∧ arrayOf (arrayOf lineRangeShape) (member "related" j).

Definition sourceShape (j : json) : Prop :=
  keys j = ["file"; "blocks"]
  ∧ isString (member "file" j)
  ∧ arrayOf blockShape (member "blocks" j).

Definition codeShape (j : json) : Prop :=
  keys j = ["name"; "file"; "instructions"; "sources"; "maxJump"]
  ∧ isString (member "name" j) ∧ isString (member "file" j)
  ∧ arrayOf instructionShape (member "instructions" j)
  ∧ arrayOf sourceShape (member "sources" j)
  ∧ isNumber (member "maxJump" j).

(** The header of a file: its first four bytes, where a container
    format keeps its magic number. *)
Definition header (contents : list Z) : list Z := take 4 contents.

(** "The container type is detected from the header": which loader a
    path is given to is a function of the header of the file there. *)
Definition detectedFromHeader : Prop :=
  ∃ detect : list Z → Loader,
    ∀ (env : Env) (contents : string → list Z) (path : string),
      loaderFor env path = detect (header (contents path)).

(** The options a function-code request asks for: the server's own, or
    those of its context parameter when that is a number. *)
Definition optionsFor `{GoLib} (s : Server) (contextStr : string)
    : Result disasm.Options :=
  if bool_decide (contextStr ≠ "") then
    match strconv_Atoi contextStr with
    | Ok context => Ok {| disasm.Options_Context := context |}
    | Err err => Err err
    end
  else Ok (options s).

(** The remote variant forwards a load without altering the data: a
    decoded function that the server's function loads is what the remote
    function loads, whenever the exchange of the client brings back the
    answer of the server. *)
Definition forwardsUnaltered `{GoLib} : Prop :=
  ∀ (c : Client) (s : Server) (path name : string) (opt opts : disasm.Options)
    (file : disasm.File) (fn : disasm.Func) (code : disasm.Code),
    let contextParam := if bool_decide (disasm.Options_Context opt > 0)
                        then fmt_d (disasm.Options_Context opt) else "" in
    httpClient c (Routed (ReqFunctionOperations name path contextParam))
    = Ok (answerOf (handleFunctionOperations s name path contextParam)) →
    name ≠ "" →
    path ≠ "" →
    activeFiles s !! path = Some file →
    findFunc (disasm.File_Funcs file) name = Some fn →
    optionsFor s contextParam = Ok opts →
    disasm.Func_Load fn opts = Some code →
    NetworkFunc_Load c path name opt = Some code.

(** The ways a request fails, a failing Close during a removal left
    aside. *)
Inductive fails `{GoLib} (env : Env) (s : Server) : Request → Prop :=
| fails_method method body :
    method ≠ GET → method ≠ POST → fails env s (ReqFiles method body)
| fails_body err :
    fails env s (ReqFiles POST (Err err))
| fails_no_path :
    fails env s (ReqFiles POST (Ok ""))
| fails_load path err :
    activeFiles s !! path = None →
    runLoader env (loaderFor env path) path = Err err →
    fails env s (ReqFiles POST (Ok path))
| fails_remove_no_path :
    fails env s (ReqFileOperations "")
| fails_remove_unknown path :
    activeFiles s !! path = None → fails env s (ReqFileOperations path)
| fails_functions_no_path filter :
    fails env s (ReqFunctions "" filter)
| fails_functions_unknown path filter :
    activeFiles s !! path = None → fails env s (ReqFunctions path filter)
| fails_filter path filter err :
    nameFilter filter = Err err → fails env s (ReqFunctions path filter)
| fails_code_no_name path context :
    fails env s (ReqFunctionOperations "" path context)
| fails_code_no_path name context :
    fails env s (ReqFunctionOperations name "" context)
| fails_code_unknown_file name path context :
    activeFiles s !! path = None →
    fails env s (ReqFunctionOperations name path context)
| fails_code_unknown_function name path context file :
    activeFiles s !! path = Some file →
    findFunc (disasm.File_Funcs file) name = None →
    fails env s (ReqFunctionOperations name path context)
| fails_context name path context err :
    optionsFor s context = Err err →
    fails env s (ReqFunctionOperations name path context)
| fails_nil_code name path context file targetFunc opts :
    activeFiles s !! path = Some file →
    findFunc (disasm.File_Funcs file) name = Some targetFunc →
    optionsFor s context = Ok opts →
    disasm.Func_Load targetFunc opts = None →
    fails env s (ReqFunctionOperations name path context).

(** "A failed release during Remove is not reported as plain success". *)
Definition closeFailureReported : Prop :=
  ∀ (s : Server) (path err : string) (file : disasm.File),
    path ≠ "" →
    activeFiles s !! path = Some file →
    disasm.File_Close file = Some err →
    answerOf (handleFileOperations s path) ≠ WriteHeader StatusOK.

(** The numbers of the results of one kind the event loop received. *)
Definition numbersOf (k : FileUI.Kind) (rs : list (nat * FileUI.Kind)) : list nat :=
  (filter (fun r => r.2 = k) rs).*1.

(** "The consumer never observes an older result after a newer one has
    been produced": whatever the event loop receives is the result of
    the latest call of loadFinished made so far. *)
Definition latestWins (F E : Type) : Prop :=
  ∀ (acts : list (FileUI.Action F E)) (st st' : FileUI.Sys F E) (a : FileUI.Action F E),
    FileUI.exec acts FileUI.start = Some st →
    a = FileUI.ReceiveError ∨ a = FileUI.ReceiveLoaded →
    FileUI.step a st = Some st' →
    ∃ n k, FileUI.received st' = FileUI.received st ++ [(n, k)]
           ∧ S n = length (FileUI.calls st).

(** What holds of every state the goroutine and the event loop reach:
    a waiting result is the latest of its kind and no call of that kind
    is in flight; a call in flight is the latest of its kind; every
    number received is at most the latest of its kind, and below it
    while a result of that kind waits or is in flight; per kind the
    numbers received increase; and the values travel with their calls. *)
Record consistent {F E : Type} (st : FileUI.Sys F E) : Prop := mkConsistent {
  waiting_latest : ∀ k n,
    FileUI.chanNumber k st = Some n →
    FileUI.latest k st = Some n ∧ FileUI.inFlightNumber k st = None;
  flying_latest : ∀ k n,
    FileUI.inFlightNumber k st = Some n → FileUI.latest k st = Some n;
  received_before : ∀ k n,
    n ∈ numbersOf k (FileUI.received st) →
    ∃ m, FileUI.latest k st = Some m ∧ (n ≤ m)%nat
         ∧ (is_Some (FileUI.chanNumber k st) ∨ is_Some (FileUI.inFlightNumber k st)
            → (n < m)%nat);
  received_sorted : ∀ k, StronglySorted lt (numbersOf k (FileUI.received st));
  loaded_value : ∀ n v,
    FileUI.fileLoaded (FileUI.chans st) = Some (n, v) →
    FileUI.calls st !! n = Some (v, None);
  failed_value : ∀ n e,
    FileUI.fileLoadError (FileUI.chans st) = Some (n, e) →
    ∃ exe, FileUI.calls st !! n = Some (exe, Some e);
  flying_value : ∀ n exe err',
    FileUI.inFlight st = Some ((n, exe), err') →
    FileUI.calls st !! n = Some (exe, snd <$> err')
    ∧ ∀ m e, err' = Some (m, e) → m = n
}.

(** ** Sample data, to run the definitions on *)
Module Sample.

(** A stand-in for the library routines: a pattern is a plain substring,
    and the lone opening parenthesis is the one that does not compile;
    numbers are the single digits. *)
Fixpoint contains (needle s : string) : bool :=
  String.prefix needle s ||
  match s with
  | String _ s' => contains needle s'
  | EmptyString => false
  end.

Definition compile (expr : string) : Result string :=
  if bool_decide (expr = "(") then Err "missing closing )" else Ok expr.

Definition digits : list (string * Z) :=
  [("0", 0); ("1", 1); ("2", 2); ("3", 3); ("4", 4);
   ("5", 5); ("6", 6); ("7", 7); ("8", 8); ("9", 9)].

Definition atoi (s : string) : Result Z :=
  match list_find (fun d => d.1 = s) digits with
  | Some (_, (_, n)) => Ok n
  | None => Err "invalid syntax"
  end.

Definition itoa (n : Z) : string :=
  match list_find (fun d => d.2 = n) digits with
  | Some (_, (s, _)) => s
  | None => "?"
  end.

#[local] Instance lib : GoLib :=
  {| Regexp := string;
     regexp_Compile := compile;
     MatchString := contains;
     strconv_Atoi := atoi;
     fmt_d := itoa;
     json_Text := fun _ => "{}";
     regexp_Compile_empty := ltac:(intros err; vm_compute; discriminate) |}.

(** A decoded function of three instructions with one forward jump. *)
Definition addCode : disasm.Code :=
  {| disasm.Code_Name := "main.add";
     disasm.Code_File := "/src/add.go";
     disasm.Code_Insts :=
       [disasm.mkInst 4096 "CMPQ AX, BX" "/src/add.go" 3 0 0 0 "";
        disasm.mkInst 4099 "JLE 4104" "/src/add.go" 3 4104 1 0 "";
        disasm.mkInst 4104 "CALL runtime.morestack" "/src/add.go" 4 0 0 0
          "runtime.morestack"];
     disasm.Code_Source :=
       [disasm.mkSource "/src/add.go"
          [disasm.mkSourceBlock (disasm.mkLineRange 1 5)
             ["package main"; ""; "func add(a, b int) int {"; "return a + b"; "}"]
             [[]; []; [disasm.mkLineRange 0 2]; [disasm.mkLineRange 2 3]; []]]];
     disasm.Code_MaxJump := 1 |}.

Definition addFunc : disasm.Func :=
  {| disasm.Func_Name := "main.add";
     disasm.Func_Load := fun _ => Some addCode |}.

(** A function whose code cannot be loaded. *)
Definition mainFunc : disasm.Func :=
  {| disasm.Func_Name := "main.main";
     disasm.Func_Load := fun _ => None |}.

Definition app : disasm.File :=
  {| disasm.File_Close := None;
     disasm.File_Funcs := [mainFunc; addFunc] |}.

(** The same executable on a file whose Close fails. *)
Definition stuck : disasm.File :=
  {| disasm.File_Close := Some "close /bin/stuck: input/output error";
     disasm.File_Funcs := [mainFunc; addFunc] |}.

(** A function with a source file in Latin-1: the first line of the
    source holds the byte 0xE9, which is not valid UTF-8. *)
Definition cafeCode : disasm.Code :=
  {| disasm.Code_Name := "main.cafe";
     disasm.Code_File := "/src/cafe.go";
     disasm.Code_Insts := [disasm.mkInst 8192 "RET" "/src/cafe.go" 2 0 0 0 ""];
     disasm.Code_Source :=
       [disasm.mkSource "/src/cafe.go"
          [disasm.mkSourceBlock (disasm.mkLineRange 1 2)
             ["// caf" +:+ String (ascii_of_N 233) EmptyString; "func cafe() {}"]
             [[]; []]]];
     disasm.Code_MaxJump := 0 |}.

Definition cafeFunc : disasm.Func :=
  {| disasm.Func_Name := "main.cafe";
     disasm.Func_Load := fun _ => Some cafeCode |}.

Definition legacy : disasm.File :=
  {| disasm.File_Close := None;
     disasm.File_Funcs := [cafeFunc] |}.

(** The same again, opened by a path relative to the working directory
    of the server. *)
Definition stuckHere : disasm.File :=
  {| disasm.File_Close := Some "close bin/stuck: input/output error";
     disasm.File_Funcs := [mainFunc; addFunc] |}.

Definition load (path : string) : Result disasm.File :=
  if bool_decide (path = "/bin/app") then Ok app
  else if bool_decide (path = "/bin/stuck") then Ok stuck
  else if bool_decide (path = "/bin/legacy") then Ok legacy
  else if bool_decide (path = "bin/stuck") then Ok stuckHere
  else Err ("open " +:+ path +:+ ": no such file or directory").

Definition env (wasm : bool) : Env :=
  {| workInProgressWASM := wasm;
     goobj_Load := load;
     wasmobj_Load := fun path => Err ("wasm: " +:+ path) |}.

(** A server on which [/bin/app] and [/bin/stuck] were loaded. *)
Definition server : Server :=
  (serveAll (NewServer 3)
     [(env false, ReqFiles POST (Ok "/bin/app"));
      (env false, ReqFiles POST (Ok "/bin/stuck"))]).1.

(** A server on which [bin/stuck] was loaded. *)
Definition workdirServer : Server :=
  (serveAll (NewServer 3) [(env false, ReqFiles POST (Ok "bin/stuck"))]).1.

(** A server on which [/bin/legacy] was loaded. *)
Definition legacyServer : Server :=
  (serveAll (NewServer 3) [(env false, ReqFiles POST (Ok "/bin/legacy"))]).1.

(** A run of the goroutine and the event loop, files and errors told
    by their names: a load, an error and a second load are handed to
    loadFinished while the event loop is busy, which then receives the
    error. *)
Definition traffic : list (FileUI.Action string string) :=
  [FileUI.CallLoadFinished "app#1" None; FileUI.SendResult;
   FileUI.CallLoadFinished "" (Some "stat /bin/app: no such file"); FileUI.SendResult;
   FileUI.CallLoadFinished "app#2" None; FileUI.SendResult;
   FileUI.ReceiveError].

Definition afterTraffic : FileUI.Sys string string :=
  Eval vm_compute in default FileUI.start (FileUI.exec traffic FileUI.start).

(** A load and then an error are handed over; both wait. *)
Definition loadThenError : list (FileUI.Action string string) :=
  [FileUI.CallLoadFinished "app#1" None; FileUI.SendResult;
   FileUI.CallLoadFinished "" (Some "stat /bin/app: no such file"); FileUI.SendResult].

(** Watching [/bin/app]: it loads, disappears for one poll, comes back
    as a file the loader rejects, and is then left alone. *)
Definition watching : FileUI.FileUIConfig :=
  {| FileUI.Path := "/bin/app";
     FileUI.Watch := true;
     FileUI.Context := 3;
     FileUI.ServerURL := "" |}.

Definition polls : list (FileUI.Pass string string) :=
  [FileUI.mkPass (FileUI.StatOk 10) ("app#1", None) FileUI.Tick;
   FileUI.mkPass (FileUI.StatErr "stat /bin/app: no such file") ("", None) FileUI.Tick;
   FileUI.mkPass (FileUI.StatOk 20) ("", Some "goobj: unrecognized object file")
     FileUI.Tick;
   FileUI.mkPass (FileUI.StatOk 20) ("", None) FileUI.Tick].

End Sample.


(** ** main.go: the address of the server in client mode *)

(** The server URL main computes: empty unless in client mode, else the
    address, with [http://] put in front when
    [strings.HasPrefix(addr, "http://")] does not hold. *)
Definition serverURL (clientMode : bool) (serverAddr : string) : string :=
  if clientMode then
    if negb (String.prefix "http://" serverAddr)
    then "http://" +:+ serverAddr
    else serverAddr
  else "".

(** The configuration main gives to the user interface. *)
Definition uiConfig (exePath : string) (watch : bool) (lineContext : Z)
    (clientMode : bool) (serverAddr : string) : FileUI.FileUIConfig :=
  {| FileUI.Path := exePath;
     FileUI.Watch := watch;
     FileUI.Context := lineContext;
     FileUI.ServerURL := serverURL clientMode serverAddr |}.

(** ** Further notions *)

(** Requests that only ask: the list of files, the functions of a file,
    the code of a function. *)
Definition isQuery (req : Request) : bool :=
  match req with
  | ReqFiles GET _ => true
  | ReqFunctions _ _ => true
  | ReqFunctionOperations _ _ _ => true
  | _ => false
  end.

(** Loader calls and Close calls for a path among the events, and
    whether the path is registered, as numbers. *)
Definition isLoadOf (p : string) (e : Event) : bool :=
  match e with
  | EvLoad _ q => bool_decide (q = p)
  | _ => false
  end.

Definition isCloseOf (p : string) (e : Event) : bool :=
  match e with
  | EvClose q _ => bool_decide (q = p)
  | _ => false
  end.

Definition countLoads (p : string) (events : list Event) : nat :=
  length (filter (fun e => isLoadOf p e) events).

Definition countCloses (p : string) (events : list Event) : nat :=
  length (filter (fun e => isCloseOf p e) events).

Definition registered (s : Server) (p : string) : nat :=
  match activeFiles s !! p with
  | Some _ => 1
  | None => 0
  end.

(** The names of the functions of a file, in the order of [Funcs()]. *)
Definition funcNames (file : disasm.File) : list string :=
  disasm.Func_Name <$> disasm.File_Funcs file.

(** The context parameter the client puts in a function-code request. *)
Definition contextParam `{GoLib} (context : Z) : string :=
  if bool_decide (context > 0) then fmt_d context else "".

(** The last file and the last error handed to loadFinished among what
    a goroutine did. *)
Fixpoint lastLoaded {F E : Type} (did : list (FileUI.Did F E)) (found : option F)
    : option F :=
  match did with
  | [] => found
  | FileUI.DidLoadFinished exe None :: rest => lastLoaded rest (Some exe)
  | _ :: rest => lastLoaded rest found
  end.

Fixpoint lastFailed {F E : Type} (did : list (FileUI.Did F E)) (found : option E)
    : option E :=
  match did with
  | [] => found
  | FileUI.DidLoadFinished _ (Some err) :: rest => lastFailed rest (Some err)
  | _ :: rest => lastFailed rest found
  end.

(** Whether a pass called a loader. *)
Definition reloads {F E : Type} (did : list (FileUI.Did F E)) : bool :=
  existsb (fun d => match d with FileUI.DidLoad _ => true | _ => false end) did.

(** What the event loop has set stays set from one state to a later one:
    the load error and the file. *)
Definition keptInStep {F E : Type} (st st' : FileUI.Sys F E) : Prop :=
  (is_Some (FileUI.ui_LoadError st) → is_Some (FileUI.ui_LoadError st'))
  ∧ (is_Some (FileUI.ui_File st) → is_Some (FileUI.ui_File st')).
(** * Properties *)

(** ** The indexed loops compute maps *)

Section range_loops.
Context {A B : Type}.

(** A loop whose body stores [f x] at index [i] fills a made slice:
    the part before [i] is done, the rest still holds zero values. *)
Lemma range_loop_fill (body : nat → A → list B → list B) (f : A → B)
    (zero : B) (l : list A) (done_ : list B) :
  (∀ i x dst, (i < length dst)%nat → body i x dst = <[i := f x]> dst) →
  range_loop body (length done_) l (done_ ++ make zero (length l))
  = done_ ++ (f <$> l).
Proof.
  intros Hbody. revert done_.
  induction l as [|x l IH]; intros done_; simpl; [done|].
  rewrite Hbody by (rewrite length_app; simpl; lia).
  replace (<[length done_ := f x]> (done_ ++ zero :: make zero (length l)))
    with ((done_ ++ [f x]) ++ make zero (length l)).
  - replace (S (length done_)) with (length (done_ ++ [f x]))
      by (rewrite length_app; simpl; lia).
    rewrite IH. by rewrite <- app_assoc.
  - rewrite <- app_assoc. simpl.
    rewrite insert_app_r_alt by lia.
    by rewrite Nat.sub_diag.
Qed.

Lemma range_loop_assign (f : A → B) (zero : B) (l : list A) :
  range_loop (fun i x dst => <[i := f x]> dst) 0%nat l
    (make zero (length l)) = f <$> l.
Proof. by apply (range_loop_fill _ f zero l []). Qed.

(** Filling row [k] of a slice of slices through [dst[k][i] = f x]. *)
Lemma range_loop_alter (f : A → B) (zero : B) (k : nat) (l : list A)
    (rows : list (list B)) (done_ : list B) :
  rows !! k = Some (done_ ++ make zero (length l)) →
  range_loop (fun i x dst => alter (fun row => <[i := f x]> row) k dst)
    (length done_) l rows = <[k := done_ ++ (f <$> l)]> rows.
Proof.
  revert rows done_. induction l as [|x l IH]; intros rows done_ Hk; simpl.
  - simpl in Hk. by rewrite list_insert_id.
  - simpl in Hk.
    assert (Hrow : <[length done_ := f x]> (done_ ++ zero :: make zero (length l))
                   = (done_ ++ [f x]) ++ make zero (length l)).
    { rewrite <- app_assoc. simpl. rewrite insert_app_r_alt by lia.
      by rewrite Nat.sub_diag. }
    replace (S (length done_)) with (length (done_ ++ [f x]))
      by (rewrite length_app; simpl; lia).
    rewrite IH.
    + rewrite <- app_assoc. simpl.
      apply list_eq. intros j. destruct (decide (j = k)) as [->|Hne].
      * rewrite !list_lookup_insert_eq; [done| |].
        -- by eapply lookup_lt_Some.
        -- rewrite length_alter. by eapply lookup_lt_Some.
      * rewrite !list_lookup_insert_ne by done.
        by rewrite list_lookup_alter_ne.
    + rewrite list_lookup_alter_eq, Hk. simpl. by rewrite Hrow.
Qed.

End range_loops.

(** The nested loop over rows: make row [k], then fill it. *)
Lemma range_loop_rows {A B : Type} (f : A → B) (zero : B) (rows : list (list A)) :
    range_loop
      (fun k row dst =>
         let dst := <[k := make zero (length row)]> dst in
         range_loop (fun i x dst => alter (fun r => <[i := f x]> r) k dst)
           0%nat row dst)
      0%nat rows (make [] (length rows))
    = (fun row : list A => f <$> row) <$> rows.
  Proof.
    apply (range_loop_fill _ (fun row : list A => f <$> row) [] rows []).
    intros k row dst Hk. simpl.
    rewrite (range_loop_alter f zero k row _ []).
    - by rewrite list_insert_insert_eq.
    - by rewrite list_lookup_insert_eq.
Qed.

(** ** The wire conversions are maps, and inverse to each other *)

Lemma toWire_sourceBlockInfo (block : disasm.SourceBlock) :
  ToWire.sourceBlockInfo block =
  {| SourceBlockInfo_From := disasm.LineRange_From (disasm.SourceBlock_LineRange block);
     SourceBlockInfo_To := disasm.LineRange_To (disasm.SourceBlock_LineRange block);
     SourceBlockInfo_Lines := disasm.SourceBlock_Lines block;
     SourceBlockInfo_Related :=
       (fun row : list disasm.LineRange => ToWire.lineRangeInfo <$> row)
         <$> disasm.SourceBlock_Related block |}.
Proof.
  unfold ToWire.sourceBlockInfo, ToWire.relatedLoop. simpl.
  by rewrite (range_loop_rows ToWire.lineRangeInfo zeroLineRangeInfo).
Qed.

Lemma toWire_sourceInfo (src : disasm.Source) :
  ToWire.sourceInfo src =
  {| SourceInfo_File := disasm.Source_File src;
     SourceInfo_Blocks := ToWire.sourceBlockInfo <$> disasm.Source_Blocks src |}.
Proof.
  unfold ToWire.sourceInfo. simpl. by rewrite range_loop_assign.
Qed.

Lemma toWire_codeResponse (code : disasm.Code) :
  ToWire.codeResponse code =
  {| CodeResponse_Name := disasm.Code_Name code;
     CodeResponse_File := disasm.Code_File code;
     CodeResponse_Instructions := ToWire.instructionInfo <$> disasm.Code_Insts code;
     CodeResponse_Sources := ToWire.sourceInfo <$> disasm.Code_Source code;
     CodeResponse_MaxJump := disasm.Code_MaxJump code |}.
Proof.
  unfold ToWire.codeResponse. simpl. by rewrite !range_loop_assign.
Qed.

Lemma fromWire_sourceBlock (block : SourceBlockInfo) :
  FromWire.sourceBlock block =
  {| disasm.SourceBlock_LineRange :=
       {| disasm.LineRange_From := SourceBlockInfo_From block;
          disasm.LineRange_To := SourceBlockInfo_To block |};
     disasm.SourceBlock_Lines := SourceBlockInfo_Lines block;
     disasm.SourceBlock_Related :=
       (fun row : list LineRangeInfo => FromWire.lineRange <$> row)
         <$> SourceBlockInfo_Related block |}.
Proof.
  unfold FromWire.sourceBlock, FromWire.relatedLoop. simpl.
  by rewrite (range_loop_rows FromWire.lineRange disasm.zeroLineRange).
Qed.

Lemma fromWire_source (src : SourceInfo) :
  FromWire.source src =
  {| disasm.Source_File := SourceInfo_File src;
     disasm.Source_Blocks := FromWire.sourceBlock <$> SourceInfo_Blocks src |}.
Proof.
  unfold FromWire.source. simpl. by rewrite range_loop_assign.
Qed.

Lemma fromWire_code (result : CodeResponse) :
  FromWire.code result =
  {| disasm.Code_Name := CodeResponse_Name result;
     disasm.Code_File := CodeResponse_File result;
     disasm.Code_Insts := FromWire.inst <$> CodeResponse_Instructions result;
     disasm.Code_Source := FromWire.source <$> CodeResponse_Sources result;
     disasm.Code_MaxJump := CodeResponse_MaxJump result |}.
Proof.
  unfold FromWire.code. simpl. by rewrite !range_loop_assign.
Qed.

Lemma fmap_inverse {A B : Type} (f : A → B) (g : B → A) (l : list A) :
  (∀ x, g (f x) = x) → g <$> (f <$> l) = l.
Proof.
  intros Hgf. rewrite <- list_fmap_compose.
  rewrite <- (list_fmap_id l) at 2. apply list_fmap_ext. intros _ x _. apply Hgf.
Qed.

Lemma inst_roundtrip (inst : disasm.Inst) :
  FromWire.inst (ToWire.instructionInfo inst) = inst.
Proof. by destruct inst. Qed.

Lemma lineRange_roundtrip (rng : disasm.LineRange) :
  FromWire.lineRange (ToWire.lineRangeInfo rng) = rng.
Proof. by destruct rng. Qed.

Lemma sourceBlock_roundtrip (block : disasm.SourceBlock) :
  FromWire.sourceBlock (ToWire.sourceBlockInfo block) = block.
Proof.
  rewrite toWire_sourceBlockInfo, fromWire_sourceBlock.
  destruct block as [[from to] lines related]. simpl. f_equal.
  apply fmap_inverse. intros row. apply fmap_inverse, lineRange_roundtrip.
Qed.

Lemma source_roundtrip (src : disasm.Source) :
  FromWire.source (ToWire.sourceInfo src) = src.
Proof.
  rewrite toWire_sourceInfo, fromWire_source. destruct src as [file blocks].
  simpl. f_equal. apply fmap_inverse, sourceBlock_roundtrip.
Qed.

Lemma code_roundtrip (code : disasm.Code) :
  FromWire.code (ToWire.codeResponse code) = code.
Proof.
  rewrite toWire_codeResponse, fromWire_code.
  destruct code as [name file insts sources maxJump]. simpl. f_equal.
  - apply fmap_inverse, inst_roundtrip.
  - apply fmap_inverse, source_roundtrip.
Qed.

(** ** Text: what the encoder leaves as it is *)

Lemma text_ascii (s : string) :
  asciiText s → Encode.text s = s.
Proof.
  induction s as [|c s IH]; [done|]. intros Hs. apply Forall_cons in Hs as [Hc Hs].
  simpl. unfold utf8.first. apply N.ltb_lt in Hc. rewrite Hc.
  by rewrite (IH Hs).
Qed.

Lemma fmap_fixed {A : Type} (f : A → A) (l : list A) :
  Forall (fun x => f x = x) l → f <$> l = l.
Proof.
  induction 1 as [|x l Hx _ IH]; csimpl; [done|]. by rewrite Hx, IH.
Qed.

Lemma received_inst (inst : disasm.Inst) :
  Forall validText (stringsOfInst inst) →
  Received.instructionInfo (ToWire.instructionInfo inst) = ToWire.instructionInfo inst.
Proof.
  destruct inst. unfold stringsOfInst; simpl. intros Hvalid.
  apply Forall_cons in Hvalid as [Htext Hvalid].
  apply Forall_cons in Hvalid as [Hfile Hvalid].
  apply Forall_cons in Hvalid as [Hcall _].
  unfold Received.instructionInfo, ToWire.instructionInfo; simpl.
  unfold validText in *. by rewrite Htext, Hfile, Hcall.
Qed.

Lemma received_valid (code : disasm.Code) :
  validCode code → Received.code code = code.
Proof.
  intros (Hname & Hfile & Hinsts & Hsources).
  unfold Received.code.
  rewrite <- (code_roundtrip code) at 2. f_equal.
  rewrite toWire_codeResponse. unfold Received.codeResponse; simpl.
  unfold validText in *. rewrite Hname, Hfile. f_equal.
  - rewrite <- list_fmap_compose. apply list_fmap_ext.
    intros i inst Hi. simpl. apply received_inst.
    by apply (Forall_lookup_1 _ _ _ _ Hinsts Hi).
  - rewrite <- list_fmap_compose. apply list_fmap_ext.
    intros i src Hi. simpl.
    destruct (Forall_lookup_1 _ _ _ _ Hsources Hi) as [Hsrc Hblocks].
    rewrite toWire_sourceInfo. unfold Received.sourceInfo; simpl.
    rewrite Hsrc. f_equal.
    rewrite <- list_fmap_compose. apply list_fmap_ext.
    intros j block Hj. simpl.
    rewrite toWire_sourceBlockInfo. unfold Received.sourceBlockInfo; simpl.
    f_equal. apply fmap_fixed.
    by apply (Forall_lookup_1 _ _ _ _ Hblocks Hj).
Qed.

(** ** Decoding what was encoded *)

Lemma each_encoded {A B : Type} (enc : A → json) (dec : json → Result B)
    (f : A → B) (l : list A) :
  (∀ x, dec (enc x) = Ok (f x)) → Decode.each dec (enc <$> l) = Ok (f <$> l).
Proof.
  intros Hde. induction l as [|x l IH]; csimpl; [done|].
  by rewrite Hde, IH.
Qed.

Lemma slice_encoded {A B : Type} (enc : A → json) (dec : json → Result B)
    (f : A → B) (l : list A) :
  (∀ x, dec (enc x) = Ok (f x)) → Decode.slice dec (JArr (enc <$> l)) = Ok (f <$> l).
Proof. intros Hde. simpl. by apply each_encoded. Qed.

Lemma decode_functionInfo (v : FunctionInfo) :
  Decode.functionInfo (Encode.functionInfo v) = Ok (Received.functionInfo v).
Proof. by destruct v. Qed.

Lemma decode_lineRangeInfo (v : LineRangeInfo) :
  Decode.lineRangeInfo (Encode.lineRangeInfo v) = Ok v.
Proof. by destruct v. Qed.

Lemma decode_instructionInfo (v : InstructionInfo) :
  Decode.instructionInfo (Encode.instructionInfo v) = Ok (Received.instructionInfo v).
Proof. by destruct v. Qed.

Lemma decode_strings (l : list string) :
  Decode.slice Decode.str (Encode.strings l) = Ok (Encode.text <$> l).
Proof. by apply slice_encoded. Qed.

Lemma decode_sourceBlockInfo (v : SourceBlockInfo) :
  Decode.sourceBlockInfo (Encode.sourceBlockInfo v) = Ok (Received.sourceBlockInfo v).
Proof.
  destruct v as [from to lines related].
  unfold Decode.sourceBlockInfo, Encode.sourceBlockInfo, Decode.struct.
  cbn [Decode.field bool_decide]. simpl.
  rewrite (each_encoded Encode.str Decode.str Encode.text) by done. simpl.
  rewrite (each_encoded (fun row => JArr (Encode.lineRangeInfo <$> row))
             (Decode.slice Decode.lineRangeInfo) id).
  - by rewrite list_fmap_id.
  - intros row. unfold id. rewrite <- (list_fmap_id row) at 2.
    apply slice_encoded, decode_lineRangeInfo.
Qed.

Lemma decode_sourceInfo (v : SourceInfo) :
  Decode.sourceInfo (Encode.sourceInfo v) = Ok (Received.sourceInfo v).
Proof.
  destruct v as [file blocks].
  unfold Decode.sourceInfo, Encode.sourceInfo, Decode.struct. simpl.
  by rewrite (each_encoded _ _ _ _ decode_sourceBlockInfo).
Qed.

Lemma decode_codeResponse (v : CodeResponse) :
  Decode.codeResponse (Encode.codeResponse v) = Ok (Received.codeResponse v).
Proof.
  destruct v as [name file instructions sources maxJump].
  unfold Decode.codeResponse, Encode.codeResponse, Decode.struct. simpl.
  rewrite (each_encoded _ _ _ _ decode_instructionInfo). simpl.
  by rewrite (each_encoded _ _ _ _ decode_sourceInfo).
Qed.

(** ** The registry behind the handlers *)

Section registry.
Context `{GoLib}.

(** No handler registers the empty path. *)
Lemma serve_empty_path (env : Env) (s : Server) (req : Request) :
  activeFiles s !! "" = None →
  activeFiles (stateOf (serve env s req)) !! "" = None.
Proof.
  intros Hs. destruct req as [method body|path|file filter|name file context]; simpl.
  - destruct method; simpl; try done.
    destruct body as [path|err]; simpl; [|done].
    case_bool_decide as Hpath; simpl; [done|].
    destruct (activeFiles s !! path); simpl; [done|].
    destruct (runLoader env (loaderFor env path) path); simpl; [|done].
    by rewrite lookup_insert_ne.
  - unfold handleFileOperations. case_bool_decide; simpl; [done|].
    destruct (activeFiles s !! path); simpl; [|done].
    by rewrite lookup_delete_ne.
  - unfold handleFunctions. case_bool_decide; simpl; [done|].
    destruct (activeFiles s !! file); simpl; [|done].
    case_bool_decide; simpl; [|done].
    by destruct (regexp_Compile filter).
  - unfold handleFunctionOperations.
    repeat (case_bool_decide; simpl; [done|]).
    destruct (activeFiles s !! file) as [f|]; simpl; [|done].
    destruct (findFunc (disasm.File_Funcs f) name) as [fn|]; simpl; [|done].
    case_bool_decide; simpl.
    + destruct (strconv_Atoi context); simpl; [|done].
      by destruct (disasm.Func_Load fn _).
    + by destruct (disasm.Func_Load fn _).
Qed.

Lemma serveAll_cons (s : Server) (env : Env) (req : Request)
    (rest : list (Env * Request)) :
  (serveAll s ((env, req) :: rest)).1
  = (serveAll (stateOf (serve env s req)) rest).1.
Proof.
  simpl. unfold stateOf. destruct (serve env s req) as [[s' events] resp]. simpl.
  by destruct (serveAll s' rest).
Qed.

Lemma serveAll_empty_path (s : Server) (history : list (Env * Request)) :
  activeFiles s !! "" = None →
  activeFiles (serveAll s history).1 !! "" = None.
Proof.
  revert s. induction history as [|[env req] rest IH]; intros s Hs; [done|].
  rewrite serveAll_cons. by apply IH, serve_empty_path.
Qed.

(** Every registered path of a served history is non-empty. *)
Lemma registered_nonempty (context : Z) (history : list (Env * Request)) (p : string) :
  is_Some (activeFiles (serveAll (NewServer context) history).1 !! p) → p ≠ "".
Proof.
  intros [file Hp] ->.
  by rewrite serveAll_empty_path in Hp.
Qed.

(** A request that does not load [p] leaves [p] unregistered. *)
Lemma serve_unregistered (env : Env) (s : Server) (req : Request) (p : string) :
  ¬ loads p req →
  activeFiles s !! p = None →
  activeFiles (stateOf (serve env s req)) !! p = None.
Proof.
  intros Hreq Hs. destruct req as [method body|path|file filter|name file context]; simpl.
  - destruct method; simpl; try done.
    destruct body as [path|err]; simpl; [|done].
    case_bool_decide as Hpath; simpl; [done|].
    destruct (activeFiles s !! path); simpl; [done|].
    destruct (runLoader env (loaderFor env path) path); simpl; [|done].
    rewrite lookup_insert_ne; [done|].
    intros ->. by apply Hreq.
  - unfold handleFileOperations. case_bool_decide; simpl; [done|].
    destruct (activeFiles s !! path); simpl; [|done].
    destruct (decide (path = p)) as [->|Hne].
    + by rewrite lookup_delete_eq.
    + by rewrite lookup_delete_ne.
  - unfold handleFunctions. case_bool_decide; simpl; [done|].
    destruct (activeFiles s !! file); simpl; [|done].
    case_bool_decide; simpl; [|done].
    by destruct (regexp_Compile filter).
  - unfold handleFunctionOperations.
    repeat (case_bool_decide; simpl; [done|]).
    destruct (activeFiles s !! file) as [f|]; simpl; [|done].
    destruct (findFunc (disasm.File_Funcs f) name) as [fn|]; simpl; [|done].
    case_bool_decide; simpl.
    + destruct (strconv_Atoi context); simpl; [|done].
      by destruct (disasm.Func_Load fn _).
    + by destruct (disasm.Func_Load fn _).
Qed.

Lemma serveAll_unregistered (s : Server) (later : list (Env * Request)) (p : string) :
  Forall (fun er => ¬ loads p er.2) later →
  activeFiles s !! p = None →
  activeFiles (serveAll s later).1 !! p = None.
Proof.
  revert s. induction later as [|[env req] rest IH]; intros s Hlater Hs; [done|].
  rewrite serveAll_cons. inversion_clear Hlater as [|? ? Hreq Hrest].
  apply IH; [done|]. by apply serve_unregistered.
Qed.

Lemma filter_absent (l : list string) (p : string) :
  p ∉ l → filter (fun q => q = p) l = [].
Proof.
  induction l as [|x l IH]; intros Hp; [done|].
  apply not_elem_of_cons in Hp as [Hne Hp].
  rewrite filter_cons, decide_False by done. by apply IH.
Qed.

Lemma count_once (l : list string) (p : string) :
  NoDup l → p ∈ l → length (filter (fun q => q = p) l) = 1%nat.
Proof.
  induction 1 as [|x l Hx Hnd IH]; intros Hp; [by apply elem_of_nil in Hp|].
  rewrite filter_cons. apply elem_of_cons in Hp as [->|Hp].
  - rewrite decide_True by done. simpl. by rewrite filter_absent.
  - rewrite decide_False by (intros ->; done). by apply IH.
Qed.

End registry.

(** C1. Add is idempotent: on a server reached by any history of
    requests, a load request for a path that is already registered is
    answered with success (200) without a call of either loader, leaves
    the registry as it was, and the list of loaded paths names that path
    exactly once. *)
Theorem C1_add_is_idempotent `{GoLib} (context : Z)
    (history : list (Env * Request)) (env : Env) (p : string) :
  let s := (serveAll (NewServer context) history).1 in
  is_Some (activeFiles s !! p) →
  serve env s (ReqFiles POST (Ok p)) = (s, [], WriteHeader StatusOK)
  ∧ answerOf (serve env s (ReqFiles GET (Err "EOF")))
    = Encode (JObj [("files", Encode.strings (elements (dom (activeFiles s))))])
  ∧ length (filter (fun q => q = p) (elements (dom (activeFiles s)))) = 1%nat.
Proof.
  intros s Hp. split; [|split].
  - simpl.
    rewrite bool_decide_eq_false_2 by (by eapply registered_nonempty).
    by destruct Hp as [file ->].
  - done.
  - apply count_once; [apply NoDup_elements|].
    by apply elem_of_elements, elem_of_dom.
Qed.


(** C2. Remove closes and forgets: removing a registered path calls
    Close on the file that was registered, answers with success, and
    from then on, for as long as no request loads that path again, every
    list-functions and every function-code query for it is answered
    with "File not found" (404). *)
Theorem C2_remove_closes_and_forgets `{GoLib} (context : Z)
    (history later : list (Env * Request)) (env : Env)
    (p : string) (file : disasm.File) :
  let s := (serveAll (NewServer context) history).1 in
  activeFiles s !! p = Some file →
  Forall (fun er => ¬ loads p er.2) later →
  ∃ s' logged,
    serve env s (ReqFileOperations p)
    = (s', EvClose p file :: logged, WriteHeader StatusOK)
    ∧ activeFiles s' !! p = None
    ∧ let s'' := (serveAll s' later).1 in
      (∀ filter,
         handleFunctions s'' p filter
         = (s'', [], http_Error "File not found" StatusNotFound))
      ∧ (∀ name contextStr, name ≠ "" →
         handleFunctionOperations s'' name p contextStr
         = (s'', [], http_Error "File not found" StatusNotFound)).
Proof.
  intros s Hp Hlater.
  assert (Hne : p ≠ "")
    by (apply (registered_nonempty context history); by exists file).
  eexists _, _. split; [|split].
  - unfold serve, handleFileOperations.
    rewrite bool_decide_eq_false_2 by done. rewrite Hp. reflexivity.
  - simpl. apply lookup_delete_eq.
  - set (s' := {| activeFiles := delete p (activeFiles s); options := options s |}).
    assert (Hgone : activeFiles (serveAll s' later).1 !! p = None).
    { apply serveAll_unregistered; [done|]. apply lookup_delete_eq. }
    simpl. split.
    + intros filter. unfold handleFunctions.
      rewrite bool_decide_eq_false_2 by done. by rewrite Hgone.
    + intros name contextStr Hname. unfold handleFunctionOperations.
      rewrite !bool_decide_eq_false_2 by done. by rewrite Hgone.
Qed.

(** ** Listing the functions of a file *)

(** The filtering loop keeps the functions the pattern matches, in
    order; the slice is left as it was when there is none. *)
Lemma filtering_loop `{GoLib} (rx : Regexp) (funcs : list disasm.Func)
    (acc : option (list FunctionInfo)) :
  foldl (appendMatching rx) acc funcs
  = match filter (fun n => MatchString rx n) (disasm.Func_Name <$> funcs) with
    | [] => acc
    | names => Some (default [] acc ++ (mkFunctionInfo <$> names))
    end.
Proof.
  revert acc. induction funcs as [|fn funcs IH]; intros acc; [done|].
  cbn [foldl]. rewrite IH. unfold appendMatching, append. csimpl.
  rewrite filter_cons.
  destruct (MatchString rx (disasm.Func_Name fn)) eqn:Hm; simpl; [|done].
  destruct (filter _ (disasm.Func_Name <$> funcs)) as [|n names]; [done|].
  simpl. by rewrite <- app_assoc.
Qed.

Lemma filter_everything (l : list string) :
  filter (fun n => (fun _ : string => true) n) l = l.
Proof.
  induction l as [|x l IH]; [done|].
  rewrite filter_cons_True by done. by f_equal.
Qed.

(** What the handler answers for a registered file, by the filter. *)
Lemma handleFunctions_registered `{GoLib} (s : Server) (p expr : string)
    (file : disasm.File) :
  p ≠ "" →
  activeFiles s !! p = Some file →
  handleFunctions s p expr =
  match nameFilter expr with
  | Ok selects =>
      let names :=
        filter (fun n => selects n) (disasm.Func_Name <$> disasm.File_Funcs file) in
      (s, [], Encode (if bool_decide (expr ≠ "") then filteredBody names
                      else functionsBody names))
  | Err err =>
      (s, [], http_Error ("Invalid filter regex: " +:+ err) StatusBadRequest)
  end.
Proof.
  intros Hne Hp. unfold handleFunctions, nameFilter.
  rewrite bool_decide_eq_false_2 by done. rewrite Hp.
  case_bool_decide as Hfilter.
  - destruct (regexp_Compile expr) as [rx|err]; [|done].
    rewrite filtering_loop. simpl.
    destruct (filter _ _) as [|n names]; [done|].
    unfold filteredBody, functionsBody, Encode.slice. csimpl.
    by rewrite <- list_fmap_compose.
  - rewrite range_loop_assign. simpl. unfold functionsBody.
    rewrite filter_everything.
    by rewrite <- !list_fmap_compose.
Qed.

(** What the client decodes from the body of a list-functions answer. *)
Lemma decode_functions (names : list string) :
  decodeFunctions (functionsBody names) = Ok (mkFunctionInfo <$> (Encode.text <$> names)).
Proof.
  unfold decodeFunctions, functionsBody, Decode.struct.
  cbn [Decode.field bool_decide]. simpl.
  rewrite (each_encoded _ Decode.functionInfo
             (fun n => mkFunctionInfo (Encode.text n))).
  - by rewrite <- list_fmap_compose.
  - intros n. apply decode_functionInfo.
Qed.

Lemma decode_filtered (names : list string) :
  decodeFunctions (filteredBody names) = Ok (mkFunctionInfo <$> (Encode.text <$> names)).
Proof.
  destruct names as [|n names]; [done|]. apply decode_functions.
Qed.

Lemma names_of_functions (names : list string) :
  namesOf (functionsBody names) = Ok (Encode.text <$> names).
Proof.
  unfold namesOf. rewrite decode_functions. f_equal.
  rewrite <- list_fmap_compose. apply list_fmap_id.
Qed.

Lemma names_of_filtered (names : list string) :
  namesOf (filteredBody names) = Ok (Encode.text <$> names).
Proof.
  unfold namesOf. rewrite decode_filtered. f_equal.
  rewrite <- list_fmap_compose. apply list_fmap_id.
Qed.

(** C3. An invalid filter is a caller error without effect: for a
    registered file and a pattern that does not compile, list-functions
    answers 400 with the compile error, calls nothing and leaves the
    server as it was, so that any query asked afterwards is answered as
    it would have been before. *)
Theorem C3_invalid_filter_changes_nothing `{GoLib} (context : Z)
    (history : list (Env * Request)) (p expr err : string) :
  let s := (serveAll (NewServer context) history).1 in
  is_Some (activeFiles s !! p) →
  regexp_Compile expr = Err err →
  handleFunctions s p expr
  = (s, [], http_Error ("Invalid filter regex: " +:+ err) StatusBadRequest)
  ∧ ∀ env req,
      serve env (stateOf (handleFunctions s p expr)) req = serve env s req.
Proof.
  intros s [file Hp] Hrx.
  assert (Hne : p ≠ "")
    by (apply (registered_nonempty context history); by exists file).
  assert (Hfilter : nameFilter expr = Err err).
  { unfold nameFilter. case_bool_decide as Hempty.
    - by rewrite Hrx.
    - subst expr.
      by apply regexp_Compile_empty in Hrx. }
  rewrite (handleFunctions_registered s p expr file Hne Hp), Hfilter.
  done.
Qed.

(** C10. For a registered file and a filter that is empty or compiles,
    list-functions answers 200 with a body whose functions are the names
    of exactly the functions the filter selects, in the order of the
    file's function list, of which they are a subsequence; the empty
    filter selects every name.  Under a filter that selects no name the
    body gives null for the functions, since the slice was never
    appended to, and otherwise the array of the names; the client that
    decodes the body obtains the selected names either way, each as the
    text the encoder wrote for it, which is the name itself when the
    name is valid UTF-8. *)
Theorem C10_functions_are_filtered_in_order `{GoLib} (context : Z)
    (history : list (Env * Request)) (p expr : string) (file : disasm.File)
    (selects : string → bool) :
  let s := (serveAll (NewServer context) history).1 in
  let all := disasm.Func_Name <$> disasm.File_Funcs file in
  let names := filter (fun n => selects n) all in
  let body := if bool_decide (expr ≠ "") then filteredBody names
              else functionsBody names in
  activeFiles s !! p = Some file →
  nameFilter expr = Ok selects →
  handleFunctions s p expr = (s, [], Encode body)
  ∧ namesOf body = Ok (Encode.text <$> names)
  ∧ (Forall validText all → namesOf body = Ok names)
  ∧ sublist names all
  ∧ (∀ n, n ∈ names ↔ n ∈ all ∧ selects n = true)
  ∧ (expr = "" → names = all).
Proof.
  intros s all names body Hp Hfilter.
  assert (Hne : p ≠ "")
    by (apply (registered_nonempty context history); by exists file).
  assert (Hnames : namesOf body = Ok (Encode.text <$> names)).
  { unfold body. case_bool_decide.
    - apply names_of_filtered.
    - apply names_of_functions. }
  split; [|split; [|split; [|split; [|split]]]].
  - by rewrite (handleFunctions_registered s p expr file Hne Hp), Hfilter.
  - done.
  - intros Hvalid. rewrite Hnames. f_equal. apply fmap_fixed.
    apply (Forall_impl (fun n => n ∈ all)).
    + apply Forall_forall. intros n Hn. unfold names in Hn.
      apply list_elem_of_filter in Hn. tauto.
    + intros n Hn. by apply (proj1 (Forall_forall _ _) Hvalid).
  - apply sublist_filter.
  - intros n. unfold names. rewrite list_elem_of_filter.
    split; intros [? ?]; split; try done.
    + by apply Is_true_true.
    + by apply Is_true_true.
  - intros ->. unfold nameFilter in Hfilter.
    rewrite bool_decide_eq_false_2 in Hfilter by (intros Hc; by apply Hc).
    injection Hfilter as <-. unfold names. by rewrite filter_everything.
Qed.

(** ** The serialized form *)

Lemma lineRangeInfo_shape (v : LineRangeInfo) :
  lineRangeShape (Encode.lineRangeInfo v).
Proof. repeat split; eexists; reflexivity. Qed.

Lemma instructionInfo_shape (v : InstructionInfo) :
  instructionShape (Encode.instructionInfo v).
Proof. repeat split; eexists; reflexivity. Qed.

Lemma arrayOf_encoded {A : Type} (enc : A → json) (shape : json → Prop) (l : list A) :
  (∀ x, shape (enc x)) → arrayOf shape (JArr (enc <$> l)).
Proof.
  intros Hshape. exists (enc <$> l). split; [done|].
  apply Forall_fmap, Forall_forall. intros x _. apply Hshape.
Qed.

Lemma sourceBlockInfo_shape (v : SourceBlockInfo) :
  blockShape (Encode.sourceBlockInfo v).
Proof.
  split; [done|]. split; [by eexists|]. split; [by eexists|]. split.
  - apply (arrayOf_encoded Encode.str). intros s. by eexists.
  - apply (arrayOf_encoded (fun row => JArr (Encode.lineRangeInfo <$> row))).
    intros row. apply arrayOf_encoded, lineRangeInfo_shape.
Qed.

Lemma sourceInfo_shape (v : SourceInfo) : sourceShape (Encode.sourceInfo v).
Proof.
  split; [done|]. split; [by eexists|].
  apply arrayOf_encoded, sourceBlockInfo_shape.
Qed.

Lemma codeResponse_shape (v : CodeResponse) : codeShape (Encode.codeResponse v).
Proof.
  split; [done|]. split; [by eexists|]. split; [by eexists|].
  split; [apply arrayOf_encoded, instructionInfo_shape|].
  split; [apply arrayOf_encoded, sourceInfo_shape|]. by eexists.
Qed.

(** C7. Every successful answer to a function-code request carries a
    JSON object with exactly the fields name, file, instructions,
    sources and maxJump, every instruction an object with exactly pc,
    text, file, line, refPc, refOffset, refStack and call, every source
    an object with exactly file and blocks, every block one with exactly
    from, to, lines and related, and every related range one with
    exactly from and to. *)
Theorem C7_wire_field_names `{GoLib} (s : Server)
    (functionName path contextStr : string) :
  StatusCode (answerOf (handleFunctionOperations s functionName path contextStr))
  = StatusOK →
  ∃ j, ResponseBody (answerOf (handleFunctionOperations s functionName path contextStr))
       = JSON j
       ∧ codeShape j.
Proof.
  unfold handleFunctionOperations.
  repeat (case_bool_decide; [by intros [=]|]).
  destruct (activeFiles s !! path) as [file|]; [|by intros [=]].
  destruct (findFunc (disasm.File_Funcs file) functionName) as [fn|]; [|by intros [=]].
  case_bool_decide.
  - destruct (strconv_Atoi contextStr) as [context|err]; [|by intros [=]].
    destruct (disasm.Func_Load fn _) as [code|]; [|by intros [=]].
    intros _. eexists. split; [done|]. apply codeResponse_shape.
  - destruct (disasm.Func_Load fn _) as [code|]; [|by intros [=]].
    intros _. eexists. split; [done|]. apply codeResponse_shape.
Qed.

(** ** Which loader a path is given to *)

Lemma matchHere_pattern (s : string) :
  Wasm.matchHere Wasm.pattern s = true ↔ s = ".wasm".
Proof.
  split; [|by intros ->].
  unfold Wasm.pattern.
  do 5 (destruct s as [|? s]; simpl; [done|];
        case_bool_decide; [subst|done]).
  by destruct s.
Qed.

Lemma matchString_pattern (s : string) :
  Wasm.matchString Wasm.pattern s = true ↔ ∃ stem, s = stem +:+ ".wasm".
Proof.
  induction s as [|c s IH].
  - split; [done|]. intros [[|? ?] Hstem]; discriminate Hstem.
  - change (Wasm.matchString Wasm.pattern (String c s))
      with (Wasm.matchHere Wasm.pattern (String c s)
            || Wasm.matchString Wasm.pattern s).
    rewrite orb_true_iff, matchHere_pattern, IH. split.
    + intros [->|[stem ->]]; [by exists ""|by exists (String c stem)].
    + intros [[|c' stem] Hstem]; simpl in Hstem.
      * by left.
      * injection Hstem as -> ->. right. by exists stem.
Qed.

Lemma isWasmFile_suffix (path : string) :
  isWasmFile path = true ↔ ∃ stem, path = stem +:+ ".wasm".
Proof. apply matchString_pattern. Qed.

(** C8, as the code has it. The server gives a path to the WebAssembly
    loader exactly when the experiment flag is set and the path ends in
    [.wasm], and to the native loader otherwise, whatever the file
    holds; and what either loader returns is handled alike: a file is
    registered under the path and answered with 201, an error is
    answered with 500.  The goroutine of the user interface chooses by
    the flag alone. *)
Theorem C8_loader_by_flag_and_suffix (env : Env) (path : string) :
  (loaderFor env path = Wasmobj
   ↔ workInProgressWASM env = true ∧ ∃ stem, path = stem +:+ ".wasm")
  ∧ (loaderFor env path = Goobj
     ↔ ¬ (workInProgressWASM env = true ∧ ∃ stem, path = stem +:+ ".wasm"))
  ∧ (∀ (s : Server),
      path ≠ "" →
      activeFiles s !! path = None →
      handleFiles env s POST (Ok path)
      = match runLoader env (loaderFor env path) path with
        | Ok file =>
            ({| activeFiles := <[path := file]> (activeFiles s);
                options := options s |},
             [EvLoad (loaderFor env path) path], WriteHeader StatusCreated)
        | Err err =>
            (s, [EvLoad (loaderFor env path) path],
             http_Error ("Failed to load file: " +:+ err) StatusInternalServerError)
        end)
  ∧ (FileUI.localLoader (workInProgressWASM env) = Wasmobj
     ↔ workInProgressWASM env = true).
Proof.
  assert (Hwasm : loaderFor env path = Wasmobj
                  ↔ workInProgressWASM env = true ∧ ∃ stem, path = stem +:+ ".wasm").
  { unfold loaderFor. rewrite <- isWasmFile_suffix, <- andb_true_iff.
    by destruct (workInProgressWASM env && isWasmFile path). }
  split; [done|]. split; [|split].
  - rewrite <- Hwasm. by destruct (loaderFor env path).
  - intros s Hne Hp. unfold handleFiles. simpl.
    rewrite bool_decide_eq_false_2 by done. rewrite Hp.
    by destruct (runLoader env (loaderFor env path) path).
  - unfold FileUI.localLoader. by destruct (workInProgressWASM env).
Qed.

(** C8, as the specification has it, fails: no function of the header
    decides the loader, for one and the same module is given to the
    WebAssembly loader under one name and to the native loader under
    another. *)
Lemma C8_not_detected_from_header : ¬ detectedFromHeader.
Proof.
  intros [detect Hdetect].
  pose proof (Hdetect (Sample.env true) (fun _ => [0; 97; 115; 109; 1; 0; 0; 0])
                "/tmp/module.wasm") as Hwasm.
  pose proof (Hdetect (Sample.env true) (fun _ => [0; 97; 115; 109; 1; 0; 0; 0])
                "/tmp/module") as Hnative.
  vm_compute in Hwasm, Hnative. congruence.
Qed.

(** ** Failures and how they are answered *)

Section failures.
Context `{GoLib}.

Ltac status := simpl; unfold StatusOK, StatusCreated, StatusBadRequest,
  StatusNotFound, StatusMethodNotAllowed, StatusInternalServerError; lia.

Lemma optionsFor_unfold (s : Server) (contextStr : string) (fn : disasm.Func) :
  (if bool_decide (contextStr ≠ "") then
     match strconv_Atoi contextStr with
     | Err _ => (s, @nil Event, http_Error "Invalid context value" StatusBadRequest)
     | Ok context =>
         match disasm.Func_Load fn {| disasm.Options_Context := context |} with
         | None =>
             (s, [], http_Error "Failed to load function code"
                       StatusInternalServerError)
         | Some code =>
             (s, [], Encode (Encode.codeResponse (ToWire.codeResponse code)))
         end
     end
   else
     match disasm.Func_Load fn (options s) with
     | None =>
         (s, [], http_Error "Failed to load function code"
                   StatusInternalServerError)
     | Some code =>
         (s, [], Encode (Encode.codeResponse (ToWire.codeResponse code)))
     end)
  = match optionsFor s contextStr with
    | Err _ => (s, [], http_Error "Invalid context value" StatusBadRequest)
    | Ok opts =>
        match disasm.Func_Load fn opts with
        | None =>
            (s, [], http_Error "Failed to load function code"
                      StatusInternalServerError)
        | Some code =>
            (s, [], Encode (Encode.codeResponse (ToWire.codeResponse code)))
        end
    end.
Proof.
  unfold optionsFor. case_bool_decide; [|done].
  by destruct (strconv_Atoi contextStr).
Qed.

Lemma failure_answered (env : Env) (s : Server) (req : Request) :
  fails env s req → 400 ≤ StatusCode (answerOf (serve env s req)).
Proof.
  unfold answerOf.
  destruct 1 as [method body Hget Hpost|err|
    |path err Hp Hload| |path Hp|filter|path filter Hp
    |path filter err Hfilter|path context|name context|name path context Hp
    |name path context file Hp Hfn|name path context err Hopts
    |name path context file fn opts Hp Hfn Hopts Hload].
  - destruct method; try done; status.
  - status.
  - status.
  - simpl. case_bool_decide; [status|].
    rewrite Hp, Hload. status.
  - status.
  - simpl. unfold handleFileOperations. case_bool_decide; [status|].
    rewrite Hp. status.
  - status.
  - simpl. unfold handleFunctions. case_bool_decide; [status|].
    rewrite Hp. status.
  - simpl. unfold handleFunctions. case_bool_decide; [status|].
    destruct (activeFiles s !! path); [|status].
    unfold nameFilter in Hfilter. case_bool_decide; [|done].
    destruct (regexp_Compile filter); [done|status].
  - status.
  - simpl. unfold handleFunctionOperations. case_bool_decide; status.
  - simpl. unfold handleFunctionOperations.
    repeat (case_bool_decide; [status|]). rewrite Hp. status.
  - simpl. unfold handleFunctionOperations.
    repeat (case_bool_decide; [status|]). rewrite Hp, Hfn. status.
  - simpl. unfold handleFunctionOperations.
    repeat (case_bool_decide; [status|]).
    destruct (activeFiles s !! path) as [file|]; [|status].
    destruct (findFunc (disasm.File_Funcs file) name) as [fn|]; [|status].
    rewrite optionsFor_unfold, Hopts. status.
  - simpl. unfold handleFunctionOperations.
    repeat (case_bool_decide; [status|]). rewrite Hp, Hfn.
    rewrite optionsFor_unfold, Hopts, Hload. status.
Qed.

Lemma answered_failure (env : Env) (s : Server) (req : Request) :
  fails env s req
  ∨ StatusCode (answerOf (serve env s req)) = StatusOK
  ∨ StatusCode (answerOf (serve env s req)) = StatusCreated.
Proof.
  unfold answerOf.
  destruct req as [method body|path|path filter|name path context]; simpl.
  - destruct method; simpl.
    + right. by left.
    + destruct body as [path|err]; [|left; by apply fails_body].
      case_bool_decide as Hpath; [subst; left; by apply fails_no_path|].
      destruct (activeFiles s !! path) eqn:Hp; [right; by left|].
      destruct (runLoader env (loaderFor env path) path) eqn:Hload.
      * right. by right.
      * left. by eapply fails_load.
    + left. by apply fails_method.
    + left. by apply fails_method.
  - unfold handleFileOperations.
    case_bool_decide; [subst; left; apply fails_remove_no_path|].
    destruct (activeFiles s !! path) eqn:Hp; [right; by left|].
    left. by apply fails_remove_unknown.
  - unfold handleFunctions.
    case_bool_decide; [subst; left; apply fails_functions_no_path|].
    destruct (activeFiles s !! path) eqn:Hp;
      [|left; by apply fails_functions_unknown].
    case_bool_decide as Hfilter; [|right; by left].
    destruct (regexp_Compile filter) as [rx|err] eqn:Hrx; [right; by left|].
    left. apply (fails_filter env s path filter err).
    unfold nameFilter. rewrite bool_decide_eq_true_2 by done. by rewrite Hrx.
  - unfold handleFunctionOperations.
    case_bool_decide; [subst; left; apply fails_code_no_name|].
    case_bool_decide; [subst; left; apply fails_code_no_path|].
    destruct (activeFiles s !! path) as [file|] eqn:Hp;
      [|left; by apply fails_code_unknown_file].
    destruct (findFunc (disasm.File_Funcs file) name) as [fn|] eqn:Hfn;
      [|left; by eapply fails_code_unknown_function].
    rewrite optionsFor_unfold.
    destruct (optionsFor s context) as [opts|err] eqn:Hopts;
      [|left; by eapply fails_context].
    destruct (disasm.Func_Load fn opts) eqn:Hload; [right; by left|].
    left. by eapply fails_nil_code.
Qed.

End failures.

(** The removal of a registered path: Close is called once, its error
    goes to the log, and the answer is the same 200 either way. *)
Lemma remove_registered (s : Server) (path : string) (file : disasm.File) :
  path ≠ "" →
  activeFiles s !! path = Some file →
  handleFileOperations s path
  = ({| activeFiles := delete path (activeFiles s); options := options s |},
     EvClose path file ::
       match disasm.File_Close file with
       | Some err => [EvLog ("Error closing file " +:+ path +:+ ": " +:+ err)]
       | None => []
       end,
     WriteHeader StatusOK).
Proof.
  intros Hne Hp. unfold handleFileOperations.
  rewrite bool_decide_eq_false_2 by done. by rewrite Hp.
Qed.

(** A remote load returns nil exactly when the request for the code
    fails, that is when the exchange fails, or is answered with another
    status than 200, or with a body that is no wire response. *)
Lemma remote_load_nil `{GoLib} (c : Client) (path name : string)
    (opt : disasm.Options) :
  NetworkFunc_Load c path name opt = None
  ↔ ∃ err, Client_GetFunctionCode c path name (disasm.Options_Context opt) = Err err.
Proof.
  unfold NetworkFunc_Load.
  destruct (Client_GetFunctionCode c path name (disasm.Options_Context opt)).
  - split; [done|]. by intros [err Herr].
  - split; [|done]. intros _. by eexists.
Qed.

(** What the request for the code of a function returns to a client
    whose exchange brings back the answer of the server. *)
Lemma getFunctionCode_of_answer `{GoLib} (c : Client) (s : Server)
    (path name : string) (context : Z) (opts : disasm.Options)
    (file : disasm.File) (fn : disasm.Func) :
  let contextParam := if bool_decide (context > 0) then fmt_d context else "" in
  httpClient c (Routed (ReqFunctionOperations name path contextParam))
  = Ok (answerOf (handleFunctionOperations s name path contextParam)) →
  name ≠ "" →
  path ≠ "" →
  activeFiles s !! path = Some file →
  findFunc (disasm.File_Funcs file) name = Some fn →
  optionsFor s contextParam = Ok opts →
  handleFunctionOperations s name path contextParam
  = (s, [],
     match disasm.Func_Load fn opts with
     | Some code => Encode (Encode.codeResponse (ToWire.codeResponse code))
     | None => http_Error "Failed to load function code" StatusInternalServerError
     end)
  ∧ Client_GetFunctionCode c path name context
    = match disasm.Func_Load fn opts with
      | Some code => Ok (Received.code code)
      | None => Err ("server error: " +:+ "Failed to load function code" +:+ newline)
      end.
Proof.
  intros contextParam Hanswer Hname Hpath Hp Hfn Hopts.
  assert (Hhandled :
    handleFunctionOperations s name path contextParam
    = (s, [],
       match disasm.Func_Load fn opts with
       | Some code => Encode (Encode.codeResponse (ToWire.codeResponse code))
       | None => http_Error "Failed to load function code" StatusInternalServerError
       end)).
  { unfold handleFunctionOperations.
    rewrite (bool_decide_eq_false_2 (name = "")) by done.
    rewrite (bool_decide_eq_false_2 (path = "")) by done.
    rewrite Hp, Hfn, optionsFor_unfold, Hopts.
    by destruct (disasm.Func_Load fn opts). }
  split; [done|].
  unfold Client_GetFunctionCode. fold contextParam.
  rewrite Hanswer, Hhandled. unfold answerOf.
  destruct (disasm.Func_Load fn opts) as [code|].
  - unfold Encode. cbn [snd StatusCode ResponseBody].
    rewrite bool_decide_eq_false_2 by (intros Hc; by apply Hc).
    cbn [decodeBody]. by rewrite decode_codeResponse.
  - done.
Qed.

(** A remote function loads what the server's function of that name
    loads, under the options the request carries: the code as the
    client receives it, or nil for nil. *)
Lemma remote_load_forwards `{GoLib} (c : Client) (s : Server)
    (path name : string) (opt opts : disasm.Options)
    (file : disasm.File) (fn : disasm.Func) :
  let contextParam := if bool_decide (disasm.Options_Context opt > 0)
                      then fmt_d (disasm.Options_Context opt) else "" in
  httpClient c (Routed (ReqFunctionOperations name path contextParam))
  = Ok (answerOf (handleFunctionOperations s name path contextParam)) →
  name ≠ "" →
  path ≠ "" →
  activeFiles s !! path = Some file →
  findFunc (disasm.File_Funcs file) name = Some fn →
  optionsFor s contextParam = Ok opts →
  NetworkFunc_Load c path name opt = Received.code <$> disasm.Func_Load fn opts.
Proof.
  intros contextParam Hanswer Hname Hpath Hp Hfn Hopts.
  unfold NetworkFunc_Load.
  destruct (getFunctionCode_of_answer c s path name (disasm.Options_Context opt)
              opts file fn Hanswer Hname Hpath Hp Hfn Hopts) as [_ ->].
  by destruct (disasm.Func_Load fn opts).
Qed.

(** C6, for text. Let the server hold a file with a function whose load
    gives a decoded function, and let the exchange of the remote client
    bring back the answer of handleFunctionOperations.  The struct
    conversions alone are inverse to each other on every value (name,
    file, maxJump, every field of every instruction, every block of
    every source with its lines and related ranges); the handler answers
    with the encoded wire response; GetFunctionCode and the remote load
    return the decoded function with every string as the text the JSON
    encoder wrote for it; and when every string of the decoded function
    is valid UTF-8 the remote load returns that decoded function itself,
    equal field for field. *)
Theorem C6_remote_load_preserves_text `{GoLib} (c : Client) (s : Server)
    (path name : string) (opt opts : disasm.Options)
    (file : disasm.File) (fn : disasm.Func) (code : disasm.Code) :
  let contextParam := if bool_decide (disasm.Options_Context opt > 0)
                      then fmt_d (disasm.Options_Context opt) else "" in
  httpClient c (Routed (ReqFunctionOperations name path contextParam))
  = Ok (answerOf (handleFunctionOperations s name path contextParam)) →
  name ≠ "" →
  path ≠ "" →
  activeFiles s !! path = Some file →
  findFunc (disasm.File_Funcs file) name = Some fn →
  optionsFor s contextParam = Ok opts →
  disasm.Func_Load fn opts = Some code →
  FromWire.code (ToWire.codeResponse code) = code
  ∧ handleFunctionOperations s name path contextParam
    = (s, [], Encode (Encode.codeResponse (ToWire.codeResponse code)))
  ∧ Client_GetFunctionCode c path name (disasm.Options_Context opt)
    = Ok (Received.code code)
  ∧ NetworkFunc_Load c path name opt = Some (Received.code code)
  ∧ (validCode code → NetworkFunc_Load c path name opt = Some code).
Proof.
  intros contextParam Hanswer Hname Hpath Hp Hfn Hopts Hload.
  destruct (getFunctionCode_of_answer c s path name (disasm.Options_Context opt)
              opts file fn Hanswer Hname Hpath Hp Hfn Hopts) as [Hhandled Hcode].
  rewrite Hload in Hhandled, Hcode.
  assert (Hremote : NetworkFunc_Load c path name opt = Some (Received.code code)).
  { unfold NetworkFunc_Load. by rewrite Hcode. }
  split; [apply code_roundtrip|]. split; [done|]. split; [done|]. split; [done|].
  intros Hvalid. by rewrite Hremote, (received_valid code Hvalid).
Qed.

(** The failures of requests and their answers in the code.  Every
    failure of a request, a failing Close during a removal left aside,
    is answered with a status of 400 or more, and every other request
    with 200 or 201; a removal is answered with 200 whatever its Close
    returned, an error of Close going to the server log; and a remote
    load returns nil exactly when its request failed, a code
    otherwise. *)
Theorem failures_and_their_answers `{GoLib} (env : Env) (s : Server) :
  (∀ req, fails env s req ↔ 400 ≤ StatusCode (answerOf (serve env s req)))
  ∧ (∀ req, ¬ fails env s req →
       StatusCode (answerOf (serve env s req)) = StatusOK
       ∨ StatusCode (answerOf (serve env s req)) = StatusCreated)
  ∧ (∀ path file,
       path ≠ "" →
       activeFiles s !! path = Some file →
       answerOf (serve env s (ReqFileOperations path)) = WriteHeader StatusOK
       ∧ eventsOf (serve env s (ReqFileOperations path))
         = EvClose path file ::
             match disasm.File_Close file with
             | Some err => [EvLog ("Error closing file " +:+ path +:+ ": " +:+ err)]
             | None => []
             end)
  ∧ (∀ c path name opt,
       (NetworkFunc_Load c path name opt = None
        ↔ ∃ err, Client_GetFunctionCode c path name (disasm.Options_Context opt)
                 = Err err)
       ∧ (∀ code, Client_GetFunctionCode c path name (disasm.Options_Context opt)
                  = Ok code →
                  NetworkFunc_Load c path name opt = Some code)).
Proof.
  split; [|split; [|split]].
  - intros req. split; [apply failure_answered|].
    intros Hstatus. destruct (answered_failure env s req) as [?|[Hok|Hok]];
      [done| |]; rewrite Hok in Hstatus;
      unfold StatusOK, StatusCreated in Hstatus; lia.
  - intros req Hreq. by destruct (answered_failure env s req) as [?|?].
  - intros path file Hne Hp. unfold answerOf, eventsOf. simpl.
    by rewrite (remove_registered s path file Hne Hp).
  - intros c path name opt. split; [apply remote_load_nil|].
    intros code Hcode. unfold NetworkFunc_Load. by rewrite Hcode.
Qed.

(** ** The two channels between the goroutine and the event loop *)

Section channels.
Context {F E : Type}.
Import FileUI.

Lemma latestFrom_snoc (k : Kind) (n : nat) (cs : list (F * option E))
    (c : F * option E) (found : option nat) :
  latestFrom k n (cs ++ [c]) found
  = if bool_decide (kindOf c.2 = k) then Some (n + length cs)%nat
    else latestFrom k n cs found.
Proof.
  revert n found. induction cs as [|[exe err] cs IH]; intros n found; simpl.
  - destruct c as [exe err]. simpl. by rewrite Nat.add_0_r.
  - rewrite IH. case_bool_decide; [|done]. f_equal. lia.
Qed.

Lemma latestFrom_bound (k : Kind) (n : nat) (cs : list (F * option E))
    (found : option nat) (m : nat) :
  latestFrom k n cs found = Some m →
  found = Some m ∨ (n ≤ m < n + length cs)%nat.
Proof.
  revert n found. induction cs as [|[exe err] cs IH]; intros n found; simpl.
  - by left.
  - intros Hm. apply IH in Hm as [Hm|Hm]; [|right; lia].
    case_bool_decide; [|by left]. injection Hm as <-. right. lia.
Qed.

Lemma latest_below (k : Kind) (st : Sys F E) (m : nat) :
  latest k st = Some m → (m < length (calls st))%nat.
Proof.
  intros Hm. apply latestFrom_bound in Hm as [Hm|Hm]; [done|lia].
Qed.

Lemma numbersOf_snoc (k k' : Kind) (rs : list (nat * Kind)) (n : nat) :
  numbersOf k (rs ++ [(n, k')])
  = if bool_decide (k' = k) then numbersOf k rs ++ [n] else numbersOf k rs.
Proof.
  unfold numbersOf. rewrite filter_app, fmap_app.
  rewrite filter_cons, filter_nil. simpl.
  case_bool_decide.
  - by rewrite decide_True.
  - rewrite decide_False by done. by rewrite app_nil_r.
Qed.

Lemma start_consistent : consistent (@start F E).
Proof.
  split; try done.
  - by intros [] n.
  - intros k n Hn. by apply elem_of_nil in Hn.
  - intros k. constructor.
Qed.

Lemma call_consistent (exe : F) (err : option E) (st st1 : Sys F E) :
  consistent st →
  step (CallLoadFinished exe err) st = Some st1 →
  consistent st1.
Proof.
  intros Hst Hstep. simpl in Hstep.
  destruct (inFlight st) as [flying|] eqn:Hflying; [done|].
  injection Hstep as <-.
  assert (Hidle : ∀ k, inFlightNumber k st = None)
    by (intros k; unfold inFlightNumber; by rewrite Hflying).
  destruct Hst as [Hwait Hfly Hrecv Hsorted Hloaded Hfailed Hvalue].
  split.
  - intros k n. unfold chanNumber, inFlightNumber, latest. simpl.
    rewrite latestFrom_snoc. simpl.
    destruct err as [e|], k; simpl; try done; intros Hn.
    + destruct (Hwait Loaded n Hn) as [? _]. done.
    + destruct (Hwait Failed n Hn) as [? _]. done.
  - intros k n. unfold inFlightNumber, latest. simpl.
    rewrite latestFrom_snoc. simpl.
    destruct err as [e|], k; simpl; try done; by intros [= <-].
  - intros k n Hn. simpl in Hn.
    destruct (Hrecv k n Hn) as (m & Hm & Hle & Hlt).
    pose proof (latest_below k st m Hm) as Hbelow.
    unfold chanNumber, inFlightNumber, latest. simpl.
    rewrite latestFrom_snoc. simpl.
    destruct err as [e|], k; simpl.
    + exists m. split; [done|]. split; [done|].
      intros [Hc|[? [=]]]. apply Hlt. by left.
    + eexists. split; [done|]. split; lia.
    + eexists. split; [done|]. split; lia.
    + exists m. split; [done|]. split; [done|].
      intros [Hc|[? [=]]]. apply Hlt. by left.
  - done.
  - intros n v. simpl. destruct err as [e|]; simpl; [|done].
    intros Hn. by apply lookup_app_l_Some, Hloaded.
  - intros n e. simpl. destruct err as [e'|]; simpl; [done|].
    intros Hn. destruct (Hfailed n e Hn) as [exe' Hexe'].
    exists exe'. by apply lookup_app_l_Some.
  - intros n exe0 err' [= <- <- <-]. simpl. split.
    + rewrite list_lookup_middle by done. by destruct err.
    + intros m e. destruct err; simpl; [|done]. by intros [= <- _].
Qed.

(** The channel a call in flight is about to send on is empty. *)
Lemma flying_channel_empty (st : Sys F E) (n : nat) (exe : F)
    (err' : option (nat * E)) :
  consistent st →
  inFlight st = Some ((n, exe), err') →
  chanNumber (kindOf err') st = None.
Proof.
  intros Hst Hflying.
  destruct (chanNumber (kindOf err') st) as [m|] eqn:Hm; [|done].
  destruct (waiting_latest st Hst _ _ Hm) as [_ Hidle].
  unfold inFlightNumber in Hidle. rewrite Hflying in Hidle.
  by rewrite bool_decide_eq_true_2 in Hidle.
Qed.

Lemma send_possible (st : Sys F E) :
  consistent st → is_Some (inFlight st) → is_Some (step SendResult st).
Proof.
  intros Hst [[[n exe] err'] Hflying].
  pose proof (flying_channel_empty st n exe err' Hst Hflying) as Hempty.
  simpl. rewrite Hflying. unfold chanNumber in Hempty.
  destruct err' as [[m e]|]; simpl in *.
  - destruct (fileLoadError (chans st)); [done|]. by eexists.
  - destruct (fileLoaded (chans st)); [done|]. by eexists.
Qed.

Lemma send_consistent (st st2 : Sys F E) :
  consistent st → step SendResult st = Some st2 → consistent st2.
Proof.
  intros Hst Hstep. simpl in Hstep.
  destruct (inFlight st) as [[[n exe] err']|] eqn:Hflying; [|done].
  pose proof (flying_channel_empty st n exe err' Hst Hflying) as Hempty.
  destruct (flying_value st Hst n exe err' Hflying) as [Hcall Hnumber].
  assert (Hlatest : latest (kindOf err') st = Some n).
  { apply (flying_latest st Hst). unfold inFlightNumber. rewrite Hflying.
    by rewrite bool_decide_eq_true_2. }
  destruct Hst as [Hwait Hfly Hrecv Hsorted Hloaded Hfailed Hvalue].
  unfold chanNumber in Hempty.
  destruct err' as [[m e]|]; simpl in *.
  - destruct (fileLoadError (chans st)) eqn:Hchan; [done|].
    injection Hstep as <-. rewrite (Hnumber m e eq_refl) in *.
    split; simpl.
    + intros [] k; unfold chanNumber, inFlightNumber, latest; simpl.
      * intros Hk. split; [|done]. by apply (Hwait Loaded k).
      * by intros [= <-].
    + by intros [] k.
    + intros k k0 Hk0. destruct (Hrecv k k0 Hk0) as (m' & Hm' & Hle & Hlt).
      exists m'. split; [done|]. split; [done|].
      unfold chanNumber, inFlightNumber in *. rewrite Hflying in Hlt.
      destruct k; simpl in *.
      -- intros [Hc|[? [=]]]. apply Hlt. by left.
      -- intros _. apply Hlt. right. by eexists.
    + done.
    + done.
    + intros k e0 [= <- <-]. by exists exe.
    + done.
  - destruct (fileLoaded (chans st)) eqn:Hchan; [done|].
    injection Hstep as <-.
    split; simpl.
    + intros [] k; unfold chanNumber, inFlightNumber, latest; simpl.
      * by intros [= <-].
      * intros Hk. split; [|done]. by apply (Hwait Failed k).
    + by intros [] k.
    + intros k k0 Hk0. destruct (Hrecv k k0 Hk0) as (m' & Hm' & Hle & Hlt).
      exists m'. split; [done|]. split; [done|].
      unfold chanNumber, inFlightNumber in *. rewrite Hflying in Hlt.
      destruct k; simpl in *.
      -- intros _. apply Hlt. right. by eexists.
      -- intros [Hc|[? [=]]]. apply Hlt. by left.
    + done.
    + by intros k v [= <- <-].
    + done.
    + done.
Qed.

Lemma receive_error_consistent (st st' : Sys F E) :
  consistent st → step ReceiveError st = Some st' → consistent st'.
Proof.
  intros Hst Hstep. simpl in Hstep.
  destruct (fileLoadError (chans st)) as [[n x]|] eqn:Hchan; [|done].
  injection Hstep as <-.
  destruct (waiting_latest st Hst Failed n) as [Hlatest Hidle];
    [by unfold chanNumber; rewrite Hchan|].
  destruct Hst as [Hwait Hfly Hrecv Hsorted Hloaded Hfailed Hvalue].
  assert (Hbelow : ∀ n0, n0 ∈ numbersOf Failed (received st) → (n0 < n)%nat).
  { intros n0 Hn0. destruct (Hrecv Failed n0 Hn0) as (m & Hm & _ & Hlt).
    rewrite Hlatest in Hm. injection Hm as <-. apply Hlt. left.
    unfold chanNumber. rewrite Hchan. by eexists. }
  split; simpl.
  - intros [] k; unfold chanNumber, inFlightNumber, latest; simpl; try done.
    apply (Hwait Loaded k).
  - intros k k0. apply (Hfly k k0).
  - intros k n0. rewrite numbersOf_snoc. destruct k; simpl.
    + intros Hn0. apply (Hrecv _ n0 Hn0).
    + intros Hn0. exists n. split; [done|].
      assert (Hle : (n0 ≤ n)%nat).
      { apply elem_of_app in Hn0 as [Hn0|Hn0]; [apply Hbelow in Hn0; lia|].
        apply list_elem_of_singleton in Hn0 as ->. lia. }
      split; [done|]. unfold chanNumber. simpl.
      intros [[? [=]]|[? Hf]]. unfold inFlightNumber in Hidle, Hf.
      simpl in Hf. rewrite Hidle in Hf. done.
  - intros k. rewrite numbersOf_snoc. destruct k; simpl; try done.
    apply StronglySorted_app_2; [|done|repeat constructor].
    intros x1 x2 Hx1 Hx2. apply list_elem_of_singleton in Hx2 as ->. by apply Hbelow.
  - done.
  - done.
  - done.
Qed.

Lemma receive_loaded_consistent (st st' : Sys F E) :
  consistent st → step ReceiveLoaded st = Some st' → consistent st'.
Proof.
  intros Hst Hstep. simpl in Hstep.
  destruct (fileLoaded (chans st)) as [[n x]|] eqn:Hchan; [|done].
  injection Hstep as <-.
  destruct (waiting_latest st Hst Loaded n) as [Hlatest Hidle];
    [by unfold chanNumber; rewrite Hchan|].
  destruct Hst as [Hwait Hfly Hrecv Hsorted Hloaded Hfailed Hvalue].
  assert (Hbelow : ∀ n0, n0 ∈ numbersOf Loaded (received st) → (n0 < n)%nat).
  { intros n0 Hn0. destruct (Hrecv Loaded n0 Hn0) as (m & Hm & _ & Hlt).
    rewrite Hlatest in Hm. injection Hm as <-. apply Hlt. left.
    unfold chanNumber. rewrite Hchan. by eexists. }
  split; simpl.
  - intros [] k; unfold chanNumber, inFlightNumber, latest; simpl; try done.
    apply (Hwait Failed k).
  - intros k k0. apply (Hfly k k0).
  - intros k n0. rewrite numbersOf_snoc. destruct k; simpl.
    + intros Hn0. exists n. split; [done|].
      assert (Hle : (n0 ≤ n)%nat).
      { apply elem_of_app in Hn0 as [Hn0|Hn0]; [apply Hbelow in Hn0; lia|].
        apply list_elem_of_singleton in Hn0 as ->. lia. }
      split; [done|]. unfold chanNumber. simpl.
      intros [[? [=]]|[? Hf]]. unfold inFlightNumber in Hidle, Hf.
      simpl in Hf. rewrite Hidle in Hf. done.
    + intros Hn0. apply (Hrecv _ n0 Hn0).
  - intros k. rewrite numbersOf_snoc. destruct k; simpl; try done.
    apply StronglySorted_app_2; [|done|repeat constructor].
    intros x1 x2 Hx1 Hx2. apply list_elem_of_singleton in Hx2 as ->. by apply Hbelow.
  - done.
  - done.
  - done.
Qed.

Lemma step_consistent (a : Action F E) (st st' : Sys F E) :
  consistent st → step a st = Some st' → consistent st'.
Proof.
  destruct a as [exe err| | |].
  - apply call_consistent.
  - apply send_consistent.
  - apply receive_error_consistent.
  - apply receive_loaded_consistent.
Qed.

Lemma exec_consistent (acts : list (Action F E)) (st st' : Sys F E) :
  consistent st → exec acts st = Some st' → consistent st'.
Proof.
  revert st. induction acts as [|a acts IH]; intros st Hst; simpl.
  - by intros [= <-].
  - destruct (step a st) as [st1|] eqn:Hstep; [|done]. simpl.
    apply IH. by eapply step_consistent.
Qed.

End channels.

(** A result handed to loadFinished takes the place of whatever waited
    in the channel of its kind, and leaves the other channel alone. *)
Lemma loadFinished_replaces {F E : Type} (exe : F) (err : option E)
    (st st1 st2 : FileUI.Sys F E) :
  FileUI.step (FileUI.CallLoadFinished exe err) st = Some st1 →
  FileUI.step FileUI.SendResult st1 = Some st2 →
  FileUI.chanNumber (FileUI.kindOf err) st2 = Some (length (FileUI.calls st))
  ∧ FileUI.chanNumber (FileUI.otherKind (FileUI.kindOf err)) st2
    = FileUI.chanNumber (FileUI.otherKind (FileUI.kindOf err)) st.
Proof.
  intros Hcall Hsend. simpl in Hcall.
  destruct (FileUI.inFlight st); [done|]. injection Hcall as <-.
  simpl in Hsend. destruct err as [e|]; simpl in Hsend;
    injection Hsend as <-; done.
Qed.

(** C4, as the code has it. In every state the goroutine and the event
    loop reach, however their steps interleave: the send of loadFinished
    finds its channel empty; a result handed to loadFinished replaces
    the result of the same kind that still waits, and only that one;
    what the event loop receives from a channel is the latest result of
    that kind (the latest load from fileLoaded, the latest error from
    fileLoadError) handed to loadFinished so far; and so, among the
    loads and among the errors, no older result is received after a
    newer one. *)
Theorem C4_latest_of_its_kind_wins {F E : Type}
    (acts : list (FileUI.Action F E)) (st : FileUI.Sys F E) :
  FileUI.exec acts FileUI.start = Some st →
  (is_Some (FileUI.inFlight st) → is_Some (FileUI.step FileUI.SendResult st))
  ∧ (∀ exe err st1 st2,
       FileUI.step (FileUI.CallLoadFinished exe err) st = Some st1 →
       FileUI.step FileUI.SendResult st1 = Some st2 →
       FileUI.chanNumber (FileUI.kindOf err) st2 = Some (length (FileUI.calls st))
       ∧ FileUI.chanNumber (FileUI.otherKind (FileUI.kindOf err)) st2
         = FileUI.chanNumber (FileUI.otherKind (FileUI.kindOf err)) st)
  ∧ (∀ st', FileUI.step FileUI.ReceiveLoaded st = Some st' →
       ∃ n file,
         FileUI.received st' = FileUI.received st ++ [(n, FileUI.Loaded)]
         ∧ FileUI.latest FileUI.Loaded st = Some n
         ∧ FileUI.ui_File st' = Some file
         ∧ FileUI.calls st !! n = Some (file, None))
  ∧ (∀ st', FileUI.step FileUI.ReceiveError st = Some st' →
       ∃ n exe err,
         FileUI.received st' = FileUI.received st ++ [(n, FileUI.Failed)]
         ∧ FileUI.latest FileUI.Failed st = Some n
         ∧ FileUI.ui_LoadError st' = Some err
         ∧ FileUI.calls st !! n = Some (exe, Some err))
  ∧ (∀ k, StronglySorted lt (numbersOf k (FileUI.received st))).
Proof.
  intros Hexec.
  assert (Hst : consistent st)
    by (eapply exec_consistent; [apply start_consistent|done]).
  split; [by apply send_possible|].
  split; [intros exe err st1 st2; apply loadFinished_replaces|].
  split; [|split].
  - intros st' Hstep. simpl in Hstep.
    destruct (FileUI.fileLoaded (FileUI.chans st)) as [[n file]|] eqn:Hchan; [|done].
    injection Hstep as <-. exists n, file. simpl.
    split; [done|]. split; [|split; [done|]].
    + apply (waiting_latest st Hst FileUI.Loaded n).
      unfold FileUI.chanNumber. by rewrite Hchan.
    + by apply (loaded_value st Hst).
  - intros st' Hstep. simpl in Hstep.
    destruct (FileUI.fileLoadError (FileUI.chans st)) as [[n err]|] eqn:Hchan; [|done].
    injection Hstep as <-.
    destruct (failed_value st Hst n err Hchan) as [exe Hexe].
    exists n, exe, err. simpl.
    split; [done|]. split; [|done].
    apply (waiting_latest st Hst FileUI.Failed n).
    unfold FileUI.chanNumber. by rewrite Hchan.
  - apply (received_sorted st Hst).
Qed.

(** ** The watch loop *)

Section watching.
Context {F E : Type}.
Variable nil : F.
Variable wasm : bool.
Import FileUI.

(** While watching and woken by the ticker, the loop makes one pass per
    answer of the surroundings, waits on the ticker after each, and is
    still in the loop at the end. *)
Lemma loop_watching (last : Z) (passes : list (Pass F E)) :
  Forall (fun p => wake p = Tick) passes →
  (loop nil wasm true last passes).2 = Polling (foldl (nextModTime nil wasm) last passes)
  ∧ length (loop nil wasm true last passes).1 = length passes
  ∧ ∀ k p, passes !! k = Some p →
      (loop nil wasm true last passes).1 !! k
      = Some ((pass nil wasm (foldl (nextModTime nil wasm) last (take k passes)) p).2
              ++ [DidWait tickInterval]).
Proof.
  intros Hticks. revert last.
  induction Hticks as [|p passes Hp Hticks IH]; intros last; [done|].
  assert (Hnext : nextModTime nil wasm last p = (pass nil wasm last p).1) by done.
  simpl. rewrite Hnext.
  destruct (pass nil wasm last p) as [last' did] eqn:Hpass. rewrite Hp. simpl.
  specialize (IH last').
  destruct (loop nil wasm true last' passes) as [dids status]. simpl in *.
  destruct IH as (Hstatus & Hlength & Hdids).
  split; [exact Hstatus|]. split; [by rewrite Hlength|].
  intros [|k] q Hq; simpl in *.
  - injection Hq as <-. by rewrite Hpass.
  - rewrite Hnext. by apply Hdids.
Qed.

(** A pass whose stat or load fails hands the error to loadFinished, and
    that call puts it in the error channel whatever waited there. *)
Lemma failed_pass_reports (last : Z) (p : Pass F E) (err : E) :
  (stat p = StatErr err
   ∨ ∃ modTime, stat p = StatOk modTime ∧ modTime ≠ last ∧ (load p).2 = Some err) →
  (∃ before exe, (pass nil wasm last p).2 = before ++ [DidLoadFinished exe (Some err)]
                 ∧ Forall (fun d => ∀ exe' err', d ≠ DidLoadFinished exe' err') before)
  ∧ ∀ ch, ∃ ch', deliver (pass nil wasm last p).2 ch = Some ch'
                 ∧ fileLoadError ch' = Some err
                 ∧ fileLoaded ch' = fileLoaded ch.
Proof.
  unfold pass. intros [Hstat|(modTime & Hstat & Hchanged & Hload)]; rewrite Hstat.
  - split.
    + exists [DidStat], nil. split; [done|]. by repeat constructor.
    + intros ch. simpl. by eexists.
  - rewrite bool_decide_eq_false_2 by done. split.
    + exists [DidStat; DidLoad (localLoader wasm)], (load p).1.
      rewrite Hload. split; [done|]. by repeat constructor.
    + intros ch. simpl. rewrite Hload. simpl. by eexists.
Qed.

End watching.

(** C5. While watching a local file, with the ticker the case that
    wakes it, the goroutine makes a pass for every answer of the
    surroundings and is in its loop after the last one, whatever failed
    on the way; it waits on the 100 ms ticker after every pass; and a
    pass whose stat fails, or whose load of a changed file fails, hands
    that error to loadFinished, which puts it in the error channel for
    the event loop. *)
Theorem C5_failed_reload_keeps_polling {F E : Type} (nil : F) (wasm : bool)
    (cfg : FileUI.FileUIConfig) (network : F * option E)
    (passes : list (FileUI.Pass F E)) :
  FileUI.Watch cfg = true →
  FileUI.ServerURL cfg = "" →
  Forall (fun p => FileUI.wake p = FileUI.Tick) passes →
  (FileUI.goroutine nil wasm cfg network passes).2
  = FileUI.Polling (FileUI.lastModTimeAt nil wasm (length passes) passes)
  ∧ length (FileUI.goroutine nil wasm cfg network passes).1 = length passes
  ∧ ∀ k p, passes !! k = Some p →
      let last := FileUI.lastModTimeAt nil wasm k passes in
      let did := (FileUI.pass nil wasm last p).2 in
      (FileUI.goroutine nil wasm cfg network passes).1 !! k
      = Some (did ++ [FileUI.DidWait 100])
      ∧ ∀ err,
          (FileUI.stat p = FileUI.StatErr err
           ∨ ∃ modTime, FileUI.stat p = FileUI.StatOk modTime
                        ∧ modTime ≠ last ∧ (FileUI.load p).2 = Some err) →
          (∃ before exe,
             did = before ++ [FileUI.DidLoadFinished exe (Some err)]
             ∧ Forall (fun d => ∀ exe' err', d ≠ FileUI.DidLoadFinished exe' err')
                 before)
          ∧ ∀ ch, ∃ ch',
              FileUI.deliver did ch = Some ch'
              ∧ FileUI.fileLoadError ch' = Some err
              ∧ FileUI.fileLoaded ch' = FileUI.fileLoaded ch.
Proof.
  intros Hwatch Hlocal Hticks. unfold FileUI.goroutine.
  rewrite bool_decide_eq_false_2 by (intros Hurl; by apply Hurl).
  rewrite Hwatch.
  destruct (loop_watching nil wasm FileUI.zeroTime passes Hticks)
    as (Hstatus & Hlength & Hdids).
  split; [|split; [done|]].
  - rewrite Hstatus. unfold FileUI.lastModTimeAt. by rewrite firstn_all.
  - intros k p Hp. split.
    + by rewrite (Hdids k p Hp).
    + intros err. apply failed_pass_reports.
Qed.

(** * Further properties of the server, the client and the goroutine *)

(** ** Loading, listing and removing *)

(** X1. A load of an unregistered path that the loader accepts registers
    the file under that path and under no other; its functions can then
    be listed; and removing the path again gives back the server as it
    was. *)
Theorem load_registers_and_remove_restores `{GoLib} (env : Env) (s : Server)
    (p : string) (file : disasm.File) :
  p ≠ "" →
  activeFiles s !! p = None →
  runLoader env (loaderFor env p) p = Ok file →
  let s1 := stateOf (serve env s (ReqFiles POST (Ok p))) in
  activeFiles s1 !! p = Some file
  ∧ (∀ q, q ≠ p → activeFiles s1 !! q = activeFiles s !! q)
  ∧ options s1 = options s
  ∧ answerOf (serve env s1 (ReqFunctions p ""))
    = Encode (functionsBody (funcNames file))
  ∧ stateOf (serve env s1 (ReqFileOperations p)) = s.
Proof.
  intros Hne Hp Hload. unfold stateOf. simpl.
  rewrite bool_decide_eq_false_2 by done. rewrite Hp, Hload. simpl.
  split; [apply lookup_insert_eq|].
  split; [intros q Hq; by apply lookup_insert_ne|].
  split; [done|]. split.
  - unfold answerOf.
    rewrite (handleFunctions_registered _ p "" file Hne)
      by apply lookup_insert_eq.
    unfold nameFilter. rewrite bool_decide_eq_false_2 by (intros Hc; by apply Hc).
    simpl. unfold funcNames. by rewrite filter_everything.
  - unfold handleFileOperations. rewrite bool_decide_eq_false_2 by done.
    simpl. rewrite lookup_insert_eq. simpl.
    rewrite delete_insert_id by done. by destruct s.
Qed.

(** X2. A load request changes the registry only when it is answered
    with 201; and when it names a non-empty path that is not registered
    it calls the loader chosen for that path on that path, once, and
    calls or logs nothing else, while any other load request calls and
    logs nothing at all. *)
Theorem load_request_effects `{GoLib} (env : Env) (s : Server)
    (body : Result string) :
  (StatusCode (answerOf (serve env s (ReqFiles POST body))) ≠ StatusCreated →
   stateOf (serve env s (ReqFiles POST body)) = s)
  ∧ eventsOf (serve env s (ReqFiles POST body))
    = match body with
      | Ok p =>
          if bool_decide (p ≠ "" ∧ activeFiles s !! p = None)
          then [EvLoad (loaderFor env p) p]
          else []
      | Err _ => []
      end
  ∧ (eventsOf (serve env s (ReqFiles POST body)) ≠ []
     ↔ ∃ p, body = Ok p ∧ p ≠ "" ∧ activeFiles s !! p = None).
Proof.
  unfold answerOf, stateOf, eventsOf. simpl.
  destruct body as [p|err]; simpl.
  - case_bool_decide as Hempty; simpl.
    + rewrite bool_decide_eq_false_2 by (intros [? _]; done).
      split; [done|]. split; [done|].
      split; [done|]. intros (q & [= <-] & Hq & _). done.
    + destruct (activeFiles s !! p) eqn:Hp; simpl.
      * rewrite bool_decide_eq_false_2 by (intros [_ ?]; done).
        split; [done|]. split; [done|].
        split; [done|]. intros (q & [= <-] & _ & Hq). congruence.
      * rewrite bool_decide_eq_true_2 by done.
        destruct (runLoader env (loaderFor env p) p) as [file|msg]; simpl.
        -- split; [done|]. split; [done|].
           split; [intros _; by exists p|done].
        -- split; [done|]. split; [done|].
           split; [intros _; by exists p|done].
  - split; [done|]. split; [done|].
    split; [done|]. by intros (q & [=] & _).
Qed.

(** X3. A removal touches no other path: it unregisters the path it
    names and leaves every other entry and the options as they were;
    for a path that is not registered it answers 404, calls no Close and
    changes nothing. *)
Theorem remove_touches_one_path `{GoLib} (env : Env) (s : Server) (p : string) :
  (∀ q, q ≠ p →
     activeFiles (stateOf (serve env s (ReqFileOperations p))) !! q
     = activeFiles s !! q)
  ∧ options (stateOf (serve env s (ReqFileOperations p))) = options s
  ∧ (p ≠ "" →
     activeFiles (stateOf (serve env s (ReqFileOperations p))) !! p = None)
  ∧ (p ≠ "" → activeFiles s !! p = None →
     serve env s (ReqFileOperations p)
     = (s, [], http_Error "File not found" StatusNotFound)).
Proof.
  unfold stateOf. simpl. unfold handleFileOperations.
  case_bool_decide as Hempty; simpl.
  - split; [done|]. split; [done|]. split; intros Hne; done.
  - destruct (activeFiles s !! p) eqn:Hp; simpl.
    + split; [intros q Hq; by apply lookup_delete_ne|].
      split; [done|]. split; [intros _; apply lookup_delete_eq|done].
    + split; [done|]. split; [done|]. split; done.
Qed.

(** X4. The answers of each route: the list of files is always 200 with
    a JSON body; a load is 200 or 201 without a body, or 400 or 500
    with a message; any other method on that route is 405; a removal is
    200 without a body, or 400 or 404 with a message, and never 500;
    a list of functions is 200 with a JSON body, or 400 or 404 with a
    message, and never 500; a function's code is 200 with a JSON body,
    or 400, 404 or 500 with a message. *)
Theorem answers_by_route `{GoLib} (env : Env) (s : Server) (req : Request) :
  let a := answerOf (serve env s req) in
  let plain := ResponseBody a = NoBody in
  let json := ∃ j, ResponseBody a = JSON j in
  let message := ∃ msg, ResponseBody a = Text msg in
  match req with
  | ReqFiles GET _ => StatusCode a = StatusOK ∧ json
  | ReqFiles POST _ =>
      (StatusCode a = StatusOK ∨ StatusCode a = StatusCreated) ∧ plain
      ∨ (StatusCode a = StatusBadRequest
         ∨ StatusCode a = StatusInternalServerError) ∧ message
  | ReqFiles _ _ => StatusCode a = StatusMethodNotAllowed ∧ plain
  | ReqFileOperations _ =>
      StatusCode a = StatusOK ∧ plain
      ∨ (StatusCode a = StatusBadRequest ∨ StatusCode a = StatusNotFound)
        ∧ message
  | ReqFunctions _ _ =>
      StatusCode a = StatusOK ∧ json
      ∨ (StatusCode a = StatusBadRequest ∨ StatusCode a = StatusNotFound)
        ∧ message
  | ReqFunctionOperations _ _ _ =>
      StatusCode a = StatusOK ∧ json
      ∨ (StatusCode a = StatusBadRequest ∨ StatusCode a = StatusNotFound
         ∨ StatusCode a = StatusInternalServerError) ∧ message
  end.
Proof.
  unfold answerOf.
  destruct req as [method body|path|path expr|name path context]; simpl.
  - destruct method; simpl; try by split.
    + split; [done|]. by eexists.
    + destruct body as [path|err]; simpl.
      * case_bool_decide; simpl; [right; split; [by left|by eexists]|].
        destruct (activeFiles s !! path); simpl; [left; split; [by left|done]|].
        destruct (runLoader env (loaderFor env path) path); simpl.
        -- left. split; [by right|done].
        -- right. split; [by right|by eexists].
      * right. split; [by left|by eexists].
  - unfold handleFileOperations.
    case_bool_decide; simpl; [right; split; [by left|by eexists]|].
    destruct (activeFiles s !! path); simpl.
    + left. by split.
    + right. split; [by right|by eexists].
  - unfold handleFunctions.
    case_bool_decide; simpl; [right; split; [by left|by eexists]|].
    destruct (activeFiles s !! path); simpl;
      [|right; split; [by right|by eexists]].
    case_bool_decide; simpl; [|left; split; [done|by eexists]].
    destruct (regexp_Compile expr); simpl.
    + left. split; [done|by eexists].
    + right. split; [by left|by eexists].
  - unfold handleFunctionOperations.
    case_bool_decide; simpl; [right; split; [by left|by eexists]|].
    case_bool_decide; simpl; [right; split; [by left|by eexists]|].
    destruct (activeFiles s !! path) as [file|]; simpl;
      [|right; split; [right; by left|by eexists]].
    destruct (findFunc (disasm.File_Funcs file) name) as [fn|]; simpl;
      [|right; split; [right; by left|by eexists]].
    rewrite optionsFor_unfold.
    destruct (optionsFor s context) as [opts|err]; simpl;
      [|right; split; [by left|by eexists]].
    destruct (disasm.Func_Load fn opts); simpl.
    + left. split; [done|by eexists].
    + right. split; [right; by right|by eexists].
Qed.

(** X5. The list of loaded files names exactly the registered paths,
    each once, whatever the order; the request changes nothing. *)
Theorem listing_is_the_registry `{GoLib} (env : Env) (s : Server)
    (body : Result string) :
  ∃ files,
    serve env s (ReqFiles GET body)
    = (s, [], Encode (JObj [("files", Encode.strings files)]))
    ∧ NoDup files
    ∧ (∀ p, p ∈ files ↔ is_Some (activeFiles s !! p))
    ∧ length files = size (activeFiles s).
Proof.
  exists (elements (dom (activeFiles s))). split; [done|].
  split; [apply NoDup_elements|]. split.
  - intros p. by rewrite elem_of_elements, elem_of_dom.
  - rewrite <- (size_dom (D := gset string)). done.
Qed.

Lemma query_changes_nothing `{GoLib} (env : Env) (s : Server) (req : Request) :
  isQuery req = true → serve env s req = (s, [], answerOf (serve env s req)).
Proof.
  unfold answerOf.
  destruct req as [method body|path|path expr|name path context]; simpl.
  - by destruct method.
  - done.
  - intros _. unfold handleFunctions. case_bool_decide; [done|].
    destruct (activeFiles s !! path); [|done].
    case_bool_decide; [|done]. by destruct (regexp_Compile expr).
  - intros _. unfold handleFunctionOperations.
    repeat (case_bool_decide; [done|]).
    destruct (activeFiles s !! path) as [file|]; [|done].
    destruct (findFunc (disasm.File_Funcs file) name) as [fn|]; [|done].
    rewrite optionsFor_unfold.
    destruct (optionsFor s context) as [opts|err]; [|done].
    by destruct (disasm.Func_Load fn opts).
Qed.

(** X6. Requests that only ask (the list of files, the functions of a
    file, the code of a function) neither change the server nor call a
    loader or Close, however many of them are served. *)
Theorem queries_change_nothing `{GoLib} (s : Server)
    (history : list (Env * Request)) :
  Forall (fun er => isQuery er.2 = true) history →
  serveAll s history = (s, []).
Proof.
  induction 1 as [|[env req] history Hreq Hhistory IH]; [done|].
  simpl in *. rewrite (query_changes_nothing env s req Hreq). by rewrite IH.
Qed.

(** ** Loads and closes over a history *)

Lemma countLoads_app (p : string) (events events' : list Event) :
  countLoads p (events ++ events')
  = (countLoads p events + countLoads p events')%nat.
Proof. unfold countLoads. by rewrite filter_app, length_app. Qed.

Lemma countCloses_app (p : string) (events events' : list Event) :
  countCloses p (events ++ events')
  = (countCloses p events + countCloses p events')%nat.
Proof. unfold countCloses. by rewrite filter_app, length_app. Qed.

Ltac count_events :=
  unfold countLoads, countCloses, registered; simpl;
  rewrite ?filter_cons, ?filter_nil; simpl;
  repeat case_bool_decide; simplify_eq; simpl;
  rewrite ?lookup_insert_eq, ?lookup_delete_eq; simpl;
  repeat match goal with
         | H : ?m !! ?k = _ |- context [?m !! ?k] => rewrite H
         | Hne : ?a ≠ ?b |- context [<[?a := _]> _ !! ?b] =>
             rewrite (lookup_insert_ne _ a b) by done
         | Hne : ?a ≠ ?b |- context [delete ?a _ !! ?b] =>
             rewrite (lookup_delete_ne _ a b) by done
         end;
  simpl; try lia.

Lemma serve_bookkeeping `{GoLib} (env : Env) (s : Server) (req : Request)
    (p : string) :
  (countCloses p (eventsOf (serve env s req))
   + registered (stateOf (serve env s req)) p
   ≤ countLoads p (eventsOf (serve env s req)) + registered s p)%nat.
Proof.
  destruct (isQuery req) eqn:Hquery.
  { rewrite (query_changes_nothing env s req Hquery).
    unfold eventsOf, stateOf. simpl. count_events. }
  unfold eventsOf, stateOf.
  destruct req as [method body|path|path expr|name path context]; try done.
  - destruct method; try done; simpl; [|count_events..].
    destruct body as [path|err]; simpl; [|count_events].
    case_bool_decide; simpl; [count_events|].
    destruct (activeFiles s !! path) eqn:Hpath; simpl; [count_events|].
    destruct (decide (path = p)) as [->|Hne];
      destruct (runLoader env (loaderFor env _) _); simpl; count_events.
  - simpl. unfold handleFileOperations.
    case_bool_decide; simpl; [count_events|].
    destruct (activeFiles s !! path) eqn:Hpath; simpl; [|count_events].
    destruct (decide (path = p)) as [->|Hne];
      destruct (disasm.File_Close _); simpl; count_events.
Qed.

(** X7. Over any history of requests served by a new server, and for
    any path, Close has been called at most as often as a loader, and
    strictly less often while the path is registered: no Close without
    a load before it, and none for the file that is registered now. *)
Theorem closes_bounded_by_loads `{GoLib} (context : Z)
    (history : list (Env * Request)) (p : string) :
  let s := (serveAll (NewServer context) history).1 in
  let events := (serveAll (NewServer context) history).2 in
  (countCloses p events + registered s p ≤ countLoads p events)%nat.
Proof.
  assert (Hany : ∀ s0,
    (countCloses p (serveAll s0 history).2 + registered (serveAll s0 history).1 p
     ≤ countLoads p (serveAll s0 history).2 + registered s0 p)%nat).
  { induction history as [|[env req] history IH]; intros s0; simpl; [lia|].
    pose proof (serve_bookkeeping env s0 req p) as Hstep.
    unfold eventsOf, stateOf in Hstep.
    destruct (serve env s0 req) as [[s1 events1] answer]. simpl in Hstep.
    specialize (IH s1). destruct (serveAll s1 history) as [s2 events2].
    simpl in *. rewrite countCloses_app, countLoads_app. lia. }
  intros s events. specialize (Hany (NewServer context)).
  unfold registered at 2 in Hany. simpl in Hany.
  rewrite lookup_empty in Hany. unfold s, events. lia.
Qed.

(** ** Looking a function up by name *)

Lemma findFunc_None (funcs : list disasm.Func) (name : string) :
  findFunc funcs name = None ↔ name ∉ (disasm.Func_Name <$> funcs).
Proof.
  induction funcs as [|fn funcs IH]; simpl.
  - split; [intros _; apply not_elem_of_nil|done].
  - case_bool_decide as Hname.
    + split; [done|]. intros Hnot. exfalso. apply Hnot. subst. apply elem_of_cons. by left.
    + rewrite IH, not_elem_of_cons. split; [|by intros [_ ?]].
      intros Hrest. split; [congruence|done].
Qed.

Lemma findFunc_first (funcs : list disasm.Func) (name : string) (fn : disasm.Func) :
  findFunc funcs name = Some fn ↔
  ∃ before after,
    funcs = before ++ fn :: after
    ∧ disasm.Func_Name fn = name
    ∧ name ∉ (disasm.Func_Name <$> before).
Proof.
  induction funcs as [|g funcs IH]; simpl.
  - split; [done|]. intros ([|? ?] & after & Hfuncs & _); discriminate Hfuncs.
  - case_bool_decide as Hname.
    + split.
      * intros [= <-]. exists [], funcs. split; [done|]. split; [done|].
        apply not_elem_of_nil.
      * intros ([|g' before] & after & Hfuncs & Hfn & Hbefore); simpl in *.
        -- by injection Hfuncs as <- _.
        -- injection Hfuncs as <- _. exfalso. apply Hbefore.
           apply elem_of_cons. by left.
    + rewrite IH. split.
      * intros (before & after & -> & Hfn & Hbefore).
        exists (g :: before), after. split; [done|]. split; [done|].
        simpl. apply not_elem_of_cons. by split.
      * intros ([|g' before] & after & Hfuncs & Hfn & Hbefore); simpl in *.
        -- injection Hfuncs as <- _. done.
        -- injection Hfuncs as <- ->. exists before, after.
           split; [done|]. split; [done|].
           by apply not_elem_of_cons in Hbefore as [_ ?].
Qed.

(** X8. For a registered file and a non-empty name, a function-code
    request is answered "Function not found" (404) exactly when no
    function of the file has that name; otherwise the function loaded is
    the first of that name in the order of Funcs(), under the options of
    the request, and the answer is its code, or 500 when it loads nil,
    or 400 when the context parameter is no number. *)
Theorem function_found_by_first_name `{GoLib} (s : Server)
    (name path contextStr : string) (file : disasm.File) :
  name ≠ "" →
  path ≠ "" →
  activeFiles s !! path = Some file →
  (answerOf (handleFunctionOperations s name path contextStr)
   = http_Error "Function not found" StatusNotFound
   ↔ name ∉ funcNames file)
  ∧ ∀ before fn after,
      disasm.File_Funcs file = before ++ fn :: after →
      disasm.Func_Name fn = name →
      name ∉ (disasm.Func_Name <$> before) →
      answerOf (handleFunctionOperations s name path contextStr)
      = match optionsFor s contextStr with
        | Err _ => http_Error "Invalid context value" StatusBadRequest
        | Ok opts =>
            match disasm.Func_Load fn opts with
            | Some code => Encode (Encode.codeResponse (ToWire.codeResponse code))
            | None =>
                http_Error "Failed to load function code" StatusInternalServerError
            end
        end.
Proof.
  intros Hname Hpath Hfile.
  assert (Hanswer : ∀ fn, findFunc (disasm.File_Funcs file) name = Some fn →
    answerOf (handleFunctionOperations s name path contextStr)
    = match optionsFor s contextStr with
      | Err _ => http_Error "Invalid context value" StatusBadRequest
      | Ok opts =>
          match disasm.Func_Load fn opts with
          | Some code => Encode (Encode.codeResponse (ToWire.codeResponse code))
          | None =>
              http_Error "Failed to load function code" StatusInternalServerError
          end
      end).
  { intros fn Hfn. unfold answerOf, handleFunctionOperations.
    rewrite (bool_decide_eq_false_2 (name = "")) by done.
    rewrite (bool_decide_eq_false_2 (path = "")) by done.
    rewrite Hfile, Hfn, optionsFor_unfold.
    destruct (optionsFor s contextStr) as [opts|err]; [|done].
    by destruct (disasm.Func_Load fn opts). }
  split.
  - unfold funcNames. rewrite <- findFunc_None.
    destruct (findFunc (disasm.File_Funcs file) name) as [fn|] eqn:Hfn.
    + rewrite (Hanswer fn eq_refl). split; [|done].
      destruct (optionsFor s contextStr) as [opts|err]; [|by intros [=]].
      destruct (disasm.Func_Load fn opts); by intros [=].
    + split; [done|]. intros _. unfold answerOf, handleFunctionOperations.
      rewrite (bool_decide_eq_false_2 (name = "")) by done.
      rewrite (bool_decide_eq_false_2 (path = "")) by done.
      by rewrite Hfile, Hfn.
  - intros before fn after Hfuncs Hfn Hbefore. apply Hanswer.
    apply findFunc_first. by exists before, after.
Qed.

(** ** The wire conversions, the other way round *)

Lemma wire_inst_roundtrip (v : InstructionInfo) :
  ToWire.instructionInfo (FromWire.inst v) = v.
Proof. by destruct v. Qed.

Lemma wire_lineRange_roundtrip (v : LineRangeInfo) :
  ToWire.lineRangeInfo (FromWire.lineRange v) = v.
Proof. by destruct v. Qed.

Lemma wire_sourceBlock_roundtrip (v : SourceBlockInfo) :
  ToWire.sourceBlockInfo (FromWire.sourceBlock v) = v.
Proof.
  rewrite fromWire_sourceBlock, toWire_sourceBlockInfo.
  destruct v as [from to lines related]. simpl. f_equal.
  apply fmap_inverse. intros row. apply fmap_inverse, wire_lineRange_roundtrip.
Qed.

Lemma wire_source_roundtrip (v : SourceInfo) :
  ToWire.sourceInfo (FromWire.source v) = v.
Proof.
  rewrite fromWire_source, toWire_sourceInfo. destruct v as [file blocks].
  simpl. f_equal. apply fmap_inverse, wire_sourceBlock_roundtrip.
Qed.

(** X9. The conversions between a decoded function and its wire
    response are inverse in the other direction too: a wire response
    converted by the client and converted again by the server is the
    same response, so that no two responses give the same decoded
    function; and both conversions keep lengths and positions, the
    instruction at an index being the conversion of the instruction at
    that index. *)
Theorem wire_conversions_are_bijective (result : CodeResponse) (code : disasm.Code) :
  ToWire.codeResponse (FromWire.code result) = result
  ∧ (∀ i, CodeResponse_Instructions (ToWire.codeResponse code) !! i
          = ToWire.instructionInfo <$> disasm.Code_Insts code !! i)
  ∧ (∀ i, CodeResponse_Sources (ToWire.codeResponse code) !! i
          = ToWire.sourceInfo <$> disasm.Code_Source code !! i)
  ∧ (∀ i, disasm.Code_Insts (FromWire.code result) !! i
          = FromWire.inst <$> CodeResponse_Instructions result !! i)
  ∧ (∀ i, disasm.Code_Source (FromWire.code result) !! i
          = FromWire.source <$> CodeResponse_Sources result !! i).
Proof.
  split; [|split; [|split; [|split]]].
  - rewrite fromWire_code, toWire_codeResponse.
    destruct result as [name file instructions sources maxJump]. simpl. f_equal.
    + apply fmap_inverse, wire_inst_roundtrip.
    + apply fmap_inverse, wire_source_roundtrip.
  - intros i. rewrite toWire_codeResponse. apply list_lookup_fmap.
  - intros i. rewrite toWire_codeResponse. apply list_lookup_fmap.
  - intros i. rewrite fromWire_code. apply list_lookup_fmap.
  - intros i. rewrite fromWire_code. apply list_lookup_fmap.
Qed.

(** ** The client against a server *)

(** X10. A remote function on a client connected to a server, for a
    registered file that has a function of its name: with a positive
    context the load is that of the server's function under the very
    options given, provided the number survives being printed and read;
    with a context of zero or less the context is not sent and the load
    is that of the server's function under the server's own options.
    The load is nil when the server's is, and otherwise the decoded
    function as the client receives it, which is the decoded function
    itself when its strings are valid UTF-8. *)
Theorem remote_load_context `{GoLib} (env : Env) (s : Server)
    (url path name : string) (opt : disasm.Options)
    (file : disasm.File) (fn : disasm.Func) :
  name ≠ "" →
  path ≠ "" →
  activeFiles s !! path = Some file →
  findFunc (disasm.File_Funcs file) name = Some fn →
  (disasm.Options_Context opt > 0 →
   fmt_d (disasm.Options_Context opt) ≠ "" →
   strconv_Atoi (fmt_d (disasm.Options_Context opt))
   = Ok (disasm.Options_Context opt) →
   NetworkFunc_Load (connectedTo env s url) path name opt
   = Received.code <$> disasm.Func_Load fn opt)
  ∧ (disasm.Options_Context opt ≤ 0 →
     NetworkFunc_Load (connectedTo env s url) path name opt
     = Received.code <$> disasm.Func_Load fn (options s))
  ∧ (∀ code, validCode code → Received.code code = code).
Proof.
  intros Hname Hpath Hfile Hfn. split; [|split].
  - intros Hpositive Hprinted Hread.
    apply (remote_load_forwards (connectedTo env s url) s path name opt opt file fn);
      try done.
    rewrite bool_decide_eq_true_2 by done. unfold optionsFor.
    rewrite bool_decide_eq_true_2 by done. rewrite Hread. by destruct opt.
  - intros Hnone.
    apply (remote_load_forwards (connectedTo env s url) s path name opt (options s)
             file fn); try done.
    rewrite bool_decide_eq_false_2 by lia. unfold optionsFor.
    by rewrite bool_decide_eq_false_2 by (intros Hc; by apply Hc).
  - apply received_valid.
Qed.

Lemma getFunctions_of_answer `{GoLib} (c : Client) (p expr : string) (j : json)
    (functions : list FunctionInfo) :
  httpClient c (Routed (ReqFunctions p expr)) = Ok (Encode j) →
  decodeFunctions j = Ok functions →
  Client_GetFunctions c p expr = Ok functions.
Proof.
  intros Hanswer Hdecoded. unfold Client_GetFunctions. rewrite Hanswer.
  unfold Encode. cbn [StatusCode ResponseBody].
  rewrite bool_decide_eq_false_2 by (intros Hc; by apply Hc).
  cbn [decodeBody]. by rewrite Hdecoded.
Qed.

Lemma getFunctions_registered `{GoLib} (env : Env) (s : Server)
    (url p expr : string) (file : disasm.File) :
  p ≠ "" →
  activeFiles s !! p = Some file →
  Client_GetFunctions (connectedTo env s url) p expr
  = match nameFilter expr with
    | Ok selects =>
        Ok (mkFunctionInfo
              <$> (Encode.text <$> filter (fun n => selects n) (funcNames file)))
    | Err err =>
        Err ("server error: " +:+ (("Invalid filter regex: " +:+ err) +:+ newline))
    end.
Proof.
  intros Hne Hp.
  pose proof (handleFunctions_registered s p expr file Hne Hp) as Hanswer.
  destruct (nameFilter expr) as [selects|err].
  - eapply getFunctions_of_answer.
    + unfold connectedTo. cbn [httpClient serve]. by rewrite Hanswer.
    + cbn zeta. case_bool_decide; [apply decode_filtered|apply decode_functions].
  - unfold Client_GetFunctions, connectedTo. cbn [httpClient serve].
    by rewrite Hanswer.
Qed.

(** X11. Listing the functions of a registered file through a client
    connected to the server gives the names the filter selects, in the
    order of Funcs(), each as the text the encoder wrote for it, which
    is the name itself when the names are valid UTF-8; a filter that
    does not compile comes back as an error carrying the server's
    message. *)
Theorem remote_functions `{GoLib} (env : Env) (s : Server)
    (url p expr : string) (file : disasm.File) :
  p ≠ "" →
  activeFiles s !! p = Some file →
  Client_GetFunctions (connectedTo env s url) p expr
  = match nameFilter expr with
    | Ok selects =>
        Ok (mkFunctionInfo
              <$> (Encode.text <$> filter (fun n => selects n) (funcNames file)))
    | Err err =>
        Err ("server error: " +:+ (("Invalid filter regex: " +:+ err) +:+ newline))
    end
  ∧ (Forall validText (funcNames file) →
     ∀ selects, nameFilter expr = Ok selects →
       Client_GetFunctions (connectedTo env s url) p expr
       = Ok (mkFunctionInfo <$> filter (fun n => selects n) (funcNames file))).
Proof.
  intros Hne Hp. split; [by apply getFunctions_registered|].
  intros Hvalid selects Hfilter.
  rewrite (getFunctions_registered env s url p expr file Hne Hp), Hfilter.
  do 2 f_equal. apply fmap_fixed.
  apply Forall_forall. intros n Hn. apply list_elem_of_filter in Hn as [_ Hn].
  by apply (proj1 (Forall_forall _ _) Hvalid).
Qed.

Lemma loadFile_by_status `{GoLib} (c : Client) (p : string) (resp : Response) :
  httpClient c (Routed (ReqFiles POST (Ok (Encode.text p)))) = Ok resp →
  (Client_LoadFile c p = None
   ↔ StatusCode resp = StatusCreated ∨ StatusCode resp = StatusOK).
Proof.
  intros Hresp. unfold Client_LoadFile. rewrite Hresp.
  destruct (decide (StatusCode resp = StatusCreated)) as [Hcreated|Hcreated];
    destruct (decide (StatusCode resp = StatusOK)) as [Hok|Hok].
  - rewrite (bool_decide_eq_false_2 (StatusCode resp ≠ StatusCreated))
      by (intros Hc; by apply Hc).
    split; [by left|done].
  - rewrite (bool_decide_eq_false_2 (StatusCode resp ≠ StatusCreated))
      by (intros Hc; by apply Hc).
    split; [by left|done].
  - rewrite (bool_decide_eq_false_2 (StatusCode resp ≠ StatusOK))
      by (intros Hc; by apply Hc).
    rewrite andb_false_r. split; [by right|done].
  - rewrite !bool_decide_eq_true_2 by done. simpl.
    split; [done|]. by intros [?|?].
Qed.

Lemma close_by_status `{GoLib} (c : Client) (p : string) (resp : Response) :
  httpClient c (DeleteURL ("/api/files/" +:+ p)) = Ok resp →
  (NetworkFile_Close c p = None ↔ StatusCode resp = StatusOK).
Proof.
  intros Hresp. unfold NetworkFile_Close. rewrite Hresp.
  case_bool_decide as Hstatus.
  - split; [done|]. intros Hok. by destruct Hstatus.
  - split; [|done]. intros _. first [done|by apply dec_stable].
Qed.

(** The encoder writes the empty text for the empty string only. *)
Lemma text_empty (s : string) : Encode.text s = "" → s = "".
Proof.
  destruct s as [|b0 rest]; [done|]. simpl.
  destruct (utf8.first b0) as [| |size lo hi]; [done|done|].
  destruct rest as [|b1 rest1]; [done|].
  destruct (negb (utf8.within lo hi b1)); [done|].
  destruct (size <=? 2)%nat; [done|].
  destruct rest1 as [|b2 rest2]; [done|].
  destruct (negb (utf8.within 128 191 b2)); [done|].
  destruct (size <=? 3)%nat; [done|].
  destruct rest2 as [|b3 rest3]; [done|].
  by destruct (negb (utf8.within 128 191 b3)).
Qed.

(** *** The router and the path of the URL *)

Lemma append_empty (s : string) : s +:+ "" = s.
Proof.
  induction s as [|c s IH]; [done|].
  change (String c (s +:+ "") = String c s). by f_equal.
Qed.

Lemma elements_nonempty (p : string) : mux.elements p ≠ [].
Proof.
  destruct p as [|c p]; [done|]. simpl.
  case_bool_decide; [done|]. by destruct (mux.elements p).
Qed.

Lemma elements_app_slash (a b : string) :
  mux.elements (a +:+ String "/"%char b) = mux.elements a ++ mux.elements b.
Proof.
  induction a as [|c a IH]; [done|]. simpl. rewrite IH.
  case_bool_decide; [done|].
  pose proof (elements_nonempty a) as Ha.
  by destruct (mux.elements a).
Qed.

(** An element holds no slash. *)
Lemma elements_plain (p : string) :
  Forall (fun e => mux.elements e = [e]) (mux.elements p).
Proof.
  induction p as [|c p IH]; [by repeat constructor|]. simpl.
  case_bool_decide as Hc; [by constructor|].
  pose proof (elements_nonempty p) as Hp.
  destruct (mux.elements p) as [|e es]; [done|].
  apply Forall_cons in IH as [He Hes]. constructor; [|done].
  simpl. rewrite bool_decide_eq_false_2 by done. by rewrite He.
Qed.

Definition plainElement (e : string) : Prop := e ≠ "" ∧ mux.elements e = [e].

Lemma removelast_Forall {A : Type} (P : A → Prop) (l : list A) :
  Forall P l → Forall P (removelast l).
Proof.
  induction 1 as [|x l Hx Hl IH]; [done|]. simpl.
  destruct l; [constructor|]. by constructor.
Qed.

Lemma kept_plain (es kept : list string) :
  Forall plainElement kept →
  Forall (fun e => mux.elements e = [e]) es →
  Forall plainElement (foldl mux.keep kept es).
Proof.
  revert kept. induction es as [|e es IH]; intros kept Hkept Hes; [done|].
  apply Forall_cons in Hes as [He Hes]. simpl. apply IH; [|done].
  unfold mux.keep. case_bool_decide as Hempty; [done|]. simpl.
  case_bool_decide; [done|]. case_bool_decide; [by apply removelast_Forall|].
  apply Forall_app. split; [done|]. by repeat constructor.
Qed.

Lemma elements_join (es : list string) :
  Forall plainElement es → es ≠ [] →
  mux.elements (mux.join es) = "" :: es.
Proof.
  induction 1 as [|e es [_ He] Hes IH]; [done|]. intros _. simpl.
  destruct es as [|e' es'].
  - simpl. by rewrite append_empty, He.
  - specialize (IH ltac:(done)). simpl in IH. injection IH as IH.
    cbn [mux.join]. by rewrite elements_app_slash, He, IH.
Qed.

(** The URL of an absolute path is not clean: it holds an empty element
    where the path begins. *)
Lemma absolute_redirected (rest : string) :
  mux.cleanPath ("/api/files/" +:+ ("/" +:+ rest)) ≠ "/api/files/" +:+ ("/" +:+ rest).
Proof.
  set (p := "/api/files/" +:+ ("/" +:+ rest)).
  assert (Hp : mux.elements p = [""; "api"; "files"; ""] ++ mux.elements rest).
  { unfold p.
    change ("/api/files/" +:+ "/" +:+ rest)
      with ("/api/files/" +:+ String "/"%char rest).
    by rewrite elements_app_slash. }
  unfold mux.cleanPath. rewrite bool_decide_eq_false_2 by done.
  change (match p with String "/" _ => p | _ => String "/" p end) with p.
  cbn zeta. unfold mux.Clean.
  pose proof (kept_plain (mux.elements p) [] ltac:(constructor)
                (elements_plain p)) as Hkept.
  destruct (foldl mux.keep [] (mux.elements p)) as [|k ks] eqn:Hfold.
  - rewrite bool_decide_eq_false_2 by (intros Hc; by apply Hc).
    rewrite andb_false_r. done.
  - assert (Hjoin : mux.elements (mux.join (k :: ks)) = "" :: k :: ks)
      by (by apply elements_join).
    destruct (mux.endsWithSlash p && bool_decide (mux.join (k :: ks) ≠ "/"))%bool;
      intros Hclean; apply (f_equal mux.elements) in Hclean;
      rewrite Hp in Hclean.
    + change (mux.join (k :: ks) +:+ "/")
        with (mux.join (k :: ks) +:+ String "/"%char "") in Hclean.
      rewrite elements_app_slash, Hjoin in Hclean. simpl in Hclean.
      pose proof (elements_nonempty rest) as Hrest.
      destruct ks as [|k2 [|k3 ks]]; simpl in Hclean; simplify_eq; try congruence.
      apply Forall_cons in Hkept as [_ Hkept].
      apply Forall_cons in Hkept as [_ Hkept].
      apply Forall_cons in Hkept as [[Hk _] _]. done.
    + rewrite Hjoin in Hclean. simpl in Hclean. simplify_eq.
      apply Forall_cons in Hkept as [_ Hkept].
      apply Forall_cons in Hkept as [_ Hkept].
      apply Forall_cons in Hkept as [[Hk _] _]. done.
Qed.

(** A GET request for a clean path is answered 200 by the list of files
    only. *)
Lemma routeGET_status `{GoLib} (env : Env) (s : Server) (p : string) :
  StatusCode (routeGET env s p) = StatusOK ↔ p = "/api/files".
Proof.
  unfold routeGET. case_bool_decide as Hfiles; [done|].
  split; [|done]. case_bool_decide as Hfunctions; [done|].
  destruct (mux.variable "/api/files/" p); [done|].
  destruct (mux.variable "/api/functions/" p) as [name|]; [|done].
  cbn [serve]. unfold handleFunctionOperations.
  case_bool_decide; [done|]. by rewrite bool_decide_eq_true_2.
Qed.

(** A DELETE request for the clean URL of a path reaches the handler
    with that path, unless the path is empty or holds a line feed. *)
Lemma routeDELETE_file `{GoLib} (env : Env) (s : Server) (p : string) :
  routeDELETE env s ("/api/files/" +:+ p)
  = if bool_decide (p = "") || mux.holds (ascii_of_nat 10) p
    then mux.notFound
    else answerOf (handleFileOperations s p).
Proof.
  unfold routeDELETE, mux.variable.
  change (mux.afterPrefix "/api/files/" ("/api/files/" +:+ p)) with (Some p).
  cbv beta iota.
  destruct (bool_decide (p = "") || mux.holds (ascii_of_nat 10) p); [|done].
  assert (Hfunctions : mux.afterPrefix "/api/functions/" ("/api/files/" +:+ p) = None)
    by reflexivity.
  rewrite Hfunctions.
  rewrite !bool_decide_eq_false_2 by (intros Hc; vm_compute in Hc; discriminate).
  done.
Qed.

(** X13. Through a client connected to a server, LoadFile returns nil
    exactly when the path is not empty and its text is registered or
    accepted by the loader.  The Close of a network file asks for the
    removal of the URL made of the path: when that URL is clean the
    request reaches the handler, and Close returns nil exactly when the
    path is registered, not empty and without line feed, also when the
    Close of the file on the server fails; when it is not clean, as for
    every path that begins with a slash, the router redirects, the
    request that follows is a GET, the handler is not reached, and Close
    returns nil only if the cleaned URL is that of the list of files. *)
Theorem client_reports_server_failures `{GoLib} (env : Env) (s : Server)
    (url p : string) :
  let c := connectedTo env s url in
  let deleted := "/api/files/" +:+ p in
  (Client_LoadFile c p = None
   ↔ p ≠ "" ∧ (is_Some (activeFiles s !! Encode.text p)
               ∨ ∃ file, runLoader env (loaderFor env (Encode.text p)) (Encode.text p)
                         = Ok file))
  ∧ (mux.cleanPath deleted = deleted →
     (NetworkFile_Close c p = None
      ↔ p ≠ "" ∧ mux.holds (ascii_of_nat 10) p = false
        ∧ is_Some (activeFiles s !! p)))
  ∧ (mux.cleanPath deleted ≠ deleted →
     (NetworkFile_Close c p = None ↔ mux.cleanPath deleted = "/api/files"))
  ∧ (∀ rest, p = "/" +:+ rest → mux.cleanPath deleted ≠ deleted).
Proof.
  intros c deleted. split; [|split; [|split]].
  - rewrite (loadFile_by_status c p _ eq_refl). cbn [serve handleFiles snd].
    case_bool_decide as Hempty; simpl.
    + split; [by intros [[=]|[=]]|]. intros [Hp _].
      by destruct (Hp (text_empty p Hempty)).
    + assert (Hp : p ≠ "") by (by intros ->).
      destruct (activeFiles s !! Encode.text p) as [file|] eqn:Hfile; simpl.
      * split; [|by right]. intros _. split; [done|]. left. by eexists.
      * destruct (runLoader env (loaderFor env (Encode.text p)) (Encode.text p))
          as [file|msg]; simpl.
        -- split; [|by left]. intros _. split; [done|]. right. by eexists.
        -- split; [by intros [[=]|[=]]|]. intros [_ [[? [=]]|[? [=]]]].
  - intros Hclean.
    rewrite (close_by_status c p _ eq_refl). unfold exchangeDELETE.
    fold deleted. rewrite bool_decide_eq_false_2 by (intros Hc; by apply Hc).
    unfold deleted. rewrite routeDELETE_file.
    case_bool_decide as Hempty; simpl.
    + split; [by intros [=]|]. by intros [? _].
    + destruct (mux.holds (ascii_of_nat 10) p); simpl.
      * split; [by intros [=]|]. by intros (_ & [=] & _).
      * unfold answerOf, handleFileOperations.
        rewrite bool_decide_eq_false_2 by done.
        destruct (activeFiles s !! p) as [file|]; simpl.
        -- split; [|done]. intros _. split; [done|]. split; [done|]. by eexists.
        -- split; [by intros [=]|]. by intros (_ & _ & [? [=]]).
  - intros Hunclean.
    rewrite (close_by_status c p _ eq_refl). unfold exchangeDELETE.
    fold deleted. rewrite bool_decide_eq_true_2 by done.
    apply routeGET_status.
  - intros rest ->. apply absolute_redirected.
Qed.

(** X12. Opening a network file for a path of valid UTF-8 that the
    server has registered succeeds: the file has the server's function
    names in the server's order, each as the text the encoder wrote for
    it, each function loading through a request for its own name, and
    closing it asks for the removal of the URL made of the path. *)
Theorem network_file_mirrors_server `{GoLib} (env : Env) (s : Server)
    (url p : string) (file : disasm.File) :
  p ≠ "" →
  validText p →
  activeFiles s !! p = Some file →
  let c := connectedTo env s url in
  ∃ remote,
    NewNetworkFile c p = Ok remote
    ∧ funcNames remote = Encode.text <$> funcNames file
    ∧ disasm.File_Funcs remote = NetworkFunc c p <$> (Encode.text <$> funcNames file)
    ∧ disasm.File_Close remote = NetworkFile_Close c p.
Proof.
  intros Hne Hvalid Hp c.
  assert (Hloaded : Client_LoadFile c p = None).
  { apply (loadFile_by_status c p (WriteHeader StatusOK)); [|by right].
    unfold c, connectedTo. cbn [httpClient serve handleFiles snd].
    rewrite Hvalid. rewrite bool_decide_eq_false_2 by done. by rewrite Hp. }
  assert (Hfunctions : Client_GetFunctions c p ""
                       = Ok (mkFunctionInfo <$> (Encode.text <$> funcNames file))).
  { unfold c. rewrite (getFunctions_registered env s url p "" file Hne Hp).
    unfold nameFilter.
    rewrite bool_decide_eq_false_2 by (intros Hc; by apply Hc).
    by rewrite filter_everything. }
  unfold NewNetworkFile. rewrite Hloaded, Hfunctions, range_loop_assign.
  eexists. split; [done|]. cbn [disasm.File_Funcs disasm.File_Close].
  rewrite <- !list_fmap_compose. split; [|split; [|done]].
  - unfold funcNames at 1. cbn [disasm.File_Funcs]. rewrite <- list_fmap_compose.
    by apply list_fmap_ext.
  - by apply list_fmap_ext.
Qed.

(** ** The goroutine of the user interface *)

Lemma serverURL_prefix (serverAddr : string) :
  String.prefix "http://" (serverURL true serverAddr) = true.
Proof.
  unfold serverURL.
  destruct (String.prefix "http://" serverAddr) eqn:Haddr; simpl; [done|].
  by destruct serverAddr.
Qed.

Lemma serverURL_nonempty (serverAddr : string) : serverURL true serverAddr ≠ "".
Proof.
  intros Hempty. pose proof (serverURL_prefix serverAddr) as Hprefix.
  by rewrite Hempty in Hprefix.
Qed.

(** X14. The server URL main computes for client mode always begins
    with [http://] and so is never empty, computing it again from its
    own result changes nothing, and outside client mode it is empty. *)
Theorem server_url_has_scheme (serverAddr : string) :
  String.prefix "http://" (serverURL true serverAddr) = true
  ∧ serverURL true serverAddr ≠ ""
  ∧ serverURL true (serverURL true serverAddr) = serverURL true serverAddr
  ∧ serverURL false serverAddr = "".
Proof.
  split; [apply serverURL_prefix|]. split; [apply serverURL_nonempty|].
  split; [|done].
  unfold serverURL at 1. by rewrite serverURL_prefix.
Qed.

(** X15. In client mode the goroutine hands the one result of
    LoadNetworkFile to loadFinished and returns: it never stats, loads
    or waits, whether or not watching was asked for.  Outside client
    mode and without watching it makes one pass and returns, without
    waiting on the ticker. *)
Theorem goroutine_without_watching {F E : Type} (nil : F) (wasm : bool)
    (exePath serverAddr : string) (watch : bool) (lineContext : Z)
    (network : F * option E) (p : FileUI.Pass F E) (passes : list (FileUI.Pass F E)) :
  FileUI.goroutine nil wasm (uiConfig exePath watch lineContext true serverAddr)
    network passes
  = ([[FileUI.DidLoadFinished network.1 network.2]], FileUI.Returned)
  ∧ FileUI.goroutine nil wasm (uiConfig exePath false lineContext false serverAddr)
      network (p :: passes)
    = ([(FileUI.pass nil wasm FileUI.zeroTime p).2], FileUI.Returned).
Proof.
  split.
  - unfold FileUI.goroutine, uiConfig. cbn [FileUI.ServerURL].
    by rewrite bool_decide_eq_true_2 by apply serverURL_nonempty.
  - unfold FileUI.goroutine, uiConfig. cbn [FileUI.ServerURL FileUI.Watch].
    unfold serverURL.
    rewrite bool_decide_eq_false_2 by (intros Hc; by apply Hc).
    simpl. by destruct (FileUI.pass nil wasm FileUI.zeroTime p).
Qed.

Section reloading.
Context {F E : Type}.
Variable nil : F.
Variable wasm : bool.
Import FileUI.

Lemma lastModTimeAt_next (k : nat) (passes : list (Pass F E)) (p : Pass F E) :
  passes !! k = Some p →
  lastModTimeAt nil wasm (S k) passes
  = match stat p with
    | StatOk modTime => modTime
    | StatErr _ => lastModTimeAt nil wasm k passes
    end.
Proof.
  intros Hp. unfold lastModTimeAt.
  rewrite (take_S_r _ _ _ Hp), foldl_app. simpl.
  unfold nextModTime at 1, pass.
  destruct (stat p) as [modTime|err]; [|done].
  by case_bool_decide.
Qed.

Lemma pass_reloads (last : Z) (p : Pass F E) :
  reloads ((pass nil wasm last p).2 ++ [DidWait tickInterval]) = true
  ↔ ∃ modTime, stat p = StatOk modTime ∧ modTime ≠ last.
Proof.
  unfold pass. destruct (stat p) as [modTime|err]; simpl.
  - case_bool_decide as Hsame; simpl.
    + split; [done|]. by intros (? & [= <-] & ?).
    + split; [|done]. intros _. by exists modTime.
  - split; [done|]. by intros (? & [=] & _).
Qed.

(** The loop with a wake by exited after some wakes by the ticker. *)
Lemma loop_exited (last : Z) (before rest : list (Pass F E)) (p : Pass F E) :
  Forall (fun q => wake q = Tick) before →
  wake p = Exited →
  (loop nil wasm true last (before ++ p :: rest)).2 = Returned
  ∧ length (loop nil wasm true last (before ++ p :: rest)).1 = S (length before)
  ∧ loop nil wasm true last (before ++ p :: rest)
    = loop nil wasm true last (before ++ [p]).
Proof.
  intros Hticks Hexited. revert last.
  induction Hticks as [|q before Hq Hticks IH]; intros last; simpl.
  - destruct (pass nil wasm last p) as [last' did]. by rewrite Hexited.
  - destruct (pass nil wasm last q) as [last' did]. rewrite Hq.
    destruct (IH last') as (Hstatus & Hlength & Hrest). rewrite Hrest.
    destruct (loop nil wasm true last' (before ++ [p])) as [dids status] eqn:Hloop.
    rewrite Hrest in Hstatus, Hlength. simpl in *.
    by rewrite Hlength.
Qed.

Lemma deliver_latest (did : list (Did F E)) (ch : Chans F E) :
  deliver did ch
  = Some (mkChans (lastLoaded did (fileLoaded ch))
            (lastFailed did (fileLoadError ch))).
Proof.
  revert ch. induction did as [|d did IH]; intros [loaded failed]; [done|].
  destruct d as [|loader|exe [err|]|interval]; simpl; by rewrite ?IH.
Qed.

End reloading.

(** X16. While watching a local file, woken by the ticker: a pass calls
    the loader exactly when stat succeeds with a modification time other
    than the one remembered, which is the time of the latest pass whose
    stat succeeded (the zero time at first), whether or not the load of
    that pass succeeded.  So after a failed load the file is not loaded
    again for as long as its modification time stays what it was. *)
Theorem reload_only_on_new_modtime {F E : Type} (nil : F) (wasm : bool)
    (cfg : FileUI.FileUIConfig) (network : F * option E)
    (passes : list (FileUI.Pass F E)) (k : nat) (p : FileUI.Pass F E) :
  FileUI.Watch cfg = true →
  FileUI.ServerURL cfg = "" →
  Forall (fun q => FileUI.wake q = FileUI.Tick) passes →
  passes !! k = Some p →
  ∃ did,
    (FileUI.goroutine nil wasm cfg network passes).1 !! k = Some did
    ∧ (reloads did = true
       ↔ ∃ modTime, FileUI.stat p = FileUI.StatOk modTime
                    ∧ modTime ≠ FileUI.lastModTimeAt nil wasm k passes)
    ∧ FileUI.lastModTimeAt nil wasm (S k) passes
      = match FileUI.stat p with
        | FileUI.StatOk modTime => modTime
        | FileUI.StatErr _ => FileUI.lastModTimeAt nil wasm k passes
        end
    ∧ ∀ q did' modTime,
        passes !! S k = Some q →
        (FileUI.goroutine nil wasm cfg network passes).1 !! S k = Some did' →
        FileUI.stat p = FileUI.StatOk modTime →
        FileUI.stat q = FileUI.StatOk modTime →
        reloads did' = false.
Proof.
  intros Hwatch Hlocal Hticks Hp. unfold FileUI.goroutine.
  rewrite bool_decide_eq_false_2 by (intros Hurl; by apply Hurl).
  rewrite Hwatch.
  destruct (loop_watching nil wasm FileUI.zeroTime passes Hticks)
    as (_ & _ & Hdids).
  eexists. split; [by apply Hdids|].
  split; [apply pass_reloads|].
  split; [by apply lastModTimeAt_next|].
  intros q did' modTime Hq Hdid' Hstat Hstat'.
  rewrite (Hdids (S k) q Hq) in Hdid'. injection Hdid' as <-.
  apply not_true_is_false. rewrite pass_reloads.
  intros (modTime' & Hstat'' & Hchanged). apply Hchanged.
  change (foldl (FileUI.nextModTime nil wasm) FileUI.zeroTime (take (S k) passes))
    with (FileUI.lastModTimeAt nil wasm (S k) passes).
  rewrite (lastModTimeAt_next nil wasm k passes p Hp), Hstat. congruence.
Qed.

(** X17. While watching a local file, when the exited channel wakes the
    goroutine after a pass it returns: it has made that pass and the
    ones before it, and makes no pass after it. *)
Theorem exited_ends_the_goroutine {F E : Type} (nil : F) (wasm : bool)
    (cfg : FileUI.FileUIConfig) (network : F * option E)
    (before rest : list (FileUI.Pass F E)) (p : FileUI.Pass F E) :
  FileUI.Watch cfg = true →
  FileUI.ServerURL cfg = "" →
  Forall (fun q => FileUI.wake q = FileUI.Tick) before →
  FileUI.wake p = FileUI.Exited →
  (FileUI.goroutine nil wasm cfg network (before ++ p :: rest)).2 = FileUI.Returned
  ∧ length (FileUI.goroutine nil wasm cfg network (before ++ p :: rest)).1
    = S (length before)
  ∧ FileUI.goroutine nil wasm cfg network (before ++ p :: rest)
    = FileUI.goroutine nil wasm cfg network (before ++ [p]).
Proof.
  intros Hwatch Hlocal Hticks Hexited. unfold FileUI.goroutine.
  rewrite bool_decide_eq_false_2 by (intros Hurl; by apply Hurl).
  rewrite Hwatch. by apply loop_exited.
Qed.

Lemma lastLoaded_snoc {F E : Type} (did : list (FileUI.Did F E))
    (exe : F) (err : option E) (found : option F) :
  lastLoaded (did ++ [FileUI.DidLoadFinished exe err]) found
  = match err with None => Some exe | Some _ => lastLoaded did found end.
Proof.
  revert found.
  induction did as [|[|loader|exe' [e|]|interval] did IH]; intros found; simpl;
    rewrite ?IH; by destruct err.
Qed.

Lemma lastFailed_snoc {F E : Type} (did : list (FileUI.Did F E))
    (exe : F) (err : option E) (found : option E) :
  lastFailed (did ++ [FileUI.DidLoadFinished exe err]) found
  = match err with None => lastFailed did found | Some e => Some e end.
Proof.
  revert found.
  induction did as [|[|loader|exe' [e|]|interval] did IH]; intros found; simpl;
    rewrite ?IH; by destruct err.
Qed.

(** X18. The calls of loadFinished a goroutine makes without being
    interrupted never block, whatever the channels hold; afterwards the
    channel of loaded files holds the file of the last call without
    error and the channel of errors the error of the last call with one,
    and a channel no call was for holds what it held. *)
Theorem deliver_leaves_the_latest {F E : Type} (did : list (FileUI.Did F E))
    (ch : FileUI.Chans F E) (exe : F) (err : option E) :
  FileUI.deliver did ch
  = Some (FileUI.mkChans (lastLoaded did (FileUI.fileLoaded ch))
            (lastFailed did (FileUI.fileLoadError ch)))
  ∧ FileUI.deliver (did ++ [FileUI.DidLoadFinished exe err]) ch
    = Some match err with
           | None =>
               FileUI.mkChans (Some exe) (lastFailed did (FileUI.fileLoadError ch))
           | Some e =>
               FileUI.mkChans (lastLoaded did (FileUI.fileLoaded ch)) (Some e)
           end.
Proof.
  split; [apply deliver_latest|].
  rewrite deliver_latest, lastLoaded_snoc, lastFailed_snoc. by destruct err.
Qed.

(** ** What the event loop keeps *)

Section kept.
Context {F E : Type}.
Import FileUI.

Lemma step_keeps (a : Action F E) (st st' : Sys F E) :
  step a st = Some st' → keptInStep st st'.
Proof.
  destruct a as [exe err| | |]; simpl.
  - destruct (inFlight st); [done|]. by intros [= <-].
  - destruct (inFlight st) as [[exe' err']|]; [|done].
    destruct (loadFinished_send exe' err' (chans st)); [|done].
    by intros [= <-].
  - destruct (fileLoadError (chans st)) as [[n err]|]; [|done].
    intros [= <-]. split; [by eexists|done].
  - destruct (fileLoaded (chans st)) as [[n file]|]; [|done].
    intros [= <-]. split; [done|by eexists].
Qed.

Lemma exec_keeps (acts : list (Action F E)) (st st' : Sys F E) :
  exec acts st = Some st' → keptInStep st st'.
Proof.
  revert st. induction acts as [|a acts IH]; intros st; simpl.
  - by intros [= <-].
  - destruct (step a st) as [st1|] eqn:Hstep; [|done]. simpl.
    intros Hexec. destruct (step_keeps a st st1 Hstep) as [Herr Hfile].
    destruct (IH st1 Hexec) as [Herr' Hfile']. split; auto.
Qed.

Lemma step_received (a : Action F E) (st st' : Sys F E) :
  step a st = Some st' →
  (ui_LoadError st = None ↔ numbersOf Failed (received st) = []) →
  (ui_File st = None ↔ numbersOf Loaded (received st) = []) →
  (ui_LoadError st' = None ↔ numbersOf Failed (received st') = [])
  ∧ (ui_File st' = None ↔ numbersOf Loaded (received st') = []).
Proof.
  destruct a as [exe err| | |]; simpl.
  - destruct (inFlight st); [done|]. by intros [= <-].
  - destruct (inFlight st) as [[exe' err']|]; [|done].
    destruct (loadFinished_send exe' err' (chans st)); [|done].
    by intros [= <-].
  - destruct (fileLoadError (chans st)) as [[n err]|]; [|done].
    intros [= <-] Herr Hfile. simpl. rewrite !numbersOf_snoc. simpl.
    split; [|done]. split; [done|]. by intros ?%app_nil_r_inv%symmetry.
  - destruct (fileLoaded (chans st)) as [[n file]|]; [|done].
    intros [= <-] Herr Hfile. simpl. rewrite !numbersOf_snoc. simpl.
    split; [done|]. split; [done|]. by intros ?%app_nil_r_inv%symmetry.
Qed.

Lemma exec_received (acts : list (Action F E)) (st st' : Sys F E) :
  exec acts st = Some st' →
  (ui_LoadError st = None ↔ numbersOf Failed (received st) = []) →
  (ui_File st = None ↔ numbersOf Loaded (received st) = []) →
  (ui_LoadError st' = None ↔ numbersOf Failed (received st') = [])
  ∧ (ui_File st' = None ↔ numbersOf Loaded (received st') = []).
Proof.
  revert st. induction acts as [|a acts IH]; intros st; simpl.
  - by intros [= <-].
  - destruct (step a st) as [st1|] eqn:Hstep; [|done]. simpl.
    intros Hexec Herr Hfile.
    destruct (step_received a st st1 Hstep Herr Hfile) as [Herr1 Hfile1].
    by apply (IH st1).
Qed.

End kept.

(** X19. The event loop sets LoadError when it receives an error and
    never clears it: it is nil exactly as long as no error has been
    received, and once set it stays set whatever is received
    afterwards, files included.  Likewise the file is nil exactly as
    long as no file has been received. *)
Theorem load_error_is_never_cleared {F E : Type}
    (acts more : list (FileUI.Action F E)) (st st' : FileUI.Sys F E) :
  FileUI.exec acts FileUI.start = Some st →
  FileUI.exec more st = Some st' →
  (FileUI.ui_LoadError st = None
   ↔ numbersOf FileUI.Failed (FileUI.received st) = [])
  ∧ (FileUI.ui_File st = None
     ↔ numbersOf FileUI.Loaded (FileUI.received st) = [])
  ∧ keptInStep st st'.
Proof.
  intros Hexec Hmore.
  destruct (exec_received acts FileUI.start st Hexec) as [Herr Hfile]; [done..|].
  split; [done|]. split; [done|]. by eapply exec_keeps.
Qed.

(** ** Errors of a remote request for code *)

Lemma code_answer_cases `{GoLib} (s : Server) (name path contextStr : string) :
  (∃ code, answerOf (handleFunctionOperations s name path contextStr)
           = Encode (Encode.codeResponse (ToWire.codeResponse code)))
  ∨ (∃ msg status, answerOf (handleFunctionOperations s name path contextStr)
                   = http_Error msg status
                   ∧ 400 ≤ status).
Proof.
  unfold answerOf, handleFunctionOperations.
  case_bool_decide; [right; by eexists _, _|].
  case_bool_decide; [right; by eexists _, _|].
  destruct (activeFiles s !! path) as [file|]; [|right; by eexists _, _].
  destruct (findFunc (disasm.File_Funcs file) name) as [fn|];
    [|right; by eexists _, _].
  rewrite optionsFor_unfold.
  destruct (optionsFor s contextStr) as [opts|err]; [|right; by eexists _, _].
  destruct (disasm.Func_Load fn opts) as [code|]; [|right; by eexists _, _].
  left. by exists code.
Qed.

(** X20. A request for code through a client connected to a server
    either returns a code, when the server answers 200, or an error that
    carries the message of the server's answer after "server error: ";
    the remote function's Load then returns nil, and the message is
    lost to its caller. *)
Theorem remote_code_errors `{GoLib} (env : Env) (s : Server)
    (url path name : string) (opt : disasm.Options) :
  let c := connectedTo env s url in
  let context := disasm.Options_Context opt in
  let answer := answerOf (handleFunctionOperations s name path (contextParam context)) in
  (StatusCode answer = StatusOK ∧
   ∃ code, Client_GetFunctionCode c path name context = Ok code
           ∧ NetworkFunc_Load c path name opt = Some code)
  ∨ (400 ≤ StatusCode answer ∧
     ∃ msg, ResponseBody answer = Text (msg +:+ newline)
            ∧ Client_GetFunctionCode c path name context
              = Err ("server error: " +:+ (msg +:+ newline))
            ∧ NetworkFunc_Load c path name opt = None).
Proof.
  intros c context answer.
  unfold NetworkFunc_Load, Client_GetFunctionCode, c, connectedTo.
  cbn [httpClient serve]. fold context. fold (contextParam context).
  change (handleFunctionOperations s name path (contextParam context)).2
    with answer.
  destruct (code_answer_cases s name path (contextParam context))
    as [[code Hanswer]|(msg & status & Hanswer & Hstatus)];
    fold answer in Hanswer; rewrite Hanswer.
  - left. split; [done|]. exists (Received.code code).
    unfold Encode. cbn [StatusCode ResponseBody].
    rewrite bool_decide_eq_false_2 by (intros Hc; by apply Hc).
    cbn [decodeBody]. by rewrite decode_codeResponse.
  - right. split; [done|]. exists msg.
    unfold http_Error. cbn [StatusCode ResponseBody].
    rewrite bool_decide_eq_true_2 by (unfold StatusOK; lia).
    done.
Qed.

(** * The properties on the sample data *)

Section samples.
#[local] Existing Instance Sample.lib.

Lemma C1_add_is_idempotent_witness :
  serve (Sample.env false) Sample.server (ReqFiles POST (Ok "/bin/app"))
  = (Sample.server, [], WriteHeader StatusOK)
  ∧ answerOf (serve (Sample.env false) Sample.server (ReqFiles GET (Err "EOF")))
    = Encode (JObj [("files",
        Encode.strings (elements (dom (activeFiles Sample.server))))])
  ∧ length (filter (fun q => q = "/bin/app")
      (elements (dom (activeFiles Sample.server)))) = 1%nat.
Proof.
  apply (C1_add_is_idempotent (H := Sample.lib) 3
    [(Sample.env false, ReqFiles POST (Ok "/bin/app"));
     (Sample.env false, ReqFiles POST (Ok "/bin/stuck"))]
    (Sample.env false) "/bin/app").
  vm_compute. eexists. reflexivity.
Defined.

Lemma C2_remove_closes_and_forgets_witness :
  ∃ s' logged,
    serve (Sample.env false) Sample.server (ReqFileOperations "/bin/stuck")
    = (s', EvClose "/bin/stuck" Sample.stuck :: logged, WriteHeader StatusOK)
    ∧ activeFiles s' !! "/bin/stuck" = None
    ∧ let s'' := (serveAll s' [(Sample.env false, ReqFunctions "/bin/app" "add")]).1 in
      (∀ filter,
         handleFunctions s'' "/bin/stuck" filter
         = (s'', [], http_Error "File not found" StatusNotFound))
      ∧ (∀ name contextStr, name ≠ "" →
         handleFunctionOperations s'' name "/bin/stuck" contextStr
         = (s'', [], http_Error "File not found" StatusNotFound)).
Proof.
  apply (C2_remove_closes_and_forgets (H := Sample.lib) 3
    [(Sample.env false, ReqFiles POST (Ok "/bin/app"));
     (Sample.env false, ReqFiles POST (Ok "/bin/stuck"))]
    [(Sample.env false, ReqFunctions "/bin/app" "add")]
    (Sample.env false) "/bin/stuck" Sample.stuck).
  - reflexivity.
  - repeat constructor. intros Hreq. discriminate Hreq.
Defined.

Lemma C3_invalid_filter_changes_nothing_witness :
  handleFunctions Sample.server "/bin/app" "("
  = (Sample.server, [],
     http_Error ("Invalid filter regex: " +:+ "missing closing )") StatusBadRequest)
  ∧ ∀ env req,
      serve env (stateOf (handleFunctions Sample.server "/bin/app" "(")) req
      = serve env Sample.server req.
Proof.
  apply (C3_invalid_filter_changes_nothing 3
    [(Sample.env false, ReqFiles POST (Ok "/bin/app"));
     (Sample.env false, ReqFiles POST (Ok "/bin/stuck"))]
    "/bin/app" "(" "missing closing )").
  - vm_compute. eexists. reflexivity.
  - reflexivity.
Defined.

Lemma C10_functions_are_filtered_in_order_witness :
  handleFunctions Sample.server "/bin/app" "add"
  = (Sample.server, [], Encode (functionsBody ["main.add"]))
  ∧ namesOf (functionsBody ["main.add"]) = Ok ["main.add"]
  ∧ (Forall validText ["main.main"; "main.add"] →
     namesOf (functionsBody ["main.add"]) = Ok ["main.add"])
  ∧ sublist ["main.add"] ["main.main"; "main.add"]
  ∧ (∀ n, n ∈ ["main.add"]
          ↔ n ∈ ["main.main"; "main.add"] ∧ Sample.contains "add" n = true)
  ∧ ("add" = "" → ["main.add"] = ["main.main"; "main.add"]).
Proof.
  apply (C10_functions_are_filtered_in_order 3
    [(Sample.env false, ReqFiles POST (Ok "/bin/app"));
     (Sample.env false, ReqFiles POST (Ok "/bin/stuck"))]
    "/bin/app" "add" Sample.app (Sample.contains "add")).
  - reflexivity.
  - reflexivity.
Defined.

Lemma C7_wire_field_names_witness :
  ∃ j, ResponseBody
         (answerOf (handleFunctionOperations Sample.server "main.add" "/bin/app" "5"))
       = JSON j
       ∧ codeShape j.
Proof.
  apply (C7_wire_field_names Sample.server "main.add" "/bin/app" "5").
  reflexivity.
Defined.

(** A filter that compiles and selects no name: the functions of the
    body are null, and the client decodes no names. *)
Lemma functions_null_when_none_selected :
  handleFunctions Sample.server "/bin/app" "sub"
  = (Sample.server, [], Encode (JObj [("functions", JNull)]))
  ∧ namesOf (JObj [("functions", JNull)]) = Ok [].
Proof. split; reflexivity. Qed.

(** C9, at the removal of a file whose Close fails.  [bin/stuck] is
    registered, and the Close of its file returns an error.  The DELETE
    request for [/api/files/bin/stuck] is routed to handleFileOperations,
    which calls Close, writes the error to the server log and answers
    with the plain 200 of a successful removal: the Close of the network
    file returns nil, and the failed release is not reported to the
    caller. *)
Theorem C9_failed_close_answered_200 :
  activeFiles Sample.workdirServer !! "bin/stuck" = Some Sample.stuckHere
  ∧ disasm.File_Close Sample.stuckHere = Some "close bin/stuck: input/output error"
  ∧ serve (Sample.env false) Sample.workdirServer (ReqFileOperations "bin/stuck")
    = ({| activeFiles := delete "bin/stuck" (activeFiles Sample.workdirServer);
          options := options Sample.workdirServer |},
       [EvClose "bin/stuck" Sample.stuckHere;
        EvLog "Error closing file bin/stuck: close bin/stuck: input/output error"],
       WriteHeader StatusOK)
  ∧ exchangeDELETE (Sample.env false) Sample.workdirServer "/api/files/bin/stuck"
    = WriteHeader StatusOK
  ∧ NetworkFile_Close
      (connectedTo (Sample.env false) Sample.workdirServer "http://localhost:8080")
      "bin/stuck"
    = None
  ∧ ¬ closeFailureReported.
Proof.
  split; [reflexivity|]. split; [reflexivity|]. split; [reflexivity|].
  split; [reflexivity|]. split; [reflexivity|].
  intros Hreported.
  apply (Hreported Sample.workdirServer "bin/stuck"
           "close bin/stuck: input/output error" Sample.stuckHere);
    [done|reflexivity|reflexivity|reflexivity].
Qed.

(** The text the encoder writes: ASCII and well-formed sequences of two,
    three and four bytes as they are; and the replacement character for
    a lone byte of Latin-1, for each byte of an overlong encoding, of an
    encoded surrogate, of a code point beyond U+10FFFF, and of a
    sequence cut short. *)
Lemma text_of_samples :
  let bytes := fun l : list N => string_of_list_ascii (ascii_of_N <$> l) in
  Encode.text "main.add" = "main.add"
  ∧ Encode.text (bytes [195; 169]%N) = bytes [195; 169]%N
  ∧ Encode.text (bytes [226; 130; 172]%N) = bytes [226; 130; 172]%N
  ∧ Encode.text (bytes [240; 159; 152; 128]%N) = bytes [240; 159; 152; 128]%N
  ∧ Encode.text (bytes [239; 191; 189]%N) = bytes [239; 191; 189]%N
  ∧ Encode.text (bytes [233]%N) = utf8.RuneError
  ∧ Encode.text (bytes [192; 128]%N) = utf8.RuneError +:+ utf8.RuneError
  ∧ Encode.text (bytes [237; 160; 128]%N)
    = utf8.RuneError +:+ utf8.RuneError +:+ utf8.RuneError
  ∧ Encode.text (bytes [244; 144; 128; 128]%N)
    = utf8.RuneError +:+ utf8.RuneError +:+ utf8.RuneError +:+ utf8.RuneError
  ∧ Encode.text (bytes [226; 130]%N) = utf8.RuneError +:+ utf8.RuneError
  ∧ Encode.text (bytes [226; 130; 65]%N)
    = utf8.RuneError +:+ utf8.RuneError +:+ "A".
Proof. repeat split; reflexivity. Qed.

Lemma C6_remote_load_preserves_text_witness :
  let c := connectedTo (Sample.env false) Sample.server "http://localhost:8080" in
  validCode Sample.addCode
  ∧ FromWire.code (ToWire.codeResponse Sample.addCode) = Sample.addCode
  ∧ handleFunctionOperations Sample.server "main.add" "/bin/app" (contextParam 5)
    = (Sample.server, [],
       Encode (Encode.codeResponse (ToWire.codeResponse Sample.addCode)))
  ∧ Client_GetFunctionCode c "/bin/app" "main.add" 5
    = Ok (Received.code Sample.addCode)
  ∧ NetworkFunc_Load c "/bin/app" "main.add" (disasm.mkOptions 5)
    = Some (Received.code Sample.addCode)
  ∧ (validCode Sample.addCode →
     NetworkFunc_Load c "/bin/app" "main.add" (disasm.mkOptions 5)
     = Some Sample.addCode).
Proof.
  intros c. split.
  - unfold validCode, validSource, validText. repeat constructor.
  - apply (C6_remote_load_preserves_text c Sample.server "/bin/app" "main.add"
             (disasm.mkOptions 5) (disasm.mkOptions 5) Sample.app Sample.addFunc
             Sample.addCode).
    + reflexivity.
    + done.
    + done.
    + reflexivity.
    + reflexivity.
    + reflexivity.
    + reflexivity.
Defined.

(** C6, as the specification has it, fails: a line of the source of
    [main.cafe] holds a byte that is not valid UTF-8, the encoder writes
    the replacement character for it, and the decoded function that the
    remote function loads differs from the one the server loaded. *)
Lemma C6_invalid_text_is_altered : ¬ forwardsUnaltered.
Proof.
  intros Hforwards.
  pose proof (Hforwards
    (connectedTo (Sample.env false) Sample.legacyServer "http://localhost:8080")
    Sample.legacyServer "/bin/legacy" "main.cafe"
    (disasm.mkOptions 0) (disasm.mkOptions 3) Sample.legacy Sample.cafeFunc
    Sample.cafeCode eq_refl ltac:(done) ltac:(done) eq_refl eq_refl eq_refl eq_refl)
    as Hloaded.
  vm_compute in Hloaded. discriminate Hloaded.
Qed.

Lemma C4_latest_of_its_kind_wins_witness :
  FileUI.step FileUI.ReceiveLoaded Sample.afterTraffic
  = Some (default FileUI.start
            (FileUI.exec (Sample.traffic ++ [FileUI.ReceiveLoaded]) FileUI.start))
  ∧ ∃ n file,
      FileUI.received
        (default FileUI.start
           (FileUI.exec (Sample.traffic ++ [FileUI.ReceiveLoaded]) FileUI.start))
      = FileUI.received Sample.afterTraffic ++ [(n, FileUI.Loaded)]
      ∧ FileUI.latest FileUI.Loaded Sample.afterTraffic = Some n
      ∧ FileUI.ui_File
          (default FileUI.start
             (FileUI.exec (Sample.traffic ++ [FileUI.ReceiveLoaded]) FileUI.start))
        = Some file
      ∧ FileUI.calls Sample.afterTraffic !! n = Some (file, None).
Proof.
  split; [reflexivity|].
  apply (C4_latest_of_its_kind_wins Sample.traffic Sample.afterTraffic);
    reflexivity.
Defined.

(** C4, as the specification has it, fails: a load and then an error
    are handed to loadFinished; the load is not discarded, and when the
    event loop takes it from fileLoaded it receives the older of the
    two results. *)
Lemma C4_older_result_received : ¬ latestWins string string.
Proof.
  intros Hwins.
  edestruct (Hwins Sample.loadThenError) as (n & k & Hreceived & Hlatest);
    [reflexivity|right; reflexivity|reflexivity|].
  simpl in Hreceived, Hlatest. injection Hreceived as <- _. discriminate Hlatest.
Qed.

Lemma C5_failed_reload_keeps_polling_witness :
  (FileUI.goroutine "" false Sample.watching ("", None) Sample.polls).2
  = FileUI.Polling (FileUI.lastModTimeAt "" false (length Sample.polls) Sample.polls)
  ∧ length (FileUI.goroutine "" false Sample.watching ("", None) Sample.polls).1
    = length Sample.polls
  ∧ ∀ k p, Sample.polls !! k = Some p →
      let last := FileUI.lastModTimeAt "" false k Sample.polls in
      let did := (FileUI.pass "" false last p).2 in
      (FileUI.goroutine "" false Sample.watching ("", None) Sample.polls).1 !! k
      = Some (did ++ [FileUI.DidWait 100])
      ∧ ∀ err,
          (FileUI.stat p = FileUI.StatErr err
           ∨ ∃ modTime, FileUI.stat p = FileUI.StatOk modTime
                        ∧ modTime ≠ last ∧ (FileUI.load p).2 = Some err) →
          (∃ before exe,
             did = before ++ [FileUI.DidLoadFinished exe (Some err)]
             ∧ Forall (fun d => ∀ exe' err', d ≠ FileUI.DidLoadFinished exe' err')
                 before)
          ∧ ∀ ch, ∃ ch',
              FileUI.deliver did ch = Some ch'
              ∧ FileUI.fileLoadError ch' = Some err
              ∧ FileUI.fileLoaded ch' = FileUI.fileLoaded ch.
Proof.
  apply (C5_failed_reload_keeps_polling "" false Sample.watching ("", None)
           Sample.polls).
  - reflexivity.
  - reflexivity.
  - repeat constructor.
Defined.

End samples.

(** * The further properties on the sample data *)

Section more_samples.
#[local] Existing Instance Sample.lib.

Lemma load_registers_and_remove_restores_witness :
  let s1 := stateOf (serve (Sample.env false) (NewServer 3)
                       (ReqFiles POST (Ok "/bin/app"))) in
  activeFiles s1 !! "/bin/app" = Some Sample.app
  ∧ (∀ q, q ≠ "/bin/app" → activeFiles s1 !! q = activeFiles (NewServer 3) !! q)
  ∧ options s1 = options (NewServer 3)
  ∧ answerOf (serve (Sample.env false) s1 (ReqFunctions "/bin/app" ""))
    = Encode (functionsBody (funcNames Sample.app))
  ∧ stateOf (serve (Sample.env false) s1 (ReqFileOperations "/bin/app"))
    = NewServer 3.
Proof.
  apply (load_registers_and_remove_restores (Sample.env false) (NewServer 3)
           "/bin/app" Sample.app).
  - done.
  - reflexivity.
  - reflexivity.
Defined.

Lemma queries_change_nothing_witness :
  serveAll Sample.server
    [(Sample.env false, ReqFiles GET (Err "EOF"));
     (Sample.env true, ReqFunctions "/bin/app" "(");
     (Sample.env false, ReqFunctionOperations "main.add" "/bin/stuck" "7")]
  = (Sample.server, []).
Proof.
  apply (queries_change_nothing Sample.server
    [(Sample.env false, ReqFiles GET (Err "EOF"));
     (Sample.env true, ReqFunctions "/bin/app" "(");
     (Sample.env false, ReqFunctionOperations "main.add" "/bin/stuck" "7")]).
  repeat constructor.
Defined.

Lemma function_found_by_first_name_witness :
  (answerOf (handleFunctionOperations Sample.server "main.add" "/bin/app" "7")
   = http_Error "Function not found" StatusNotFound
   ↔ "main.add" ∉ funcNames Sample.app)
  ∧ ∀ before fn after,
      disasm.File_Funcs Sample.app = before ++ fn :: after →
      disasm.Func_Name fn = "main.add" →
      "main.add" ∉ (disasm.Func_Name <$> before) →
      answerOf (handleFunctionOperations Sample.server "main.add" "/bin/app" "7")
      = match optionsFor Sample.server "7" with
        | Err _ => http_Error "Invalid context value" StatusBadRequest
        | Ok opts =>
            match disasm.Func_Load fn opts with
            | Some code => Encode (Encode.codeResponse (ToWire.codeResponse code))
            | None =>
                http_Error "Failed to load function code" StatusInternalServerError
            end
        end.
Proof.
  apply (function_found_by_first_name Sample.server "main.add" "/bin/app" "7"
           Sample.app).
  - done.
  - done.
  - reflexivity.
Defined.

Lemma remote_load_context_witness :
  (5 > 0 →
   fmt_d 5 ≠ "" →
   strconv_Atoi (fmt_d 5) = Ok 5 →
   NetworkFunc_Load (connectedTo (Sample.env false) Sample.server "http://localhost:8080")
     "/bin/app" "main.add" (disasm.mkOptions 5)
   = Received.code <$> disasm.Func_Load Sample.addFunc (disasm.mkOptions 5))
  ∧ (5 ≤ 0 →
     NetworkFunc_Load (connectedTo (Sample.env false) Sample.server "http://localhost:8080")
       "/bin/app" "main.add" (disasm.mkOptions 5)
     = Received.code <$> disasm.Func_Load Sample.addFunc (options Sample.server))
  ∧ (∀ code, validCode code → Received.code code = code).
Proof.
  apply (remote_load_context (Sample.env false) Sample.server
           "http://localhost:8080" "/bin/app" "main.add" (disasm.mkOptions 5)
           Sample.app Sample.addFunc).
  - done.
  - done.
  - reflexivity.
  - reflexivity.
Defined.

Lemma remote_functions_witness :
  Client_GetFunctions
    (connectedTo (Sample.env false) Sample.server "http://localhost:8080")
    "/bin/app" "add"
  = match nameFilter "add" with
    | Ok selects =>
        Ok (mkFunctionInfo
              <$> (Encode.text <$> filter (fun n => selects n) (funcNames Sample.app)))
    | Err err =>
        Err ("server error: " +:+ (("Invalid filter regex: " +:+ err) +:+ newline))
    end
  ∧ (Forall validText (funcNames Sample.app) →
     ∀ selects, nameFilter "add" = Ok selects →
       Client_GetFunctions
         (connectedTo (Sample.env false) Sample.server "http://localhost:8080")
         "/bin/app" "add"
       = Ok (mkFunctionInfo <$> filter (fun n => selects n) (funcNames Sample.app))).
Proof.
  apply (remote_functions (Sample.env false) Sample.server
           "http://localhost:8080" "/bin/app" "add" Sample.app).
  - done.
  - reflexivity.
Defined.

Lemma network_file_mirrors_server_witness :
  let c := connectedTo (Sample.env false) Sample.server "http://localhost:8080" in
  ∃ remote,
    NewNetworkFile c "/bin/stuck" = Ok remote
    ∧ funcNames remote = Encode.text <$> funcNames Sample.stuck
    ∧ disasm.File_Funcs remote
      = NetworkFunc c "/bin/stuck" <$> (Encode.text <$> funcNames Sample.stuck)
    ∧ disasm.File_Close remote = NetworkFile_Close c "/bin/stuck".
Proof.
  apply (network_file_mirrors_server (Sample.env false) Sample.server
           "http://localhost:8080" "/bin/stuck" Sample.stuck).
  - done.
  - reflexivity.
  - reflexivity.
Defined.

(** The Close of the network file of [/bin/stuck], which the server has
    registered: the path begins with a slash, the router redirects to
    [/api/files/bin/stuck], the GET request that follows is answered
    405, and Close returns an error; the file stays registered. *)
Lemma client_reports_server_failures_witness :
  let c := connectedTo (Sample.env false) Sample.server "http://localhost:8080" in
  let c' := connectedTo (Sample.env false) Sample.workdirServer "http://localhost:8080" in
  is_Some (activeFiles Sample.server !! "/bin/stuck")
  ∧ mux.cleanPath "/api/files//bin/stuck" = "/api/files/bin/stuck"
  ∧ StatusCode (exchangeDELETE (Sample.env false) Sample.server "/api/files//bin/stuck")
    = StatusMethodNotAllowed
  ∧ NetworkFile_Close c "/bin/stuck" ≠ None
  ∧ mux.cleanPath "/api/files/bin/stuck" = "/api/files/bin/stuck"
  ∧ NetworkFile_Close c' "bin/stuck" = None.
Proof.
  intros c c'. split; [by eexists|]. split; [reflexivity|]. split; [reflexivity|].
  split; [|split; [reflexivity|]].
  - destruct (client_reports_server_failures (Sample.env false) Sample.server
                "http://localhost:8080" "/bin/stuck")
      as (_ & _ & Hredirected & Habsolute).
    intros Hclosed.
    apply Hredirected in Hclosed; [discriminate Hclosed|].
    by apply (Habsolute "bin/stuck").
  - destruct (client_reports_server_failures (Sample.env false) Sample.workdirServer
                "http://localhost:8080" "bin/stuck")
      as (_ & Hrouted & _).
    apply Hrouted; [reflexivity|].
    split; [done|]. split; [reflexivity|]. by eexists.
Defined.

Lemma reload_only_on_new_modtime_witness :
  ∃ did,
    (FileUI.goroutine "" false Sample.watching ("", None) Sample.polls).1 !! 2%nat
    = Some did
    ∧ (reloads did = true
       ↔ ∃ modTime, FileUI.StatOk (E := string) 20 = FileUI.StatOk modTime
                    ∧ modTime ≠ FileUI.lastModTimeAt "" false 2 Sample.polls)
    ∧ FileUI.lastModTimeAt "" false 3 Sample.polls = 20
    ∧ ∀ q did' modTime,
        Sample.polls !! 3%nat = Some q →
        (FileUI.goroutine "" false Sample.watching ("", None) Sample.polls).1 !! 3%nat
        = Some did' →
        FileUI.StatOk (E := string) 20 = FileUI.StatOk modTime →
        FileUI.stat q = FileUI.StatOk modTime →
        reloads did' = false.
Proof.
  apply (reload_only_on_new_modtime "" false Sample.watching ("", None)
           Sample.polls 2
           (FileUI.mkPass (FileUI.StatOk 20)
              ("", Some "goobj: unrecognized object file") FileUI.Tick)).
  - reflexivity.
  - reflexivity.
  - repeat constructor.
  - reflexivity.
Defined.

Lemma exited_ends_the_goroutine_witness :
  (FileUI.goroutine "" false Sample.watching ("", None)
     (Sample.polls
      ++ FileUI.mkPass (FileUI.StatOk 30) ("app#2", None) FileUI.Exited
      :: Sample.polls)).2
  = FileUI.Returned
  ∧ length (FileUI.goroutine "" false Sample.watching ("", None)
              (Sample.polls
               ++ FileUI.mkPass (FileUI.StatOk 30) ("app#2", None) FileUI.Exited
               :: Sample.polls)).1
    = S (length Sample.polls)
  ∧ FileUI.goroutine "" false Sample.watching ("", None)
      (Sample.polls
       ++ FileUI.mkPass (FileUI.StatOk 30) ("app#2", None) FileUI.Exited
       :: Sample.polls)
    = FileUI.goroutine "" false Sample.watching ("", None)
        (Sample.polls
         ++ [FileUI.mkPass (FileUI.StatOk 30) ("app#2", None) FileUI.Exited]).
Proof.
  apply (exited_ends_the_goroutine "" false Sample.watching ("", None)
           Sample.polls Sample.polls
           (FileUI.mkPass (FileUI.StatOk 30) ("app#2", None) FileUI.Exited)).
  - reflexivity.
  - reflexivity.
  - repeat constructor.
  - reflexivity.
Defined.

Lemma load_error_is_never_cleared_witness :
  (FileUI.ui_LoadError Sample.afterTraffic = None
   ↔ numbersOf FileUI.Failed (FileUI.received Sample.afterTraffic) = [])
  ∧ (FileUI.ui_File Sample.afterTraffic = None
     ↔ numbersOf FileUI.Loaded (FileUI.received Sample.afterTraffic) = [])
  ∧ keptInStep Sample.afterTraffic
      (default FileUI.start
         (FileUI.exec [FileUI.ReceiveLoaded] Sample.afterTraffic)).
Proof.
  apply (load_error_is_never_cleared Sample.traffic [FileUI.ReceiveLoaded]
           Sample.afterTraffic
           (default FileUI.start
              (FileUI.exec [FileUI.ReceiveLoaded] Sample.afterTraffic))).
  - reflexivity.
  - reflexivity.
Defined.

End more_samples.
